(** * Replay analyzer: normalisation, coverage, selection and script rendering

    A shallow embedding of [replay_analyzer.py].  Python values that reach the
    analyzer from the raw replay listing are untyped, so the fields that
    [analyze_replay] passes through unchanged are kept as dynamic [pyval]s and
    every operation that Python can reject at run time returns a [result].

    Scope of the model: integers are unbounded ([Z]); a Python [str] is a
    [string] whose elements each stand for one character; floating-point
    numbers are not represented. *)

From Stdlib Require Import ZArith List String Ascii Bool Lia Permutation Sorted.
From Stdlib Require Import DecimalString.
Import ListNotations.
Open Scope string_scope.
Open Scope list_scope.
Open Scope Z_scope.

(** ** Dynamic values and exceptions *)

#[local] Set Warnings "-register-all".

(** The values of a decoded JSON document: null, booleans, integers, strings,
    lists and mappings with string keys.  Numbers with a fraction are left
    out: where a statement speaks of a value that is not an integer, it
    speaks of the other values of this type. *)
Inductive pyval : Type :=
| VNone
| VBool (b : bool)
| VInt (z : Z)
| VStr (s : string)
| VList (l : list pyval)
| VDict (d : list (string * pyval)).

Inductive exn : Type := TypeError | KeyError | IndexError | AttributeError.

Inductive result (A : Type) : Type :=
| Ok (a : A)
| Raise (e : exn).
Arguments Ok {A} a.
Arguments Raise {A} e.

Definition bind {A B : Type} (m : result A) (k : A -> result B) : result B :=
  match m with
  | Ok a => k a
  | Raise e => Raise e
  end.

Notation "x <- m ;; k" := (bind m (fun x => k))
  (at level 61, m at next level, right associativity).
Notation "m >>= k" := (bind m k) (at level 50, left associativity).

(** A dict with string keys, in insertion order.  [dict_get k d] is [None]
    when [k in d] is false and holds [d[k]] otherwise. *)
Definition dict := list (string * pyval).

Fixpoint dict_get (k : string) (d : dict) : option pyval :=
  match d with
  | [] => None
  | (k', v) :: d' => if String.eqb k k' then Some v else dict_get k d'
  end.

Definition get_default (k : string) (dflt : pyval) (d : dict) : pyval :=
  match dict_get k d with Some v => v | None => dflt end.

(** Truth value of an object, as [if x:] tests it. *)
Definition truthy (v : pyval) : bool :=
  match v with
  | VNone => false
  | VBool b => b
  | VInt z => negb (z =? 0)
  | VStr s => negb (String.eqb s "")
  | VList l => match l with [] => false | _ => true end
  | VDict d => match d with [] => false | _ => true end
  end.

Definition chars (s : string) : list pyval :=
  map (fun c => VStr (String c EmptyString)) (list_ascii_of_string s).

(** [x[0]].  The keys of a dict are strings, so [0] is never one of them. *)
Definition subscript0 (v : pyval) : result pyval :=
  match v with
  | VList (x :: _) => Ok x
  | VList [] => Raise IndexError
  | VStr (String c _) => Ok (VStr (String c EmptyString))
  | VStr EmptyString => Raise IndexError
  | VDict _ => Raise KeyError
  | VNone | VBool _ | VInt _ => Raise TypeError
  end.

(** The elements a [for] loop draws from an object. *)
Definition iterate (v : pyval) : result (list pyval) :=
  match v with
  | VList l => Ok l
  | VStr s => Ok (chars s)
  | VDict d => Ok (map (fun kv => VStr (fst kv)) d)
  | _ => Raise TypeError
  end.

(** [x.get(k)] and [x.get(k, dflt)]: only a dict has the method. *)
Definition method_get (v : pyval) (k : string) (dflt : pyval) : result pyval :=
  match v with
  | VDict d => Ok (get_default k dflt d)
  | _ => Raise AttributeError
  end.

Definition is_str (s : string) (v : pyval) : bool :=
  match v with VStr s' => String.eqb s' s | _ => false end.

(** The integer an object stands for in an order comparison with an [int];
    [bool] is a subclass of [int], every other type is rejected. *)
Definition as_int (v : pyval) : result Z :=
  match v with
  | VInt z => Ok z
  | VBool b => Ok (Z.b2z b)
  | _ => Raise TypeError
  end.

(** [len(x)]. *)
Definition py_len (v : pyval) : result nat :=
  match v with
  | VStr s => Ok (String.length s)
  | VList l => Ok (List.length l)
  | VDict d => Ok (List.length d)
  | _ => Raise TypeError
  end.

(** ** The data model *)

Record UserAction : Type := mkUserAction {
  timestamp : Z;
  action_type : string;
  selector : option string;
  value : option string;
  target : option string;
  coordinates : option (list (string * Z))
}.

Record NetworkRequest : Type := mkNetworkRequest {
  nr_timestamp : Z;
  method : string;
  nr_url : string;
  status_code : option Z;
  response_body : option string;
  request_body : option string
}.

Record ReplaySession : Type := mkReplaySession {
  replay_id : pyval;
  duration : pyval;
  url : pyval;
  actions : list UserAction;
  network_requests : list NetworkRequest;
  errors : pyval;
  metadata : dict
}.

(** ** The store

    [self.sessions] and the [candidates] list of the selector are list
    objects that are updated in place ([append], [sort]); they live in a
    store and are named by their address.  A [ReplaySession] is stored by
    value: no code path assigns to a field of a session. *)

Definition loc := nat.
Definition heap := list (list ReplaySession).

Definition read (l : loc) (h : heap) : list ReplaySession := nth l h [].

Fixpoint write (l : loc) (xs : list ReplaySession) (h : heap) : heap :=
  match h, l with
  | [], _ => []
  | _ :: h', O => xs :: h'
  | ys :: h', S l' => ys :: write l' xs h'
  end.

Definition valid (l : loc) (h : heap) : Prop := (l < List.length h)%nat.

(** Computations that read and update the store and may raise; an
    exception leaves the store as it was when it was raised. *)
Definition M (A : Type) : Type := heap -> result A * heap.

Definition ret {A : Type} (a : A) : M A := fun h => (Ok a, h).

Definition mbind {A B : Type} (m : M A) (k : A -> M B) : M B :=
  fun h => match m h with
           | (Ok a, h') => k a h'
           | (Raise e, h') => (Raise e, h')
           end.

Definition lift {A : Type} (r : result A) : M A := fun h => (r, h).

Definition alloc (xs : list ReplaySession) : M loc :=
  fun h => (Ok (List.length h), h ++ [xs]).

Definition load (l : loc) : M (list ReplaySession) :=
  fun h => (Ok (read l h), h).

Definition store (l : loc) (xs : list ReplaySession) : M unit :=
  fun h => (Ok tt, write l xs h).

Notation "x <~ m ;; k" := (mbind m (fun x => k))
  (at level 61, m at next level, right associativity).

Record ReplayAnalyzer : Type := mkReplayAnalyzer {
  sessions : loc
}.

(** [ReplayAnalyzer.__init__]: a fresh, empty list object. *)
Definition init : M ReplayAnalyzer :=
  l <~ alloc [] ;; ret (mkReplayAnalyzer l).

(** ** Normalizer *)

Module Normalizer.

Fixpoint find_url_tag (tags : list pyval) : result (option pyval) :=
  match tags with
  | [] => Ok None
  | tag :: rest =>
      k <- method_get tag "key" VNone ;;
      if is_str "url" k
      then v <- method_get tag "value" (VStr "") ;; Ok (Some v)
      else find_url_tag rest
  end.

Definition has_urls (replay_data : dict) : bool :=
  match dict_get "urls" replay_data with
  | Some u => truthy u
  | None => false
  end.

Definition _extract_url (replay_data : dict) : result pyval :=
  if has_urls replay_data
  then subscript0 (get_default "urls" VNone replay_data)
  else
    match dict_get "url" replay_data with
    | Some u => Ok u
    | None =>
        match dict_get "tags" replay_data with
        | Some t =>
            tags <- iterate t ;;
            found <- find_url_tag tags ;;
            match found with
            | Some v => Ok v
            | None => Ok (VStr "https://example.com")
            end
        | None => Ok (VStr "https://example.com")
        end
    end.

Definition _extract_actions (replay_data : dict) : list UserAction := [].

Definition _extract_network_requests (replay_data : dict)
  : list NetworkRequest := [].

Definition _extract_errors (replay_data : dict) : result pyval :=
  match dict_get "errors" replay_data with
  | Some e => Ok e
  | None =>
      match dict_get "error_ids" replay_data with
      | Some ids =>
          l <- iterate ids ;;
          Ok (VList (map (fun eid => VDict [("id", eid)]) l))
      | None => Ok (VList [])
      end
  end.

Definition build_metadata (replay_data : dict) : dict :=
  [ ("user", get_default "user" (VDict []) replay_data);
    ("browser", get_default "browser" (VDict []) replay_data);
    ("os", get_default "os" (VDict []) replay_data);
    ("device", get_default "device" (VDict []) replay_data);
    ("started_at", get_default "started_at" VNone replay_data);
    ("finished_at", get_default "finished_at" VNone replay_data);
    ("error_count", get_default "error_count" (VInt 0) replay_data);
    ("project_id", get_default "project_id" VNone replay_data) ].

(** [analyze_replay]: the new session is appended in place to the list
    object [self.sessions] and also returned. *)
Definition analyze_replay (self : ReplayAnalyzer) (replay_data : dict)
  : M ReplaySession :=
  let replay_id := get_default "id" (VStr "unknown") replay_data in
  let duration := get_default "duration" (VInt 0) replay_data in
  url <~ lift (_extract_url replay_data) ;;
  let actions := _extract_actions replay_data in
  let network_requests := _extract_network_requests replay_data in
  errors <~ lift (_extract_errors replay_data) ;;
  let metadata := build_metadata replay_data in
  let session :=
    mkReplaySession replay_id duration url actions network_requests
                    errors metadata in
  old <~ load (sessions self) ;;
  _ <~ store (sessions self) (old ++ [session]) ;;
  ret session.

End Normalizer.

(** ** Selector *)

Module Selector.

(** [[s for s in sessions if s.duration >= min_duration]]. *)
Fixpoint filter_by_duration (min_duration : Z) (l : list ReplaySession)
  : result (list ReplaySession) :=
  match l with
  | [] => Ok []
  | s :: l' =>
      d <- as_int (duration s) ;;
      rest <- filter_by_duration min_duration l' ;;
      Ok (if min_duration <=? d then s :: rest else rest)
  end.

(** [list.sort(key=..., reverse=True)]: the keys are computed once for the
    whole list, then the list is put in descending key order; elements whose
    keys compare equal keep their order. *)
Section Sort.
Context {K A : Type}.
Variable ltb : K -> K -> bool.

Fixpoint insert_desc (x : K * A) (l : list (K * A)) : list (K * A) :=
  match l with
  | [] => [x]
  | y :: l' =>
      if ltb (fst x) (fst y) then y :: insert_desc x l' else x :: y :: l'
  end.

Definition sort_desc (l : list (K * A)) : list (K * A) :=
  fold_right insert_desc [] l.
End Sort.

Fixpoint decorate {K : Type} (key : ReplaySession -> result K)
    (l : list ReplaySession) : result (list (K * ReplaySession)) :=
  match l with
  | [] => Ok []
  | s :: l' =>
      k <- key s ;;
      rest <- decorate key l' ;;
      Ok ((k, s) :: rest)
  end.

Definition sort_in_place {K : Type} (key : ReplaySession -> result K)
    (ltb : K -> K -> bool) (l : loc) : M unit :=
  xs <~ load l ;;
  keyed <~ lift (decorate key xs) ;;
  store l (map snd (sort_desc ltb keyed)).

(** [lambda s: (len(s.errors), s.duration)], with tuple comparison. *)
Definition key_errors_duration (s : ReplaySession) : result (Z * Z) :=
  n <- py_len (errors s) ;;
  d <- as_int (duration s) ;;
  Ok (Z.of_nat n, d).

Definition lex_ltb (a b : Z * Z) : bool :=
  (fst a <? fst b) || ((fst a =? fst b) && (snd a <? snd b)).

(** [lambda s: s.duration]. *)
Definition key_duration (s : ReplaySession) : result Z :=
  as_int (duration s).

(** [xs[:n]]: a negative [n] counts from the end of the list. *)
Definition slice_to {A : Type} (n : Z) (xs : list A) : list A :=
  if n <? 0
  then firstn (Z.to_nat (Z.of_nat (List.length xs) + n)) xs
  else firstn (Z.to_nat n) xs.

Definition select_sessions_for_testing (self : ReplayAnalyzer)
    (max_sessions : Z) (prioritize_errors : bool) (min_duration : Z)
  : M loc :=
  all <~ load (sessions self) ;;
  filtered <~ lift (filter_by_duration min_duration all) ;;
  candidates <~ alloc filtered ;;
  _ <~ (if prioritize_errors
        then sort_in_place key_errors_duration lex_ltb candidates
        else sort_in_place key_duration Z.ltb candidates) ;;
  sorted <~ load candidates ;;
  alloc (slice_to max_sessions sorted).

Definition default_max_sessions : Z := 10.
Definition default_prioritize_errors : bool := true.
Definition default_min_duration : Z := 1000.

End Selector.

(** ** Script synthesizer *)

Module Synth.

Definition newline : string := String "010"%char EmptyString.
Definition squote : ascii := "'"%char.
Definition dquote : ascii := "034"%char.
Definition backslash : ascii := "092"%char.

Definition str_of_char (c : ascii) : string := String c EmptyString.

(** *** [str()] and [repr()] of dynamic values *)

Definition str_of_Z (z : Z) : string := NilZero.string_of_int (Z.to_int z).

Definition hex_digit (n : nat) : ascii :=
  nth n (list_ascii_of_string "0123456789abcdef") "0"%char.

Definition printable (c : ascii) : bool :=
  let n := nat_of_ascii c in
  ((32 <=? n) && (n <=? 126) || (161 <=? n) && negb (n =? 173))%nat.

Definition escape_char (quote c : ascii) : string :=
  if Ascii.eqb c quote || Ascii.eqb c backslash
  then String backslash (str_of_char c)
  else if Ascii.eqb c "009"%char then "\t"
  else if Ascii.eqb c "010"%char then "\n"
  else if Ascii.eqb c "013"%char then "\r"
  else if printable c then str_of_char c
  else
    let n := nat_of_ascii c in
    String backslash
      (String "x"%char
         (String (hex_digit (n / 16)) (str_of_char (hex_digit (n mod 16))))).

Definition contains (c : ascii) (s : string) : bool :=
  existsb (Ascii.eqb c) (list_ascii_of_string s).

Definition repr_str (s : string) : string :=
  let quote :=
    if contains squote s && negb (contains dquote s) then dquote else squote in
  (str_of_char quote
   ++ String.concat "" (map (escape_char quote) (list_ascii_of_string s))
   ++ str_of_char quote)%string.

Fixpoint py_repr (v : pyval) : string :=
  match v with
  | VNone => "None"
  | VBool true => "True"
  | VBool false => "False"
  | VInt z => str_of_Z z
  | VStr s => repr_str s
  | VList l => ("[" ++ String.concat ", " (map py_repr l) ++ "]")%string
  | VDict d =>
      ("{"
       ++ String.concat ", "
            (map (fun '(k, x) => (repr_str k ++ ": " ++ py_repr x)%string) d)
       ++ "}")%string
  end.

(** What an f-string field [{x}] prints. *)
Definition py_str (v : pyval) : string :=
  match v with
  | VStr s => s
  | _ => py_repr v
  end.

Definition fmt_opt (o : option string) : string :=
  match o with
  | Some s => s
  | None => "None"
  end.

(** [x[:8]].  A dict rejects a slice as a key ([TypeError] up to Python
    3.11). *)
Definition slice8 (v : pyval) : result pyval :=
  match v with
  | VStr s => Ok (VStr (substring 0 8 s))
  | VList l => Ok (VList (firstn 8 l))
  | _ => Raise TypeError
  end.

(** Truth value of an [Optional[str]]: [None] and the empty string are false. *)
Definition truthy_opt (o : option string) : bool :=
  match o with
  | Some s => negb (String.eqb s "")
  | None => false
  end.

(** *** The statements *)

Definition click_stmt (sel : string) : string :=
  ("  await page.click('" ++ sel ++ "');")%string.

Definition fill_stmt (sel val : string) : string :=
  ("  await page.fill('" ++ sel ++ "', '" ++ val ++ "');")%string.

Definition goto_stmt (tgt : string) : string :=
  ("  await page.goto('" ++ tgt ++ "');")%string.

Definition wait_stmt : string := "  await page.waitForTimeout(100);".

Definition header (id8 dur u : string) : list string :=
  [ "import { test, expect } from '@playwright/test';";
    "";
    ("test('replay-" ++ id8 ++ "', async ({ page }) => {")%string;
    ("  // Original session duration: " ++ dur ++ "ms")%string;
    ("  // URL: " ++ u)%string;
    "";
    goto_stmt u;
    "" ].

Definition screenshot_stmt (id8 : string) : string :=
  ("  await page.screenshot({ path: 'screenshots/replay-" ++ id8
     ++ ".png' });")%string.

Definition footer (id8 : string) : list string :=
  [ "  // Take final screenshot for comparison";
    screenshot_stmt id8;
    "});" ].

(** One turn of the loop over [self.actions]. *)
Definition append_action (script_lines : list string) (action : UserAction)
  : list string :=
  let script_lines :=
    if String.eqb (action_type action) "click" && truthy_opt (selector action)
    then script_lines ++ [click_stmt (fmt_opt (selector action))]
    else if String.eqb (action_type action) "input"
            && truthy_opt (selector action) && truthy_opt (value action)
    then script_lines
           ++ [fill_stmt (fmt_opt (selector action)) (fmt_opt (value action))]
    else if String.eqb (action_type action) "navigation"
            && truthy_opt (target action)
    then script_lines ++ [goto_stmt (fmt_opt (target action))]
    else script_lines in
  let script_lines := script_lines ++ [wait_stmt] in
  script_lines ++ [""].

Definition script_lines (self : ReplaySession) : result (list string) :=
  id8 <- slice8 (replay_id self) ;;
  let lines :=
    header (py_str id8) (py_str (duration self)) (py_str (url self)) in
  let lines := fold_left append_action (actions self) lines in
  Ok (lines ++ footer (py_str id8)).

Definition to_test_script (self : ReplaySession) : result string :=
  lines <- script_lines self ;;
  Ok (String.concat newline lines).

End Synth.

(** ** Script synthesizer, statement by statement

    [Synth.to_test_script] gives the script as a function of the session.
    Here the method is followed statement by statement: [script_lines] is a
    list object that the method creates and appends to, and it lives next to
    the list objects that exist when the method is called, the session lists
    of the store and other lists of lines.  On this form one can say what
    the method reads and what it writes. *)

Module SynthStore.

Record objects : Type := mkObjects {
  session_lists : heap;
  line_lists : list (list string)
}.

Definition read_lines (l : loc) (o : objects) : list string :=
  nth l (line_lists o) [].

Fixpoint write_lines (l : loc) (xs : list string) (ls : list (list string))
  : list (list string) :=
  match ls, l with
  | [], _ => []
  | _ :: ls', O => xs :: ls'
  | ys :: ls', S l' => ys :: write_lines l' xs ls'
  end.

(** Computations on the objects that may raise. *)
Definition Run (A : Type) : Type := objects -> result A * objects.

Definition unit_run {A : Type} (a : A) : Run A := fun o => (Ok a, o).

Definition bind_run {A B : Type} (m : Run A) (k : A -> Run B) : Run B :=
  fun o => match m o with
           | (Ok a, o') => k a o'
           | (Raise e, o') => (Raise e, o')
           end.

Definition lift_run {A : Type} (r : result A) : Run A := fun o => (r, o).

Notation "x <@ m ;; k" := (bind_run m (fun x => k))
  (at level 61, m at next level, right associativity).

(** A list display [[x1, ..., xn]]: a new list object. *)
Definition new_list (xs : list string) : Run loc :=
  fun o => (Ok (List.length (line_lists o)),
            mkObjects (session_lists o) (line_lists o ++ [xs])).

(** [l.append(x)]. *)
Definition append (l : loc) (x : string) : Run unit :=
  fun o => (Ok tt,
            mkObjects (session_lists o)
                      (write_lines l (read_lines l o ++ [x]) (line_lists o))).

(** [sep.join(l)]. *)
Definition join (sep : string) (l : loc) : Run string :=
  fun o => (Ok (String.concat sep (read_lines l o)), o).

Fixpoint for_each {A : Type} (body : A -> Run unit) (xs : list A)
  : Run unit :=
  match xs with
  | [] => unit_run tt
  | x :: xs' => _ <@ body x ;; for_each body xs'
  end.

(** The body of the loop over [self.actions]. *)
Definition append_action (script_lines : loc) (action : UserAction)
  : Run unit :=
  _ <@ (if String.eqb (action_type action) "click"
           && Synth.truthy_opt (selector action)
        then append script_lines
                    (Synth.click_stmt (Synth.fmt_opt (selector action)))
        else if String.eqb (action_type action) "input"
                && Synth.truthy_opt (selector action)
                && Synth.truthy_opt (value action)
        then append script_lines
                    (Synth.fill_stmt (Synth.fmt_opt (selector action))
                                     (Synth.fmt_opt (value action)))
        else if String.eqb (action_type action) "navigation"
                && Synth.truthy_opt (target action)
        then append script_lines
                    (Synth.goto_stmt (Synth.fmt_opt (target action)))
        else unit_run tt) ;;
  _ <@ append script_lines Synth.wait_stmt ;;
  append script_lines "".

(** [to_test_script]: the texts of the list display are computed first, and
    [self.replay_id[:8]] is computed again for the screenshot statement. *)
Definition to_test_script (self : ReplaySession) : Run string :=
  id8 <@ lift_run (Synth.slice8 (replay_id self)) ;;
  script_lines <@
    new_list (Synth.header (Synth.py_str id8)
                           (Synth.py_str (duration self))
                           (Synth.py_str (url self))) ;;
  _ <@ for_each (append_action script_lines) (actions self) ;;
  _ <@ append script_lines "  // Take final screenshot for comparison" ;;
  id8 <@ lift_run (Synth.slice8 (replay_id self)) ;;
  _ <@ append script_lines (Synth.screenshot_stmt (Synth.py_str id8)) ;;
  _ <@ append script_lines "});" ;;
  join Synth.newline script_lines.

End SynthStore.

(** ** Coverage aggregator *)

Module Coverage.

Record CoverageReport : Type := mkCoverageReport {
  total_sessions : nat;
  unique_urls : nat;
  unique_selectors : nat;
  url_distribution : list (pyval * nat);
  browser_distribution : list (pyval * nat);
  total_actions : nat;
  total_errors : nat
}.

(** Lists and dicts cannot be put in a [set] or used as a [Counter] key. *)
Definition hashable (v : pyval) : bool :=
  match v with
  | VList _ | VDict _ => false
  | _ => true
  end.

(** [==] on hashable values; [True == 1] and [False == 0]. *)
Definition py_eqb (a b : pyval) : bool :=
  match a, b with
  | VNone, VNone => true
  | VStr s, VStr t => String.eqb s t
  | VInt x, VInt y => x =? y
  | VInt x, VBool y => x =? Z.b2z y
  | VBool x, VInt y => Z.b2z x =? y
  | VBool x, VBool y => Bool.eqb x y
  | _, _ => false
  end.

(** [Counter(xs)] as a dict in insertion order: a key is entered when it is
    first seen and its count is incremented afterwards. *)
Fixpoint counter_add (v : pyval) (c : list (pyval * nat))
  : list (pyval * nat) :=
  match c with
  | [] => [(v, 1%nat)]
  | (k, n) :: c' =>
      if py_eqb k v then (k, S n) :: c' else (k, n) :: counter_add v c'
  end.

Definition Counter (xs : list pyval) : result (list (pyval * nat)) :=
  fold_left
    (fun acc v =>
       c <- acc ;;
       if hashable v then Ok (counter_add v c) else Raise TypeError)
    xs (Ok []).

(** [set(xs)], elements in the order they are first seen. *)
Fixpoint set_add (v : pyval) (s : list pyval) : list pyval :=
  match s with
  | [] => [v]
  | k :: s' => if py_eqb k v then k :: s' else k :: set_add v s'
  end.

Definition py_set (xs : list pyval) : result (list pyval) :=
  fold_left
    (fun acc v =>
       s <- acc ;;
       if hashable v then Ok (set_add v s) else Raise TypeError)
    xs (Ok []).

(** The selectors one session contributes: [if action.selector:] keeps the
    selectors that are neither [None] nor empty. *)
Fixpoint session_selectors (acts : list UserAction) : list string :=
  match acts with
  | [] => []
  | action :: rest =>
      match selector action with
      | Some s =>
          if negb (String.eqb s "") then s :: session_selectors rest
          else session_selectors rest
      | None => session_selectors rest
      end
  end.

(** One turn of the loop over [self.sessions]; the accumulators are
    [all_urls], [all_selectors] and [all_browsers]. *)
Definition collect_step
    (acc : list pyval * list string * list pyval) (session : ReplaySession)
  : result (list pyval * list string * list pyval) :=
  let '(all_urls, all_selectors, all_browsers) := acc in
  let all_urls := all_urls ++ [url session] in
  name <- method_get (get_default "browser" (VDict []) (metadata session))
                     "name" VNone ;;
  let all_browsers := all_browsers ++ [name] in
  let all_selectors := all_selectors ++ session_selectors (actions session) in
  Ok (all_urls, all_selectors, all_browsers).

Fixpoint collect (ss : list ReplaySession)
    (acc : list pyval * list string * list pyval)
  : result (list pyval * list string * list pyval) :=
  match ss with
  | [] => Ok acc
  | s :: ss' => acc' <- collect_step acc s ;; collect ss' acc'
  end.

Fixpoint sum_lens (f : ReplaySession -> result nat) (ss : list ReplaySession)
  : result nat :=
  match ss with
  | [] => Ok 0%nat
  | s :: ss' => n <- f s ;; m <- sum_lens f ss' ;; Ok (n + m)%nat
  end.

Definition coverage (ss : list ReplaySession) : result CoverageReport :=
  acc <- collect ss ([], [], []) ;;
  let '(all_urls, all_selectors, all_browsers) := acc in
  urls <- py_set all_urls ;;
  sels <- py_set (map VStr all_selectors) ;;
  url_dist <- Counter all_urls ;;
  browser_dist <- Counter all_browsers ;;
  n_actions <- sum_lens (fun s => Ok (List.length (actions s))) ss ;;
  n_errors <- sum_lens (fun s => py_len (errors s)) ss ;;
  Ok (mkCoverageReport (List.length ss) (List.length urls) (List.length sels)
                       url_dist browser_dist n_actions n_errors).

Definition analyze_coverage (self : ReplayAnalyzer) : M CoverageReport :=
  ss <~ load (sessions self) ;;
  lift (coverage ss).

End Coverage.

(** ** Export

    [export_for_testing] acts on the world outside the analyzer: it creates
    a directory, writes files and prints.  Each such operation is an event;
    the world keeps the events performed so far, in order.  Whether the
    environment accepts an operation is not for the program to decide: it
    is given by [sink_ok], which sees the history and the operation; a
    refused operation raises [OSError] and is taken to have no effect.  The
    text of the summary file is [json.dump] of the summary, kept here as the
    summary itself, and the reading of the clock is a parameter. *)

Module Exporter.

Record TestDigest : Type := mkTestDigest {
  digest_replay_id : pyval;
  digest_duration : pyval;
  digest_url : pyval;
  action_count : nat;
  digest_error_count : nat
}.

Record Summary : Type := mkSummary {
  generated_at : string;
  total_tests : nat;
  coverage_of : Coverage.CoverageReport;
  tests : list TestDigest
}.

Inductive file_content : Type :=
| ScriptText (text : string)
| SummaryJson (doc : Summary).

Inductive event : Type :=
| MakeDirs (path : string)
| WriteFile (path : string) (content : file_content)
| Print (line : string).

Record world : Type := mkWorld {
  heap_of : heap;
  trace : list event
}.

(** How a computation on the world ends: normally, with a Python exception
    of the analyzer, or with an [OSError] of the environment. *)
Inductive outcome (A : Type) : Type :=
| Done (a : A)
| Failed (e : exn)
| SinkFailed.
Arguments Done {A} a.
Arguments Failed {A} e.
Arguments SinkFailed {A}.

Definition IO (A : Type) : Type := world -> outcome A * world.

Definition io_ret {A : Type} (a : A) : IO A := fun w => (Done a, w).

Definition io_bind {A B : Type} (m : IO A) (k : A -> IO B) : IO B :=
  fun w => match m w with
           | (Done a, w') => k a w'
           | (Failed e, w') => (Failed e, w')
           | (SinkFailed, w') => (SinkFailed, w')
           end.

Notation "x <! m ;; k" := (io_bind m (fun x => k))
  (at level 61, m at next level, right associativity).

(** A computation on the store, run in the world. *)
Definition run {A : Type} (m : M A) : IO A :=
  fun w => match m (heap_of w) with
           | (Ok a, h') => (Done a, mkWorld h' (trace w))
           | (Raise e, h') => (Failed e, mkWorld h' (trace w))
           end.

Definition test_path (output_dir id8 : string) : string :=
  (output_dir ++ "/replay-" ++ id8 ++ ".spec.ts")%string.

Definition summary_path (output_dir : string) : string :=
  (output_dir ++ "/test-summary.json")%string.

Definition digest (s : ReplaySession) : result TestDigest :=
  n <- py_len (errors s) ;;
  Ok (mkTestDigest (replay_id s) (duration s) (url s)
                   (List.length (actions s)) n).

Fixpoint digests (selected : list ReplaySession) : result (list TestDigest) :=
  match selected with
  | [] => Ok []
  | s :: rest => d <- digest s ;; ds <- digests rest ;; Ok (d :: ds)
  end.

Section Sink.
Variable sink_ok : list event -> event -> bool.

Definition perform (ev : event) : IO unit :=
  fun w =>
    if sink_ok (trace w) ev
    then (Done tt, mkWorld (heap_of w) (trace w ++ [ev]))
    else (SinkFailed, w).

(** One turn of the loop over the selected sessions. *)
Definition export_one (output_dir : string) (session : ReplaySession)
  : IO unit :=
  test_script <! run (lift (Synth.to_test_script session)) ;;
  id8 <! run (lift (Synth.slice8 (replay_id session))) ;;
  let filename := test_path output_dir (Synth.py_str id8) in
  _ <! perform (WriteFile filename (ScriptText test_script)) ;;
  perform (Print ("Generated test: " ++ filename)%string).

Fixpoint export_each (output_dir : string) (selected : list ReplaySession)
  : IO unit :=
  match selected with
  | [] => io_ret tt
  | session :: rest =>
      _ <! export_one output_dir session ;; export_each output_dir rest
  end.

Definition export_for_testing (now : string) (self : ReplayAnalyzer)
    (output_dir : string) : IO unit :=
  _ <! perform (MakeDirs output_dir) ;;
  selected_at <! run (Selector.select_sessions_for_testing self
                        Selector.default_max_sessions
                        Selector.default_prioritize_errors
                        Selector.default_min_duration) ;;
  selected <! run (load selected_at) ;;
  _ <! export_each output_dir selected ;;
  report <! run (Coverage.analyze_coverage self) ;;
  digs <! run (lift (digests selected)) ;;
  let summary := mkSummary now (List.length selected) report digs in
  _ <! perform (WriteFile (summary_path output_dir) (SummaryJson summary)) ;;
  _ <! perform
         (Print (Synth.newline ++ "Generated "
                 ++ Synth.str_of_Z (Z.of_nat (List.length selected))
                 ++ " tests in " ++ output_dir ++ "/")%string) ;;
  perform (Print ("Summary written to " ++ summary_path output_dir)%string).

End Sink.

End Exporter.

(** ** String methods

    The methods of [str] that the client uses, on strings whose characters
    have code points below 256. *)

Module PyStr.

(** [c.isspace()]. *)
Definition is_space (c : ascii) : bool :=
  let n := nat_of_ascii c in
  ((9 <=? n) && (n <=? 13) || (28 <=? n) && (n <=? 32)
   || (n =? 133) || (n =? 160))%nat.

Fixpoint lstrip_by (p : ascii -> bool) (s : string) : string :=
  match s with
  | EmptyString => EmptyString
  | String c s' => if p c then lstrip_by p s' else s
  end.

Definition reverse (s : string) : string :=
  string_of_list_ascii (rev (list_ascii_of_string s)).

Definition rstrip_by (p : ascii -> bool) (s : string) : string :=
  reverse (lstrip_by p (reverse s)).

Definition strip_by (p : ascii -> bool) (s : string) : string :=
  rstrip_by p (lstrip_by p s).

(** [s.strip()] and [s.strip(chars)]. *)
Definition strip (s : string) : string := strip_by is_space s.

Definition strip_chars (chars s : string) : string :=
  strip_by (fun c => Synth.contains c chars) s.

(** [sub in s]. *)
Fixpoint has_sub (sub s : string) : bool :=
  prefix sub s
  || match s with
     | EmptyString => false
     | String _ s' => has_sub sub s'
     end.

(** [s.split(sep)] for a non-empty [sep]: the pieces between the
    occurrences of [sep], found from left to right without overlap.  [skip]
    counts the characters of an occurrence that are still to be passed and
    [cur] is the piece being read. *)
Fixpoint split_go (sep s : string) (skip : nat) (cur : string)
  : list string :=
  match s with
  | EmptyString => [cur]
  | String c s' =>
      match skip with
      | S k => split_go sep s' k cur
      | O =>
          if prefix sep s
          then cur :: split_go sep s' (String.length sep - 1) EmptyString
          else split_go sep s' O (cur ++ String c EmptyString)%string
      end
  end.

Definition split (sep s : string) : list string := split_go sep s O "".

End PyStr.

(** ** The Sentry client: pagination cursors *)

Module Client.

Record Pagination : Type := mkPagination {
  next : option string;
  previous : option string
}.

Definition rel_next : string :=
  ("rel=" ++ String Synth.dquote ("next" ++ String Synth.dquote ""))%string.

Definition rel_previous : string :=
  ("rel=" ++ String Synth.dquote ("previous" ++ String Synth.dquote ""))%string.

(** [url.split('cursor=')[1].split('&')[0]], taken when ['cursor=' in url]. *)
Definition cursor_of (url : string) : string :=
  nth 0 (PyStr.split "&" (nth 1 (PyStr.split "cursor=" url) "")) "".

(** One turn of the loop over the links of the header. *)
Definition parse_link (pagination : Pagination) (link : string)
  : Pagination :=
  let parts := PyStr.split ";" link in
  if negb (Nat.eqb (List.length parts) 2) then pagination
  else
    let url := PyStr.strip_chars "<>" (PyStr.strip (nth 0 parts "")) in
    let rel := PyStr.strip (nth 1 parts "") in
    if PyStr.has_sub rel_next rel
    then
      if PyStr.has_sub "cursor=" url
      then mkPagination (Some (cursor_of url)) (previous pagination)
      else pagination
    else if PyStr.has_sub rel_previous rel
    then
      if PyStr.has_sub "cursor=" url
      then mkPagination (next pagination) (Some (cursor_of url))
      else pagination
    else pagination.

Definition _parse_link_header (link_header : string) : Pagination :=
  let pagination := mkPagination None None in
  if String.eqb link_header "" then pagination
  else fold_left parse_link (PyStr.split "," link_header) pagination.

End Client.

(** ** The Sentry client: listing replays

    [requests.get] is the door to the network: it is a parameter,
    [http_get], which answers a request with a response or fails, and may
    change the state of the service.  The client state keeps the service,
    the requests sent so far and the lines printed. *)

Module Fetch.

Record SentryReplayClient : Type := mkClient {
  auth_token : string;
  org_slug : string;
  base_url : string
}.

Definition _get_headers (self : SentryReplayClient)
  : list (string * string) :=
  [ ("Authorization", ("Bearer " ++ auth_token self)%string);
    ("Content-Type", "application/json") ].

Record Request : Type := mkRequest {
  req_url : string;
  req_headers : list (string * string);
  req_params : dict
}.

(** A response: its status, its [Link] header if it has one, and its body
    read as JSON ([None] when the body is not JSON). *)
Record Response : Type := mkResponse {
  resp_status : Z;
  resp_link : option string;
  resp_json : option pyval
}.

Inductive client_exn : Type :=
| RequestError
| HTTPError (status : Z)
| JSONDecodeError
| PyError (e : exn).

Inductive cresult (A : Type) : Type :=
| COk (a : A)
| CRaise (e : client_exn).
Arguments COk {A} a.
Arguments CRaise {A} e.

(** The arguments of [list_replays] other than the cursor. *)
Record ListArgs : Type := mkListArgs {
  arg_project : option (list Z);
  arg_environment : option string;
  arg_stats_period : string;
  arg_start : option string;
  arg_end : option string;
  arg_query : option string;
  arg_sort : option string;
  arg_per_page : Z;
  arg_fields : option (list string)
}.

Definition opt_list_truthy {A : Type} (o : option (list A)) : bool :=
  match o with
  | Some (_ :: _) => true
  | _ => false
  end.

Definition opt_text (o : option string) : pyval :=
  match o with Some x => VStr x | None => VNone end.

Definition set_if (cond : bool) (k : string) (v : pyval) (params : dict)
  : dict :=
  if cond then params ++ [(k, v)] else params.

(** The query parameters [list_replays] sends. *)
Definition build_params (args : ListArgs) (cursor : option string) : dict :=
  let params :=
    if Synth.truthy_opt (arg_start args) && Synth.truthy_opt (arg_end args)
    then [("start", opt_text (arg_start args));
          ("end", opt_text (arg_end args))]
    else [("statsPeriod", VStr (arg_stats_period args))] in
  let params :=
    set_if (opt_list_truthy (arg_project args)) "project"
           (match arg_project args with
            | Some l => VList (map VInt l)
            | None => VNone
            end) params in
  let params :=
    set_if (Synth.truthy_opt (arg_environment args)) "environment"
           (opt_text (arg_environment args)) params in
  let params :=
    set_if (Synth.truthy_opt (arg_query args)) "query"
           (opt_text (arg_query args)) params in
  let params :=
    set_if (Synth.truthy_opt (arg_sort args)) "sort"
           (opt_text (arg_sort args)) params in
  let params := params ++ [("per_page", VInt (arg_per_page args))] in
  let params :=
    set_if (Synth.truthy_opt cursor) "cursor" (opt_text cursor) params in
  set_if (opt_list_truthy (arg_fields args)) "field"
         (match arg_fields args with
          | Some l => VList (map VStr l)
          | None => VNone
          end) params.

(** [response.raise_for_status()]. *)
Definition raise_for_status (response : Response) : cresult unit :=
  if (400 <=? resp_status response) && (resp_status response <? 600)
  then CRaise (HTTPError (resp_status response))
  else COk tt.

Section Http.
Variable Srv : Type.
Variable http_get : Request -> Srv -> option Response * Srv.

Record cstate : Type := mkCstate {
  cs_srv : Srv;
  cs_sent : list Request;
  cs_out : list string
}.

Definition C (A : Type) : Type := cstate -> cresult A * cstate.

Definition c_ret {A : Type} (a : A) : C A := fun st => (COk a, st).

Definition c_bind {A B : Type} (m : C A) (k : A -> C B) : C B :=
  fun st => match m st with
            | (COk a, st') => k a st'
            | (CRaise e, st') => (CRaise e, st')
            end.

Definition c_lift {A : Type} (r : cresult A) : C A := fun st => (r, st).

Definition send (req : Request) : C Response :=
  fun st =>
    let (answer, srv') := http_get req (cs_srv st) in
    let st' := mkCstate srv' (cs_sent st ++ [req]) (cs_out st) in
    match answer with
    | Some response => (COk response, st')
    | None => (CRaise RequestError, st')
    end.

Definition c_print (line : string) : C unit :=
  fun st => (COk tt, mkCstate (cs_srv st) (cs_sent st) (cs_out st ++ [line])).

Definition list_replays (self : SentryReplayClient) (args : ListArgs)
    (cursor : option string) : C (pyval * Client.Pagination) :=
  let url :=
    (base_url self ++ "/organizations/" ++ org_slug self ++ "/replays/")%string
  in
  let params := build_params args cursor in
  c_bind (send (mkRequest url (_get_headers self) params)) (fun response =>
  c_bind (c_lift (raise_for_status response)) (fun _ =>
  let link_header :=
    match resp_link response with Some l => l | None => "" end in
  let pagination := Client._parse_link_header link_header in
  c_bind (c_lift (match resp_json response with
                  | Some v => COk v
                  | None => CRaise JSONDecodeError
                  end)) (fun data =>
  c_ret (data, pagination)))).

(** The loop of [fetch_all_replays]: [pages_left] turns remain, [page] is
    the loop variable. *)
Fixpoint fetch_pages (self : SentryReplayClient) (args : ListArgs)
    (pages_left : nat) (page : Z) (cursor : option string)
    (all_replays : list pyval) : C (list pyval) :=
  match pages_left with
  | O => c_ret all_replays
  | S n =>
      c_bind (list_replays self args cursor) (fun result =>
      let replays := fst result in
      if negb (truthy replays) then c_ret all_replays
      else
        c_bind (c_lift (match iterate replays with
                        | Ok items => COk items
                        | Raise e => CRaise (PyError e)
                        end)) (fun items =>
        let all_replays := all_replays ++ items in
        let next_cursor := Client.next (snd result) in
        if negb (Synth.truthy_opt next_cursor) then c_ret all_replays
        else
          c_bind (c_print
                    ("Fetched page " ++ Synth.str_of_Z (page + 1)
                     ++ ", total replays: "
                     ++ Synth.str_of_Z (Z.of_nat (List.length all_replays)))
                    %string) (fun _ =>
          fetch_pages self args n (page + 1) next_cursor all_replays)))
  end.

Definition fetch_all_replays (self : SentryReplayClient) (max_pages : Z)
    (args : ListArgs) : C (list pyval) :=
  fetch_pages self args (Z.to_nat max_pages) 0 None [].

End Http.

End Fetch.

(** ** Vocabulary of the statements *)

Import Normalizer Selector Synth Coverage Exporter PyStr Client Fetch.

Definition is_string (v : pyval) : bool :=
  match v with VStr _ => true | _ => false end.

Definition is_integer (v : pyval) : bool :=
  match v with VInt _ | VBool _ => true | _ => false end.

Definition is_list (v : pyval) : bool :=
  match v with VList _ => true | _ => false end.

(** The fields of a session hold values of the types the dataclass declares
    for them. *)
Definition well_typed (s : ReplaySession) : bool :=
  is_string (replay_id s) && is_integer (duration s) && is_string (url s)
  && is_list (errors s).

(** Duration and error count of a well-typed session. *)
Definition dur (s : ReplaySession) : Z :=
  match as_int (duration s) with Ok z => z | Raise _ => 0 end.

Definition error_count (s : ReplaySession) : nat :=
  match py_len (errors s) with Ok n => n | Raise _ => 0%nat end.

Definition placeholder_url : pyval := VStr "https://example.com".

(** The record has no usable [urls] list: the field is absent or empty. *)
Definition no_urls (raw : dict) : Prop :=
  dict_get "urls" raw = None \/ dict_get "urls" raw = Some (VList []).

(** A tag entry that is a mapping whose [key] is not ["url"]. *)
Definition other_tag (tag : pyval) : bool :=
  match tag with
  | VDict d => negb (is_str "url" (get_default "key" VNone d))
  | _ => false
  end.

Definition is_mapping (v : pyval) : bool :=
  match v with VDict _ => true | _ => false end.

(** The three fields the normalizer takes apart have the shape it expects
    when they are present: [urls] and [error_ids] are lists, [tags] is a list
    of mappings.  Nothing is asked of any other field. *)
Definition well_shaped (raw : dict) : bool :=
  match dict_get "urls" raw with
  | None => true
  | Some u => is_list u
  end
  && match dict_get "tags" raw with
     | None => true
     | Some (VList l) => forallb is_mapping l
     | Some _ => false
     end
  && match dict_get "error_ids" raw with
     | None => true
     | Some e => is_list e
     end.

(** The session [analyze_replay] builds from a record whose url and errors
    were extracted as [u] and [e]. *)
Definition session_of (raw : dict) (u e : pyval) : ReplaySession :=
  mkReplaySession (get_default "id" (VStr "unknown") raw)
                  (get_default "duration" (VInt 0) raw)
                  u (_extract_actions raw) (_extract_network_requests raw)
                  e (build_metadata raw).

(** Raw records of the examples. *)
Definition raw_urls_and_url : dict :=
  [("urls", VList [VStr "A"]); ("url", VStr "B")].

Definition raw_url_and_tag : dict :=
  [("url", VStr "B");
   ("tags", VList [VDict [("key", VStr "url"); ("value", VStr "C")]])].

Definition raw_tag_without_value : dict :=
  [("tags", VList [VDict [("key", VStr "env"); ("value", VStr "prod")];
                   VDict [("key", VStr "url")]])].

(** Two url tags, the first with a value and the second without. *)
Definition raw_url_tag_twice : dict :=
  [("tags", VList [VDict [("key", VStr "url"); ("value", VStr "C")];
                   VDict [("key", VStr "url")]])].

(** Null, a boolean or a number: a value that has no elements, no items and
    no methods of a mapping. *)
Definition is_scalar (v : pyval) : bool :=
  match v with
  | VNone | VBool _ | VInt _ => true
  | _ => false
  end.

Definition raw_urls_number : dict := [("urls", VInt 5)].
Definition raw_tags_null : dict := [("tags", VNone)].
Definition raw_tags_strings : dict := [("tags", VList [VStr "url"])].
Definition raw_error_ids_number : dict := [("error_ids", VInt 7)].

(** On keyed elements: [x] is not below [y], and two keys compare equal,
    for the strict order [ltb] a sort uses. *)
Definition not_below {K A : Type} (ltb : K -> K -> bool) (x y : K * A)
  : Prop :=
  ltb (fst x) (fst y) = false.

Definition eqv {K : Type} (ltb : K -> K -> bool) (a b : K) : bool :=
  negb (ltb a b) && negb (ltb b a).

(** A list of sessions sorted by [key] the way [list.sort] with
    [reverse=True] leaves it. *)
Definition keyed {K : Type} (key : ReplaySession -> K)
    (l : list ReplaySession) : list (K * ReplaySession) :=
  map (fun s => (key s, s)) l.

Definition sorted_by {K : Type} (key : ReplaySession -> K)
    (ltb : K -> K -> bool) (l : list ReplaySession) : list ReplaySession :=
  map snd (sort_desc ltb (keyed key l)).

Definition pair_key (s : ReplaySession) : Z * Z :=
  (Z.of_nat (error_count s), dur s).

(** [a] may stand before [b] in the ranking: descending by the pair
    (error count, duration) when errors are prioritized, by duration alone
    otherwise. *)
Definition rank_ge (prioritize_errors : bool) (a b : ReplaySession) : Prop :=
  if prioritize_errors
  then (error_count b < error_count a)%nat
       \/ (error_count a = error_count b /\ dur b <= dur a)
  else dur b <= dur a.

(** [a] and [b] have equal sort keys. *)
Definition same_rank (prioritize_errors : bool) (a b : ReplaySession) : bool :=
  if prioritize_errors
  then Nat.eqb (error_count a) (error_count b) && (dur a =? dur b)
  else dur a =? dur b.

Definition long_enough (min_duration : Z) (s : ReplaySession) : bool :=
  min_duration <=? dur s.

(** A session with the given id, duration and number of errors. *)
Definition session_with (id : string) (d : Z) (n_errors : nat)
  : ReplaySession :=
  mkReplaySession (VStr id) (VInt d) (VStr "https://example.com") [] []
                  (VList (repeat (VDict []) n_errors)) [].

(** The sessions of the tie-break example: durations 500, 2000, 1500, 2000
    and error counts 0, 2, 2, 2. *)
Definition tie_break_sessions : list ReplaySession :=
  [ session_with "s0" 500 0; session_with "s1" 2000 2;
    session_with "s2" 1500 2; session_with "s3" 2000 2 ].

(** The selector asked for [-1] sessions, errors first, at least one second
    long, over a store that holds the tie-break sessions at address 0. *)
Definition negative_max_run : result loc * heap :=
  select_sessions_for_testing (mkReplayAnalyzer 0%nat) (-1) true 1000
                              [tie_break_sessions].

(** The lines one action adds to the script. *)
Definition action_lines (a : UserAction) : list string := append_action [] a.

(** The fields of a session the synthesizer reads. *)
Definition rendered_fields (a : UserAction)
  : string * option string * option string * option string :=
  (action_type a, selector a, value a, target a).

Definition same_rendered_fields (s1 s2 : ReplaySession) : Prop :=
  replay_id s1 = replay_id s2
  /\ duration s1 = duration s2
  /\ url s1 = url s2
  /\ map rendered_fields (actions s1) = map rendered_fields (actions s2).

(** A session whose only action is a click without selector; and the same
    session with other network requests, errors, metadata and click
    coordinates, which the synthesizer does not read. *)
Definition click_without_selector : ReplaySession :=
  mkReplaySession (VStr "abc123def456") (VInt 45000)
                  (VStr "https://example.com/app")
                  [mkUserAction 120 "click" None None None None]
                  [] (VList []) [].

Definition click_without_selector' : ReplaySession :=
  mkReplaySession (VStr "abc123def456") (VInt 45000)
                  (VStr "https://example.com/app")
                  [mkUserAction 990 "click" None None None
                                (Some [("x", 10); ("y", 20)])]
                  [mkNetworkRequest 5 "GET" "https://example.com/api"
                                    (Some 200) None None]
                  (VList [VDict [("id", VStr "e1")]])
                  [("browser", VDict [("name", VStr "Chrome")])].

(** The url of a well-typed session, as text. *)
Definition url_text (s : ReplaySession) : string := py_str (url s).

(** [metadata.browser.name] of a session whose [browser] entry is absent or
    a mapping; [None] when there is no name. *)
Definition browser_name (s : ReplaySession) : pyval :=
  match dict_get "browser" (metadata s) with
  | Some (VDict b) => get_default "name" VNone b
  | _ => VNone
  end.

(** The [browser] entry of the metadata is absent or a mapping, and its
    name, if any, can be a key of a distribution. *)
Definition browser_ok (s : ReplaySession) : bool :=
  match dict_get "browser" (metadata s) with
  | None => true
  | Some (VDict b) => hashable (get_default "name" VNone b)
  | Some _ => false
  end.

(** The count a distribution gives for [k], and the number of times [k]
    occurs in a list. *)
Fixpoint count_of (k : pyval) (c : list (pyval * nat)) : nat :=
  match c with
  | [] => 0%nat
  | (k', n) :: c' => if py_eqb k' k then n else count_of k c'
  end.

Definition occurrences (k : pyval) (xs : list pyval) : nat :=
  List.length (filter (fun v => py_eqb v k) xs).

(** All selector fields of all actions of all sessions; the values among
    them that are not null; the strings among those that are not empty. *)
Definition selectors_of (ss : list ReplaySession) : list (option string) :=
  flat_map (fun s => map selector (actions s)) ss.

Definition non_null (l : list (option string)) : list string :=
  flat_map (fun o => match o with Some x => [x] | None => [] end) l.

Definition non_empty (l : list string) : list string :=
  filter (fun x => negb (String.eqb x "")) l.

(** Cardinality of the set of the elements of a list. *)
Definition cardinality (l : list string) : nat :=
  List.length (nodup string_dec l).

Definition action_on (sel : option string) : UserAction :=
  mkUserAction 0 "click" sel None None None.

Definition session_at (u : string) (sels : list (option string))
  : ReplaySession :=
  mkReplaySession (VStr "unknown") (VInt 0) (VStr u) (map action_on sels)
                  [] (VList []) [].

(** The sessions of the coverage example: urls X, X, Y and selector lists
    [a], [a, b], []. *)
Definition coverage_example : list ReplaySession :=
  [ session_at "X" [Some "a"]; session_at "X" [Some "a"; Some "b"];
    session_at "Y" [] ].

(** One session whose only action has the empty string as selector. *)
Definition empty_selector_session : ReplaySession :=
  session_at "X" [Some ""].

(** The record analyzed in [main]. *)
Definition sample_replay : dict :=
  [ ("id", VStr "abc123def456");
    ("duration", VInt 45000);
    ("url", VStr "https://example.com/app");
    ("user", VDict [("email", VStr "user@example.com")]);
    ("browser", VDict [("name", VStr "Chrome"); ("version", VStr "120.0")]);
    ("os", VDict [("name", VStr "macOS"); ("version", VStr "14.0")]);
    ("error_count", VInt 2);
    ("errors",
     VList [VDict [("message", VStr "TypeError: Cannot read property X")];
            VDict [("message", VStr "NetworkError: Failed to fetch")]]) ].

(** [main] up to the coverage analysis: a new analyzer, one replay
    analyzed, then the coverage report and a selection with the default
    parameters. *)
Definition main_run : M (ReplaySession * CoverageReport * loc) :=
  analyzer <~ init ;;
  session <~ analyze_replay analyzer sample_replay ;;
  coverage <~ analyze_coverage analyzer ;;
  selected <~ select_sessions_for_testing analyzer default_max_sessions
                default_prioritize_errors default_min_duration ;;
  ret (session, coverage, selected).

(** The ranking of the sessions of a collection that last long enough. *)
Definition ranking (prioritize_errors : bool) (min_duration : Z)
    (ss : list ReplaySession) : list ReplaySession :=
  if prioritize_errors
  then sorted_by pair_key lex_ltb (filter (long_enough min_duration) ss)
  else sorted_by dur Z.ltb (filter (long_enough min_duration) ss).

(** The duration can be compared with an integer; the errors have a length. *)
Definition int_duration (s : ReplaySession) : bool :=
  is_integer (duration s).

Definition sized_errors (s : ReplaySession) : bool :=
  match py_len (errors s) with Ok _ => true | Raise _ => false end.

(** The metadata of the session has a [browser] entry that is not a
    mapping. *)
Definition bad_browser (s : ReplaySession) : bool :=
  match dict_get "browser" (metadata s) with
  | None | Some (VDict _) => false
  | Some _ => true
  end.

(** The steps of the folds behind [set(xs)] and [Counter(xs)]. *)
Definition set_step (acc : result (list pyval)) (v : pyval)
  : result (list pyval) :=
  s <- acc ;; if hashable v then Ok (set_add v s) else Raise TypeError.

Definition counter_step (acc : result (list (pyval * nat))) (v : pyval)
  : result (list (pyval * nat)) :=
  c <- acc ;; if hashable v then Ok (counter_add v c) else Raise TypeError.

(** An environment that accepts every operation. *)
Definition accepting (history : list event) (ev : event) : bool := true.

(** The script of a session and the identifier prefix used in its names,
    for a session that can be rendered. *)
Definition script_text (s : ReplaySession) : string :=
  match to_test_script s with Ok t => t | Raise _ => "" end.

Definition id8_text (s : ReplaySession) : string :=
  match slice8 (replay_id s) with Ok v => py_str v | Raise _ => "" end.

Definition sliceable_id (s : ReplaySession) : bool :=
  is_string (replay_id s) || is_list (replay_id s).

(** The events of the export of one session, and the closing events. *)
Definition script_events (output_dir : string) (s : ReplaySession)
  : list event :=
  [ WriteFile (test_path output_dir (id8_text s)) (ScriptText (script_text s));
    Print ("Generated test: " ++ test_path output_dir (id8_text s))%string ].

Definition summary_events (output_dir : string) (doc : Summary)
  : list event :=
  [ WriteFile (summary_path output_dir) (SummaryJson doc);
    Print (newline ++ "Generated "
           ++ str_of_Z (Z.of_nat (total_tests doc))
           ++ " tests in " ++ output_dir ++ "/")%string;
    Print ("Summary written to " ++ summary_path output_dir)%string ].

(** What a history leaves at a path: the content of the last write to it. *)
Fixpoint file_at (path : string) (history : list event)
  : option file_content :=
  match history with
  | [] => None
  | ev :: rest =>
      match file_at path rest with
      | Some c => Some c
      | None =>
          match ev with
          | WriteFile p c => if String.eqb p path then Some c else None
          | _ => None
          end
      end
  end.

(** The world [w'] comes after [w]: list objects and events were added,
    none was removed or changed. *)
Definition grows (w w' : world) : Prop :=
  (exists ext, heap_of w' = heap_of w ++ ext)
  /\ (exists evs, trace w' = trace w ++ evs).

(** A computation that only lets the world grow, whatever its outcome. *)
Definition growing {A : Type} (m : IO A) : Prop :=
  forall w, grows w (snd (m w)).

(** The digest of a session whose errors have a length. *)
Definition digest_of (s : ReplaySession) : TestDigest :=
  mkTestDigest (replay_id s) (duration s) (url s) (List.length (actions s))
               (error_count s).

(** The last part of [export_for_testing]: the summary is built, written
    and announced. *)
Definition write_summary (sink_ok : list event -> event -> bool)
    (now : string) (self : ReplayAnalyzer) (output_dir : string)
    (selected : list ReplaySession) : IO unit :=
  report <! run (analyze_coverage self) ;;
  digs <! run (lift (digests selected)) ;;
  let summary := mkSummary now (List.length selected) report digs in
  _ <! perform sink_ok
         (WriteFile (summary_path output_dir) (SummaryJson summary)) ;;
  _ <! perform sink_ok
         (Print (newline ++ "Generated "
                 ++ str_of_Z (Z.of_nat (List.length selected))
                 ++ " tests in " ++ output_dir ++ "/")%string) ;;
  perform sink_ok
    (Print ("Summary written to " ++ summary_path output_dir)%string).

(** The sessions [export_for_testing] selects: the default selection. *)
Definition default_selection (ss : list ReplaySession) : list ReplaySession :=
  slice_to default_max_sessions
           (ranking default_prioritize_errors default_min_duration ss).

(** [analyze_replay] called on each record of a list in turn, as a caller
    that feeds a page of records to an analyzer does; the sessions returned
    are collected in call order. *)
Fixpoint analyze_each (self : ReplayAnalyzer) (raws : list dict)
  : M (list ReplaySession) :=
  match raws with
  | [] => ret []
  | raw :: rest =>
      s <~ analyze_replay self raw ;;
      ss <~ analyze_each self rest ;;
      ret (s :: ss)
  end.

(** The number of occurrences of a character in a string. *)
Fixpoint count_char (c : ascii) (s : string) : nat :=
  match s with
  | EmptyString => 0%nat
  | String x s' => if Ascii.eqb x c then S (count_char c s') else count_char c s'
  end.

(** Characters that may stand in the address and in the cursor of a link
    without being taken for punctuation of the header. *)
Definition plain_char (c : ascii) : bool :=
  negb (is_space c) && negb (contains c ",;&<>=").

Definition plain (s : string) : bool :=
  forallb plain_char (list_ascii_of_string s).

(** A link of a [Link] header: an address that carries a cursor, and a
    relation. *)
Definition link_text (base cursor rel : string) : string :=
  ("<" ++ base ++ "?cursor=" ++ cursor ++ ">; " ++ rel)%string.

(** One more character of a string compared with a pattern by [prefix]. *)
Ltac next_char a x :=
  destruct a as [|x a]; [reflexivity|];
  cbn [append prefix];
  match goal with
  | |- context [ascii_dec ?c x] =>
      destruct (ascii_dec c x) as [<-|]; [|reflexivity]
  end.

(** A service that answers from a script: one response for each request,
    in turn, and a failed request once the script is over. *)
Definition scripted (req : Request) (script : list Response)
  : option Response * list Response :=
  match script with
  | [] => (None, [])
  | response :: rest => (Some response, rest)
  end.

(** The address [list_replays] asks, and the request it sends for a
    cursor. *)
Definition replays_url (self : SentryReplayClient) : string :=
  (base_url self ++ "/organizations/" ++ org_slug self ++ "/replays/")%string.

Definition page_request (self : SentryReplayClient) (args : ListArgs)
    (cursor : option string) : Request :=
  mkRequest (replays_url self) (_get_headers self) (build_params args cursor).

(** A page of replays with the cursor of the page after it, and the
    response that carries it; the response of a last page, which has no
    [Link] header. *)
Definition page_response (base : string) (page : list pyval * string)
  : Response :=
  mkResponse 200 (Some (link_text base (snd page) rel_next))
             (Some (VList (fst page))).

Definition last_response (final : list pyval) : Response :=
  mkResponse 200 None (Some (VList final)).

Definition full_page (page : list pyval * string) : bool :=
  truthy (VList (fst page)) && plain (snd page)
  && negb (String.eqb (snd page) "").

(** The state a call leaves, and its result. *)
Definition fetch_result {Srv : Type}
    (run : cresult (list pyval) * cstate Srv) : cresult (list pyval) :=
  fst run.

Definition fetch_state {Srv : Type}
    (run : cresult (list pyval) * cstate Srv) : cstate Srv :=
  snd run.

Definition same_endpoint (self : SentryReplayClient) (req : Request) : Prop :=
  req_url req = replays_url self /\ req_headers req = _get_headers self.

(** The lines of a text, [text.split("\n")], and a text without line
    break. *)
Definition text_lines (text : string) : list string := split newline text.

Definition one_line (t : string) : bool := negb (contains "010"%char t).

(** The texts of a session that the synthesizer prints: the first 8
    characters of the identifier, the duration and the url, and the
    selector, value and target of every action. *)
Definition action_texts (a : UserAction) : list string :=
  [fmt_opt (selector a); fmt_opt (value a); fmt_opt (target a)].

Definition printed_texts (s : ReplaySession) (id8 : pyval) : list string :=
  py_str id8 :: py_str (duration s) :: py_str (url s)
  :: flat_map action_texts (actions s).

(** The actions that get a statement: a click on [sel], an input of [val]
    in [sel], a navigation to [tgt], where the texts are not empty; and
    every other action. *)
Definition click_shape (a : UserAction) (sel : string) : Prop :=
  action_type a = "click" /\ selector a = Some sel /\ sel <> "".

Definition fill_shape (a : UserAction) (sel val : string) : Prop :=
  action_type a = "input"
  /\ selector a = Some sel /\ sel <> ""
  /\ value a = Some val /\ val <> "".

Definition goto_shape (a : UserAction) (tgt : string) : Prop :=
  action_type a = "navigation" /\ target a = Some tgt /\ tgt <> "".

Definition no_shape (a : UserAction) : Prop :=
  (forall sel, ~ click_shape a sel)
  /\ (forall sel val, ~ fill_shape a sel val)
  /\ (forall tgt, ~ goto_shape a tgt).

(** A session whose only action is a click with the empty string as
    selector; a session without actions whose url holds a line break
    followed by the text of the wait statement. *)
Definition click_empty_selector : ReplaySession :=
  mkReplaySession (VStr "abc123def456") (VInt 45000)
                  (VStr "https://example.com/app")
                  [mkUserAction 120 "click" (Some "") None None None]
                  [] (VList []) [].

Definition url_with_line_break : ReplaySession :=
  mkReplaySession (VStr "abc123def456") (VInt 45000)
                  (VStr ("https://example.com/app" ++ newline ++ wait_stmt))
                  [] [] (VList []) [].

(** Case analysis on the tests of one turn of the action loop. *)
Ltac split_action a :=
  unfold action_lines, append_action;
  destruct (selector a) as [?sel|] eqn:?Hsel;
  destruct (value a) as [?val|] eqn:?Hval;
  destruct (target a) as [?tgt|] eqn:?Htgt;
  cbn [truthy_opt fmt_opt];
  repeat match goal with
         | |- context [String.eqb ?x ?y] =>
             destruct (String.eqb_spec x y)
         end;
  cbn [andb negb app].

(** ** The normalizer: facts *)

Lemma analyze_replay_unfold (self : ReplayAnalyzer) (raw : dict) (h : heap) :
  analyze_replay self raw h =
  match _extract_url raw with
  | Raise e => (Raise e, h)
  | Ok u =>
      match _extract_errors raw with
      | Raise e => (Raise e, h)
      | Ok er =>
          (Ok (session_of raw u er),
           write (sessions self)
                 (read (sessions self) h ++ [session_of raw u er]) h)
      end
  end.
Proof.
  unfold analyze_replay, mbind, lift, load, store, ret.
  destruct (_extract_url raw) as [u|e]; [|reflexivity].
  destruct (_extract_errors raw) as [er|e]; reflexivity.
Qed.

Lemma find_url_tag_skip (pre rest : list pyval) :
  forallb other_tag pre = true ->
  find_url_tag (pre ++ rest) = find_url_tag rest.
Proof.
  induction pre as [|tag pre IH]; intros Hpre; [reflexivity|].
  simpl in Hpre. apply andb_true_iff in Hpre as [Htag Hpre].
  destruct tag as [| | | | |d]; try discriminate Htag.
  simpl in *. apply negb_true_iff in Htag. rewrite Htag. auto.
Qed.

Lemma find_url_tag_none (l : list pyval) :
  forallb other_tag l = true -> find_url_tag l = Ok None.
Proof.
  intros Hl. rewrite <- (app_nil_r l). now rewrite find_url_tag_skip.
Qed.

Lemma find_url_tag_mappings (l : list pyval) :
  forallb is_mapping l = true -> exists r, find_url_tag l = Ok r.
Proof.
  induction l as [|tag l IH]; intros Hl; [now exists None|].
  simpl in Hl. apply andb_true_iff in Hl as [Htag Hl].
  destruct tag as [| | | | |d]; try discriminate Htag.
  simpl. destruct (is_str "url" (get_default "key" VNone d)); eauto.
Qed.

Lemma no_urls_has_urls (raw : dict) : no_urls raw -> has_urls raw = false.
Proof. unfold has_urls. now intros [-> | ->]. Qed.

Lemma extract_url_first_of_urls (raw : dict) (u : pyval) (rest : list pyval) :
  dict_get "urls" raw = Some (VList (u :: rest)) -> _extract_url raw = Ok u.
Proof.
  intros H. unfold _extract_url, has_urls, get_default. now rewrite H.
Qed.

Lemma extract_url_scalar (raw : dict) (u : pyval) :
  no_urls raw -> dict_get "url" raw = Some u -> _extract_url raw = Ok u.
Proof.
  intros Hn Hu. unfold _extract_url.
  now rewrite (no_urls_has_urls raw Hn), Hu.
Qed.

Lemma extract_url_from_tag (raw : dict) (pre post : list pyval) (tag : dict) :
  no_urls raw -> dict_get "url" raw = None ->
  dict_get "tags" raw = Some (VList (pre ++ VDict tag :: post)) ->
  forallb other_tag pre = true ->
  dict_get "key" tag = Some (VStr "url") ->
  _extract_url raw = Ok (get_default "value" (VStr "") tag).
Proof.
  intros Hn Hu Ht Hpre Hk. unfold _extract_url.
  rewrite (no_urls_has_urls raw Hn), Hu, Ht. simpl.
  rewrite (find_url_tag_skip pre _ Hpre). simpl.
  unfold get_default at 1. now rewrite Hk.
Qed.

Lemma extract_url_placeholder (raw : dict) :
  no_urls raw -> dict_get "url" raw = None ->
  (dict_get "tags" raw = None \/
   exists l, dict_get "tags" raw = Some (VList l)
             /\ forallb other_tag l = true) ->
  _extract_url raw = Ok placeholder_url.
Proof.
  intros Hn Hu Ht. unfold _extract_url.
  rewrite (no_urls_has_urls raw Hn), Hu.
  destruct Ht as [-> | [l [-> Hl]]]; [reflexivity|].
  simpl. now rewrite (find_url_tag_none l Hl).
Qed.

Lemma analyze_replay_session (self : ReplayAnalyzer) (raw : dict) (h : heap)
    (u e : pyval) :
  _extract_url raw = Ok u -> _extract_errors raw = Ok e ->
  fst (analyze_replay self raw h) = Ok (session_of raw u e).
Proof.
  intros Hu He. now rewrite analyze_replay_unfold, Hu, He.
Qed.

Lemma analyze_replay_url (self : ReplayAnalyzer) (raw : dict) (h : heap)
    (s : ReplaySession) :
  fst (analyze_replay self raw h) = Ok s -> _extract_url raw = Ok (url s).
Proof.
  rewrite analyze_replay_unfold.
  destruct (_extract_url raw) as [u|e]; [|discriminate].
  destruct (_extract_errors raw) as [er|e]; [|discriminate].
  simpl. now intros [= <-].
Qed.

(** C5. The url of a normalized session is found by a chain in which the
    first match wins: the first element of a non-empty [urls] list; else the
    [url] field when the key is present; else the value of the first [tags]
    entry whose key is ["url"]; else the placeholder.  A record with
    [urls: ["A"]] and [url: "B"] gets url ["A"]; a record with [url: "B"] and
    a url tag of value ["C"] gets url ["B"]. *)
Theorem extract_url_fallback_chain (raw : dict) :
  (forall u rest,
      dict_get "urls" raw = Some (VList (u :: rest)) ->
      _extract_url raw = Ok u)
  /\ (forall u,
         no_urls raw -> dict_get "url" raw = Some u ->
         _extract_url raw = Ok u)
  /\ (forall pre tag post v,
         no_urls raw -> dict_get "url" raw = None ->
         dict_get "tags" raw = Some (VList (pre ++ VDict tag :: post)) ->
         forallb other_tag pre = true ->
         dict_get "key" tag = Some (VStr "url") ->
         dict_get "value" tag = Some v ->
         _extract_url raw = Ok v)
  /\ (no_urls raw -> dict_get "url" raw = None ->
      (dict_get "tags" raw = None \/
       exists l, dict_get "tags" raw = Some (VList l)
                 /\ forallb other_tag l = true) ->
      _extract_url raw = Ok placeholder_url)
  /\ (forall self h s,
         fst (analyze_replay self raw h) = Ok s ->
         _extract_url raw = Ok (url s))
  /\ (forall self h, exists s,
         fst (analyze_replay self raw_urls_and_url h) = Ok s
         /\ url s = VStr "A")
  /\ (forall self h, exists s,
         fst (analyze_replay self raw_url_and_tag h) = Ok s
         /\ url s = VStr "B").
Proof.
  split; [apply extract_url_first_of_urls|].
  split; [intros u Hn Hu; now apply extract_url_scalar|].
  split.
  { intros pre tag post v Hn Hu Ht Hpre Hk Hv.
    rewrite (extract_url_from_tag raw pre post tag Hn Hu Ht Hpre Hk).
    unfold get_default. now rewrite Hv. }
  split; [apply extract_url_placeholder|].
  split; [intros self h s; apply analyze_replay_url|].
  split; intros self h; eexists; split; reflexivity.
Qed.

Lemma extract_url_fallback_chain_witness :
  _extract_url raw_url_and_tag = Ok (VStr "B").
Proof.
  apply (proj1 (proj2 (extract_url_fallback_chain raw_url_and_tag))).
  - left. reflexivity.
  - reflexivity.
Defined.

(** C6. Normalizing an empty mapping gives a session with replay_id
    ["unknown"], duration 0, url ["https://example.com"] and empty actions,
    network requests and errors. *)
Theorem analyze_replay_empty_mapping (self : ReplayAnalyzer) (h : heap) :
  exists s,
    fst (analyze_replay self [] h) = Ok s
    /\ replay_id s = VStr "unknown"
    /\ duration s = VInt 0
    /\ url s = VStr "https://example.com"
    /\ actions s = []
    /\ network_requests s = []
    /\ errors s = VList [].
Proof.
  eexists. split; [reflexivity|]. repeat split.
Qed.

(** C7, as stated, fails: a record whose [urls] is a number, whose [tags] is
    null or a list of strings, or whose [error_ids] is a number makes the
    normalizer raise. *)
Lemma analyze_replay_wrong_type_raises :
  fst (analyze_replay (mkReplayAnalyzer 0%nat) raw_urls_number [[]])
    = Raise TypeError
  /\ fst (analyze_replay (mkReplayAnalyzer 0%nat) raw_tags_null [[]])
    = Raise TypeError
  /\ fst (analyze_replay (mkReplayAnalyzer 0%nat) raw_tags_strings [[]])
    = Raise AttributeError
  /\ fst (analyze_replay (mkReplayAnalyzer 0%nat) raw_error_ids_number [[]])
    = Raise TypeError.
Proof. repeat split. Qed.

Lemma extract_url_shaped (raw : dict) :
  well_shaped raw = true -> exists u, _extract_url raw = Ok u.
Proof.
  unfold well_shaped. intros H.
  apply andb_true_iff in H as [H _]. apply andb_true_iff in H as [Hu Ht].
  unfold _extract_url, has_urls, get_default.
  destruct (dict_get "urls" raw) as [u|].
  - destruct u as [| | | |l|]; try discriminate Hu.
    destruct l as [|x l]; simpl; [|eauto].
    destruct (dict_get "url" raw) as [v|]; [eauto|].
    destruct (dict_get "tags" raw) as [t|]; [|eauto].
    destruct t as [| | | |tl|]; try discriminate Ht. simpl.
    destruct (find_url_tag_mappings tl Ht) as [[v|] ->]; simpl; eauto.
  - destruct (dict_get "url" raw) as [v|]; [eauto|].
    destruct (dict_get "tags" raw) as [t|]; [|eauto].
    destruct t as [| | | |tl|]; try discriminate Ht. simpl.
    destruct (find_url_tag_mappings tl Ht) as [[v|] ->]; simpl; eauto.
Qed.

Lemma extract_errors_shaped (raw : dict) :
  well_shaped raw = true -> exists e, _extract_errors raw = Ok e.
Proof.
  unfold well_shaped. intros H. apply andb_true_iff in H as [_ He].
  unfold _extract_errors.
  destruct (dict_get "errors" raw) as [e|]; [eauto|].
  destruct (dict_get "error_ids" raw) as [ids|]; [|eauto].
  destruct ids as [| | | |l|]; try discriminate He. simpl. eauto.
Qed.

Lemma analyze_replay_url_raises (self : ReplayAnalyzer) (raw : dict)
    (h : heap) (e : exn) :
  _extract_url raw = Raise e -> analyze_replay self raw h = (Raise e, h).
Proof. intros H. now rewrite analyze_replay_unfold, H. Qed.

Lemma extract_url_scalar_urls (raw : dict) (u : pyval) :
  dict_get "urls" raw = Some u -> truthy u = true -> is_scalar u = true ->
  _extract_url raw = Raise TypeError.
Proof.
  intros Hu Ht Hs. unfold _extract_url, has_urls, get_default.
  rewrite Hu, Ht. now destruct u.
Qed.

Lemma extract_url_mapping_urls (raw d : dict) :
  dict_get "urls" raw = Some (VDict d) -> d <> [] ->
  _extract_url raw = Raise KeyError.
Proof.
  intros Hu Hd. unfold _extract_url, has_urls, get_default.
  rewrite Hu. destruct d; [contradiction|reflexivity].
Qed.

Lemma extract_url_scalar_tags (raw : dict) (t : pyval) :
  has_urls raw = false -> dict_get "url" raw = None ->
  dict_get "tags" raw = Some t -> is_scalar t = true ->
  _extract_url raw = Raise TypeError.
Proof.
  intros Hn Hu Ht Hs. unfold _extract_url. rewrite Hn, Hu, Ht.
  now destruct t.
Qed.

Lemma find_url_tag_not_mapping (bad : pyval) (post : list pyval) :
  is_mapping bad = false ->
  find_url_tag (bad :: post) = Raise AttributeError.
Proof. intros H. now destruct bad. Qed.

Lemma extract_url_tag_not_mapping (raw : dict) (pre post : list pyval)
    (bad : pyval) :
  has_urls raw = false -> dict_get "url" raw = None ->
  dict_get "tags" raw = Some (VList (pre ++ bad :: post)) ->
  forallb other_tag pre = true -> is_mapping bad = false ->
  _extract_url raw = Raise AttributeError.
Proof.
  intros Hn Hu Ht Hpre Hbad. unfold _extract_url. rewrite Hn, Hu, Ht.
  cbn [iterate bind]. rewrite (find_url_tag_skip pre _ Hpre).
  now rewrite (find_url_tag_not_mapping bad post Hbad).
Qed.

Lemma analyze_replay_scalar_error_ids (self : ReplayAnalyzer) (raw : dict)
    (h : heap) (u ids : pyval) :
  _extract_url raw = Ok u -> dict_get "errors" raw = None ->
  dict_get "error_ids" raw = Some ids -> is_scalar ids = true ->
  analyze_replay self raw h = (Raise TypeError, h).
Proof.
  intros Hu He Hi Hs. rewrite analyze_replay_unfold, Hu.
  unfold _extract_errors. rewrite He, Hi. now destruct ids.
Qed.

(** C7, amended. The normalizer is total over records with missing fields
    and with fields of any type, provided that [urls] and [error_ids], when
    present, are lists and [tags], when present, is a list of mappings: it
    raises no error, returns a session and appends it to the accumulated
    collection.  It raises, and leaves the collection as it was, on a
    wrong-typed field that it takes apart: on a [urls] that is true or a
    number other than zero ([TypeError]) or a mapping with entries
    ([KeyError]); when [urls] is absent or has a false truth value and the
    record has no [url] key, on a [tags] that is null, a boolean or a
    number ([TypeError]) or that lists an entry that is not a mapping before
    any entry whose key is ["url"] ([AttributeError]); and when the url is
    found and the record has no [errors] key, on an [error_ids] that is
    null, a boolean or a number ([TypeError]). *)
Theorem analyze_replay_total_on_shaped (self : ReplayAnalyzer) (raw : dict)
    (h : heap) :
  (well_shaped raw = true ->
   exists s,
     analyze_replay self raw h
     = (Ok s, write (sessions self) (read (sessions self) h ++ [s]) h))
  /\ (forall u,
         dict_get "urls" raw = Some u -> truthy u = true ->
         is_scalar u = true ->
         analyze_replay self raw h = (Raise TypeError, h))
  /\ (forall d,
         dict_get "urls" raw = Some (VDict d) -> d <> [] ->
         analyze_replay self raw h = (Raise KeyError, h))
  /\ (forall t,
         has_urls raw = false -> dict_get "url" raw = None ->
         dict_get "tags" raw = Some t -> is_scalar t = true ->
         analyze_replay self raw h = (Raise TypeError, h))
  /\ (forall pre bad post,
         has_urls raw = false -> dict_get "url" raw = None ->
         dict_get "tags" raw = Some (VList (pre ++ bad :: post)) ->
         forallb other_tag pre = true -> is_mapping bad = false ->
         analyze_replay self raw h = (Raise AttributeError, h))
  /\ (forall u ids,
         _extract_url raw = Ok u -> dict_get "errors" raw = None ->
         dict_get "error_ids" raw = Some ids -> is_scalar ids = true ->
         analyze_replay self raw h = (Raise TypeError, h)).
Proof.
  split.
  { intros Hs.
    destruct (extract_url_shaped raw Hs) as [u Hu].
    destruct (extract_errors_shaped raw Hs) as [e He].
    exists (session_of raw u e).
    now rewrite analyze_replay_unfold, Hu, He. }
  split.
  { intros u Hu Ht Hs. apply analyze_replay_url_raises.
    exact (extract_url_scalar_urls raw u Hu Ht Hs). }
  split.
  { intros d Hu Hd. apply analyze_replay_url_raises.
    exact (extract_url_mapping_urls raw d Hu Hd). }
  split.
  { intros t Hn Hu Ht Hs. apply analyze_replay_url_raises.
    exact (extract_url_scalar_tags raw t Hn Hu Ht Hs). }
  split.
  { intros pre bad post Hn Hu Ht Hpre Hbad. apply analyze_replay_url_raises.
    exact (extract_url_tag_not_mapping raw pre post bad Hn Hu Ht Hpre Hbad). }
  intros u ids. apply analyze_replay_scalar_error_ids.
Qed.

Lemma analyze_replay_total_on_shaped_witness :
  (exists s,
      analyze_replay (mkReplayAnalyzer 0%nat)
                     [("id", VInt 5); ("duration", VStr "long");
                      ("user", VNone)]
                     [[]]
      = (Ok s, write 0%nat (read 0%nat [[]] ++ [s]) [[]]))
  /\ analyze_replay (mkReplayAnalyzer 0%nat) raw_tags_strings [[]]
     = (Raise AttributeError, [[]])
  /\ analyze_replay (mkReplayAnalyzer 0%nat)
                    [("url", VStr "B"); ("error_ids", VInt 7)] [[]]
     = (Raise TypeError, [[]]).
Proof.
  split; [|split].
  - apply (proj1 (analyze_replay_total_on_shaped (mkReplayAnalyzer 0%nat)
                    [("id", VInt 5); ("duration", VStr "long");
                     ("user", VNone)]
                    [[]])).
    reflexivity.
  - apply (proj1 (proj2 (proj2 (proj2 (proj2
             (analyze_replay_total_on_shaped (mkReplayAnalyzer 0%nat)
                raw_tags_strings [[]])))))
             [] (VStr "url") []);
      reflexivity.
  - apply (proj2 (proj2 (proj2 (proj2 (proj2
             (analyze_replay_total_on_shaped (mkReplayAnalyzer 0%nat)
                [("url", VStr "B"); ("error_ids", VInt 7)] [[]])))))
             (VStr "B") (VInt 7));
      reflexivity.
Defined.

(** C8. Action and network-request extraction produce the empty sequence
    for every raw record, so the session the normalizer returns has empty
    [actions] and [network_requests]. *)
Theorem extraction_is_noop (raw : dict) :
  _extract_actions raw = []
  /\ _extract_network_requests raw = []
  /\ (forall self h s,
         fst (analyze_replay self raw h) = Ok s ->
         actions s = [] /\ network_requests s = []).
Proof.
  split; [reflexivity|]. split; [reflexivity|].
  intros self h s. rewrite analyze_replay_unfold.
  destruct (_extract_url raw) as [u|e]; [|discriminate].
  destruct (_extract_errors raw) as [er|e]; [|discriminate].
  simpl. now intros [= <-].
Qed.

Lemma extraction_is_noop_witness :
  actions (session_of raw_url_and_tag (VStr "B") (VList [])) = []
  /\ network_requests (session_of raw_url_and_tag (VStr "B") (VList [])) = [].
Proof.
  apply (proj2 (proj2 (extraction_is_noop raw_url_and_tag))
           (mkReplayAnalyzer 0%nat) [[]]).
  reflexivity.
Defined.

(** C10, as stated, fails: a [tags] list can hold an entry with key ["url"]
    and no [value] field after another entry with key ["url"]; the loop
    returns at the first of them, and the url is the value of that one. *)
Lemma url_tag_without_value_not_first :
  no_urls raw_url_tag_twice
  /\ dict_get "url" raw_url_tag_twice = None
  /\ (exists tags tag,
         dict_get "tags" raw_url_tag_twice = Some (VList tags)
         /\ In (VDict tag) tags
         /\ dict_get "key" tag = Some (VStr "url")
         /\ dict_get "value" tag = None)
  /\ exists s,
       fst (analyze_replay (mkReplayAnalyzer 0%nat) raw_url_tag_twice [[]])
       = Ok s
       /\ url s = VStr "C" /\ url s <> VStr "".
Proof.
  split; [now left|]. split; [reflexivity|]. split.
  - exists [VDict [("key", VStr "url"); ("value", VStr "C")];
            VDict [("key", VStr "url")]], [("key", VStr "url")].
    split; [reflexivity|]. split; [simpl; tauto|].
    split; reflexivity.
  - eexists. split; [reflexivity|]. split; [reflexivity|discriminate].
Qed.

(** C10, amended. When a record has no [urls] list and no [url] field and
    the first [tags] entry whose key is ["url"] has no [value] field (the
    entries before it being mappings with another key), the url of the
    normalized session is the empty string, not the placeholder. *)
Theorem url_tag_without_value (raw : dict) (pre post : list pyval)
    (tag : dict) :
  no_urls raw -> dict_get "url" raw = None ->
  dict_get "tags" raw = Some (VList (pre ++ VDict tag :: post)) ->
  forallb other_tag pre = true ->
  dict_get "key" tag = Some (VStr "url") ->
  dict_get "value" tag = None ->
  _extract_url raw = Ok (VStr "")
  /\ VStr "" <> placeholder_url
  /\ (forall self h e,
         _extract_errors raw = Ok e ->
         exists s, fst (analyze_replay self raw h) = Ok s /\ url s = VStr "").
Proof.
  intros Hn Hu Ht Hpre Hk Hv.
  assert (Hx : _extract_url raw = Ok (VStr "")).
  { rewrite (extract_url_from_tag raw pre post tag Hn Hu Ht Hpre Hk).
    unfold get_default. now rewrite Hv. }
  split; [exact Hx|]. split; [discriminate|].
  intros self h e He. exists (session_of raw (VStr "") e).
  split; [now apply analyze_replay_session|reflexivity].
Qed.

Lemma url_tag_without_value_witness :
  _extract_url raw_tag_without_value = Ok (VStr "").
Proof.
  apply (url_tag_without_value raw_tag_without_value
           [VDict [("key", VStr "env"); ("value", VStr "prod")]] []
           [("key", VStr "url")]).
  - left. reflexivity.
  - reflexivity.
  - reflexivity.
  - reflexivity.
  - reflexivity.
  - reflexivity.
Defined.

(** ** The store: facts *)

Lemma write_app_last (h : heap) (xs ys : list ReplaySession) :
  write (List.length h) xs (h ++ [ys]) = h ++ [xs].
Proof.
  induction h as [|zs h IH]; simpl; [reflexivity|]. now rewrite IH.
Qed.

Lemma read_app_last (h : heap) (xs : list ReplaySession) :
  read (List.length h) (h ++ [xs]) = xs.
Proof.
  unfold read. rewrite app_nth2 by lia. now rewrite Nat.sub_diag.
Qed.

Lemma read_app_valid (l : loc) (h ext : heap) :
  valid l h -> read l (h ++ ext) = read l h.
Proof. unfold valid, read. intros Hl. now apply app_nth1. Qed.

(** ** Stable descending sort: facts *)

Section SortFacts.
Context {K A : Type}.
Variable ltb : K -> K -> bool.
Hypothesis ltb_asym : forall a b, ltb a b = true -> ltb b a = false.
Hypothesis ltb_negtrans :
  forall a b c, ltb a b = false -> ltb b c = false -> ltb a c = false.

Lemma insert_desc_perm (x : K * A) (l : list (K * A)) :
  Permutation (insert_desc ltb x l) (x :: l).
Proof.
  induction l as [|y l IH]; simpl; [apply Permutation_refl|].
  destruct (ltb (fst x) (fst y)); [|apply Permutation_refl].
  eapply perm_trans; [apply perm_skip, IH|apply perm_swap].
Qed.

Lemma sort_desc_perm (l : list (K * A)) : Permutation (sort_desc ltb l) l.
Proof.
  induction l as [|x l IH]; simpl; [constructor|].
  eapply perm_trans; [apply insert_desc_perm|now apply perm_skip].
Qed.

Lemma insert_desc_sorted (x : K * A) (l : list (K * A)) :
  StronglySorted (not_below ltb) l ->
  StronglySorted (not_below ltb) (insert_desc ltb x l).
Proof.
  induction 1 as [|y l Hs IH Hy]; simpl.
  - repeat constructor.
  - destruct (ltb (fst x) (fst y)) eqn:Hxy.
    + constructor; [exact IH|].
      eapply Permutation_Forall;
        [apply Permutation_sym, insert_desc_perm|].
      constructor; [now apply ltb_asym|exact Hy].
    + constructor; [now constructor|].
      constructor; [exact Hxy|].
      eapply Forall_impl; [|exact Hy].
      intros z Hz. unfold not_below in *. eauto.
Qed.

Lemma sort_desc_sorted (l : list (K * A)) :
  StronglySorted (not_below ltb) (sort_desc ltb l).
Proof.
  induction l as [|x l IH]; simpl; [constructor|].
  now apply insert_desc_sorted.
Qed.

Lemma insert_desc_filter (p : K * A -> bool) (x : K * A)
    (l : list (K * A)) :
  (forall y, ltb (fst x) (fst y) = true -> p x = true -> p y = false) ->
  filter p (insert_desc ltb x l) = filter p (x :: l).
Proof.
  intros Hp. induction l as [|y l IH]; [reflexivity|].
  cbn [insert_desc]. destruct (ltb (fst x) (fst y)) eqn:Hxy; [|reflexivity].
  cbn [filter] in *. rewrite IH.
  destruct (p x) eqn:Hx; [|reflexivity].
  now rewrite (Hp y Hxy eq_refl).
Qed.

Lemma eqv_separates (k0 a b : K) :
  ltb a b = true -> eqv ltb k0 a = true -> eqv ltb k0 b = false.
Proof.
  unfold eqv. intros Hab Ha.
  apply andb_true_iff in Ha as [H1 H2].
  apply negb_true_iff in H1, H2.
  destruct (ltb k0 b) eqn:Hb; [reflexivity|].
  rewrite (ltb_negtrans a k0 b H2 Hb) in Hab. discriminate.
Qed.

(** Elements whose keys compare equal to [k0] keep their order. *)
Lemma sort_desc_stable (k0 : K) (l : list (K * A)) :
  filter (fun y => eqv ltb k0 (fst y)) (sort_desc ltb l)
  = filter (fun y => eqv ltb k0 (fst y)) l.
Proof.
  induction l as [|x l IH]; [reflexivity|].
  cbn [sort_desc fold_right]. fold (sort_desc ltb l).
  rewrite insert_desc_filter.
  - cbn [filter]. now rewrite IH.
  - intros y Hxy Hx. now apply (eqv_separates k0 (fst x)).
Qed.
End SortFacts.

(** ** The selector: facts *)

Lemma Zltb_asym (a b : Z) : (a <? b) = true -> (b <? a) = false.
Proof. rewrite Z.ltb_lt, Z.ltb_ge. lia. Qed.

Lemma Zltb_negtrans (a b c : Z) :
  (a <? b) = false -> (b <? c) = false -> (a <? c) = false.
Proof. rewrite !Z.ltb_ge. lia. Qed.

Lemma lex_ltb_spec (a b : Z * Z) :
  lex_ltb a b = true <->
  fst a < fst b \/ (fst a = fst b /\ snd a < snd b).
Proof.
  unfold lex_ltb.
  rewrite orb_true_iff, andb_true_iff, !Z.ltb_lt, Z.eqb_eq. tauto.
Qed.

Lemma lex_ltb_false (a b : Z * Z) :
  lex_ltb a b = false <->
  fst b < fst a \/ (fst a = fst b /\ snd b <= snd a).
Proof.
  rewrite <- not_true_iff_false, lex_ltb_spec. lia.
Qed.

Lemma lex_ltb_asym (a b : Z * Z) : lex_ltb a b = true -> lex_ltb b a = false.
Proof. rewrite lex_ltb_spec, lex_ltb_false. lia. Qed.

Lemma lex_ltb_negtrans (a b c : Z * Z) :
  lex_ltb a b = false -> lex_ltb b c = false -> lex_ltb a c = false.
Proof. rewrite !lex_ltb_false. lia. Qed.

Lemma well_typed_as_int (s : ReplaySession) :
  well_typed s = true -> as_int (duration s) = Ok (dur s).
Proof.
  unfold well_typed, dur. intros H.
  apply andb_true_iff in H as [H _]. apply andb_true_iff in H as [H _].
  apply andb_true_iff in H as [_ H].
  now destruct (duration s).
Qed.

Lemma well_typed_py_len (s : ReplaySession) :
  well_typed s = true -> py_len (errors s) = Ok (error_count s).
Proof.
  unfold well_typed, error_count. intros H.
  apply andb_true_iff in H as [_ H].
  now destruct (errors s).
Qed.

Lemma filter_by_duration_ok (m : Z) (l : list ReplaySession) :
  forallb well_typed l = true ->
  filter_by_duration m l = Ok (filter (long_enough m) l).
Proof.
  induction l as [|s l IH]; intros Hl; [reflexivity|].
  simpl in Hl. apply andb_true_iff in Hl as [Hs Hl].
  simpl. rewrite (well_typed_as_int s Hs), (IH Hl). reflexivity.
Qed.

Lemma forallb_filter {A : Type} (p q : A -> bool) (l : list A) :
  forallb p l = true -> forallb p (filter q l) = true.
Proof.
  rewrite !forallb_forall. intros H x Hx.
  apply filter_In in Hx. now apply H.
Qed.

Lemma decorate_ok {K : Type} (key : ReplaySession -> result K)
    (k : ReplaySession -> K) (l : list ReplaySession) :
  (forall s, In s l -> key s = Ok (k s)) ->
  decorate key l = Ok (map (fun s => (k s, s)) l).
Proof.
  induction l as [|s l IH]; intros H; [reflexivity|].
  simpl. rewrite (H s (or_introl eq_refl)), IH; [reflexivity|].
  intros s' Hs'. apply H. now right.
Qed.

Section SortedBy.
Context {K : Type}.
Variable key : ReplaySession -> K.
Variable ltb : K -> K -> bool.
Hypothesis ltb_asym : forall a b, ltb a b = true -> ltb b a = false.
Hypothesis ltb_negtrans :
  forall a b c, ltb a b = false -> ltb b c = false -> ltb a c = false.

Lemma keyed_snd (l : list ReplaySession) : map snd (keyed key l) = l.
Proof.
  unfold keyed. rewrite map_map. simpl. apply map_id.
Qed.

Lemma keyed_consistent (l : list ReplaySession) :
  Forall (fun y => fst y = key (snd y)) (sort_desc ltb (keyed key l)).
Proof.
  eapply Permutation_Forall; [apply Permutation_sym, sort_desc_perm|].
  unfold keyed. apply Forall_forall. intros y Hy.
  apply in_map_iff in Hy as [s [<- _]]. reflexivity.
Qed.

Lemma sorted_by_perm (l : list ReplaySession) :
  Permutation (sorted_by key ltb l) l.
Proof.
  unfold sorted_by.
  rewrite <- (keyed_snd l) at 2.
  apply Permutation_map, sort_desc_perm.
Qed.

Lemma sorted_map_snd (L : list (K * ReplaySession)) :
  Forall (fun y => fst y = key (snd y)) L ->
  StronglySorted (not_below ltb) L ->
  StronglySorted (fun a b => ltb (key a) (key b) = false) (map snd L).
Proof.
  intros Hc Hs. induction Hs as [|y L Hs IH Hy]; simpl; constructor.
  - apply IH. now inversion Hc.
  - inversion Hc as [|? ? Hcy HcL]; subst.
    apply Forall_forall. intros b Hb.
    apply in_map_iff in Hb as [z [<- Hz]].
    rewrite Forall_forall in Hy, HcL.
    specialize (Hy z Hz). unfold not_below in Hy.
    now rewrite Hcy, (HcL z Hz) in Hy.
Qed.

Lemma sorted_by_sorted (l : list ReplaySession) :
  StronglySorted (fun a b => ltb (key a) (key b) = false)
                 (sorted_by key ltb l).
Proof.
  unfold sorted_by.
  apply sorted_map_snd;
    [apply keyed_consistent|now apply sort_desc_sorted].
Qed.

Lemma filter_map_snd (q : ReplaySession -> bool)
    (L : list (K * ReplaySession)) :
  filter q (map snd L) = map snd (filter (fun y => q (snd y)) L).
Proof.
  induction L as [|y L IH]; [reflexivity|].
  simpl. destruct (q (snd y)); simpl; now rewrite IH.
Qed.

Lemma sorted_by_stable (s0 : ReplaySession) (l : list ReplaySession) :
  filter (fun s => eqv ltb (key s0) (key s)) (sorted_by key ltb l)
  = filter (fun s => eqv ltb (key s0) (key s)) l.
Proof.
  unfold sorted_by.
  rewrite filter_map_snd.
  rewrite (filter_ext_in (fun y => eqv ltb (key s0) (key (snd y)))
                         (fun y => eqv ltb (key s0) (fst y))).
  - rewrite (sort_desc_stable ltb ltb_negtrans).
    rewrite <- (keyed_snd l) at 2. rewrite filter_map_snd.
    f_equal. apply filter_ext_in. intros y Hy.
    unfold keyed in Hy. apply in_map_iff in Hy as [s [<- _]]. reflexivity.
  - intros y Hy.
    pose proof (keyed_consistent l) as Hc. rewrite Forall_forall in Hc.
    now rewrite (Hc y Hy).
Qed.
End SortedBy.

Lemma sort_in_place_last {K : Type} (key : ReplaySession -> result K)
    (ltb : K -> K -> bool) (h : heap) (xs : list ReplaySession) :
  sort_in_place key ltb (List.length h) (h ++ [xs]) =
  match decorate key xs with
  | Ok keyed => (Ok tt, h ++ [map snd (sort_desc ltb keyed)])
  | Raise e => (Raise e, h ++ [xs])
  end.
Proof.
  unfold sort_in_place, mbind, load, lift, store.
  rewrite read_app_last.
  destruct (decorate key xs) as [keyed|e]; [|reflexivity].
  now rewrite write_app_last.
Qed.

(** The selector, one store operation at a time. *)
Lemma select_unfold (self : ReplayAnalyzer) (max_sessions : Z)
    (prioritize_errors : bool) (min_duration : Z) (h : heap) :
  select_sessions_for_testing self max_sessions prioritize_errors
                              min_duration h =
  match filter_by_duration min_duration (read (sessions self) h) with
  | Raise e => (Raise e, h)
  | Ok filtered =>
      match (if prioritize_errors
             then decorate key_errors_duration filtered
                  >>= fun keyed => Ok (map snd (sort_desc lex_ltb keyed))
             else decorate key_duration filtered
                  >>= fun keyed => Ok (map snd (sort_desc Z.ltb keyed)))
      with
      | Raise e => (Raise e, h ++ [filtered])
      | Ok sorted =>
          (Ok (S (List.length h)),
           h ++ [sorted] ++ [slice_to max_sessions sorted])
      end
  end.
Proof.
  unfold select_sessions_for_testing.
  unfold mbind at 1. unfold load at 1. cbv beta iota.
  unfold mbind at 1. unfold lift at 1. cbv beta iota.
  destruct (filter_by_duration min_duration (read (sessions self) h))
    as [filtered|e]; [|reflexivity].
  unfold mbind at 1. unfold alloc at 1. cbv beta iota.
  unfold mbind at 1.
  destruct prioritize_errors; cbv iota; rewrite sort_in_place_last.
  - destruct (decorate key_errors_duration filtered) as [keyed|e];
      [|reflexivity].
    unfold mbind, load, alloc, bind. rewrite read_app_last.
    rewrite length_app, Nat.add_comm, <- app_assoc. reflexivity.
  - destruct (decorate key_duration filtered) as [keyed|e]; [|reflexivity].
    unfold mbind, load, alloc, bind. rewrite read_app_last.
    rewrite length_app, Nat.add_comm, <- app_assoc. reflexivity.
Qed.

Lemma key_errors_duration_ok (s : ReplaySession) :
  well_typed s = true -> key_errors_duration s = Ok (pair_key s).
Proof.
  intros H. unfold key_errors_duration, pair_key.
  now rewrite (well_typed_py_len s H), (well_typed_as_int s H).
Qed.

(** What the selector leaves in the store and returns when every stored
    session is well typed. *)
Lemma select_run (self : ReplayAnalyzer) (max_sessions : Z)
    (prioritize_errors : bool) (min_duration : Z) (h : heap) :
  forallb well_typed (read (sessions self) h) = true ->
  let filtered := filter (long_enough min_duration) (read (sessions self) h) in
  let ranked :=
    if prioritize_errors
    then sorted_by pair_key lex_ltb filtered
    else sorted_by dur Z.ltb filtered in
  select_sessions_for_testing self max_sessions prioritize_errors
                              min_duration h
  = (Ok (S (List.length h)), h ++ [ranked] ++ [slice_to max_sessions ranked]).
Proof.
  intros Hwt filtered ranked. rewrite select_unfold.
  rewrite (filter_by_duration_ok _ _ Hwt). fold filtered.
  assert (Hf : forall s, In s filtered -> well_typed s = true).
  { apply forallb_forall. now apply forallb_filter. }
  subst ranked. destruct prioritize_errors.
  - rewrite (decorate_ok key_errors_duration pair_key); [reflexivity|].
    intros s Hs. now apply key_errors_duration_ok, Hf.
  - rewrite (decorate_ok key_duration dur); [reflexivity|].
    intros s Hs. now apply well_typed_as_int, Hf.
Qed.

Lemma pair_key_not_below (a b : ReplaySession) :
  lex_ltb (pair_key a) (pair_key b) = false -> rank_ge true a b.
Proof.
  rewrite lex_ltb_false. unfold pair_key, rank_ge. simpl. lia.
Qed.

Lemma pair_key_eqv (a b : ReplaySession) :
  eqv lex_ltb (pair_key a) (pair_key b) = same_rank true a b.
Proof.
  unfold eqv, same_rank.
  destruct (lex_ltb (pair_key a) (pair_key b)) eqn:H1;
    destruct (lex_ltb (pair_key b) (pair_key a)) eqn:H2;
    destruct (Nat.eqb (error_count a) (error_count b)) eqn:He;
    destruct (dur a =? dur b) eqn:Hd; try reflexivity; exfalso;
    rewrite ?lex_ltb_spec, ?lex_ltb_false in *;
    rewrite ?Nat.eqb_eq, ?Nat.eqb_neq, ?Z.eqb_eq, ?Z.eqb_neq in *;
    unfold pair_key in *; simpl in *; lia.
Qed.

Lemma dur_eqv (a b : ReplaySession) :
  eqv Z.ltb (dur a) (dur b) = same_rank false a b.
Proof.
  unfold eqv, same_rank.
  destruct (dur a <? dur b) eqn:H1; destruct (dur b <? dur a) eqn:H2;
    destruct (dur a =? dur b) eqn:Hd; try reflexivity; exfalso;
    rewrite ?Z.ltb_lt, ?Z.ltb_ge, ?Z.eqb_eq, ?Z.eqb_neq in *; lia.
Qed.

Lemma StronglySorted_impl {A : Type} (R R' : A -> A -> Prop) (l : list A) :
  (forall a b, R a b -> R' a b) -> StronglySorted R l -> StronglySorted R' l.
Proof.
  intros HR. induction 1 as [|a l Hs IH Ha]; constructor; [exact IH|].
  eapply Forall_impl; [|exact Ha]. intros b. apply HR.
Qed.

(** The properties that determine the ranking: the same sessions, in
    descending order, with equal keys left in place. *)
Lemma ranking_spec (prioritize_errors : bool) (l : list ReplaySession) :
  let ranked :=
    if prioritize_errors
    then sorted_by pair_key lex_ltb l
    else sorted_by dur Z.ltb l in
  Permutation ranked l
  /\ StronglySorted (rank_ge prioritize_errors) ranked
  /\ (forall s0,
         filter (same_rank prioritize_errors s0) ranked
         = filter (same_rank prioritize_errors s0) l).
Proof.
  destruct prioritize_errors; cbv zeta.
  - split; [apply sorted_by_perm|]. split.
    + eapply StronglySorted_impl;
        [|apply (sorted_by_sorted pair_key lex_ltb
                   lex_ltb_asym lex_ltb_negtrans)].
      intros a b. apply pair_key_not_below.
    + intros s0.
      rewrite (filter_ext _ _ (fun s => eq_sym (pair_key_eqv s0 s))).
      rewrite (filter_ext (same_rank true s0) _
                 (fun s => eq_sym (pair_key_eqv s0 s))).
      apply (sorted_by_stable pair_key lex_ltb lex_ltb_negtrans).
  - split; [apply sorted_by_perm|]. split.
    + eapply StronglySorted_impl;
        [|apply (sorted_by_sorted dur Z.ltb Zltb_asym Zltb_negtrans)].
      intros a b. unfold rank_ge. now rewrite Z.ltb_ge.
    + intros s0.
      rewrite (filter_ext _ _ (fun s => eq_sym (dur_eqv s0 s))).
      rewrite (filter_ext (same_rank false s0) _
                 (fun s => eq_sym (dur_eqv s0 s))).
      apply (sorted_by_stable dur Z.ltb Zltb_negtrans).
Qed.

Lemma slice_to_nonneg {A : Type} (n : Z) (xs : list A) :
  0 <= n -> slice_to n xs = firstn (Z.to_nat n) xs.
Proof.
  intros Hn. unfold slice_to.
  destruct (n <? 0) eqn:H; [|reflexivity].
  apply Z.ltb_lt in H. lia.
Qed.

Lemma select_extends (self : ReplayAnalyzer) (max_sessions : Z)
    (prioritize_errors : bool) (min_duration : Z) (h : heap) :
  exists ext,
    snd (select_sessions_for_testing self max_sessions prioritize_errors
                                     min_duration h) = h ++ ext
    /\ (forall r,
           fst (select_sessions_for_testing self max_sessions
                  prioritize_errors min_duration h) = Ok r ->
           r = S (List.length h)).
Proof.
  rewrite select_unfold.
  destruct (filter_by_duration min_duration (read (sessions self) h))
    as [filtered|e].
  - match goal with
    | |- context [match ?m with Ok _ => _ | Raise _ => _ end] =>
        destruct m as [sorted|e]
    end.
    + eexists. split; [reflexivity|]. simpl. now intros r [= <-].
    + eexists. split; [reflexivity|]. simpl. discriminate.
  - exists []. split; [simpl; now rewrite app_nil_r|]. simpl. discriminate.
Qed.

(** C1, as stated, fails for a negative [max_sessions]: asked for [-1]
    sessions out of a ranking of three, the selector returns two of them,
    not the first [-1] entries of the ranking. *)
Lemma select_negative_max_not_prefix :
  fst negative_max_run = Ok 2%nat
  /\ read 1%nat (snd negative_max_run)
     = [session_with "s1" 2000 2; session_with "s3" 2000 2;
        session_with "s2" 1500 2]
  /\ read 2%nat (snd negative_max_run)
     = [session_with "s1" 2000 2; session_with "s3" 2000 2]
  /\ read 2%nat (snd negative_max_run)
     <> firstn (Z.to_nat (-1)) (read 1%nat (snd negative_max_run)).
Proof.
  split; [reflexivity|]. split; [reflexivity|]. split; [reflexivity|].
  vm_compute. discriminate.
Qed.

(** C1, amended. For every collection of well-typed sessions and every
    [max_sessions >= 0], the selector returns the first [max_sessions]
    entries of a ranking that holds exactly the sessions with
    [duration >= min_duration], in descending order of the pair (error
    count, duration) when [prioritize_errors] is true and of the duration
    alone otherwise, sessions with equal sort keys keeping the relative
    order they have in the filtered collection. *)
Theorem select_sessions_ranked (self : ReplayAnalyzer) (max_sessions : Z)
    (prioritize_errors : bool) (min_duration : Z) (h : heap) :
  forallb well_typed (read (sessions self) h) = true ->
  0 <= max_sessions ->
  exists r h' ranked,
    select_sessions_for_testing self max_sessions prioritize_errors
                                min_duration h = (Ok r, h')
    /\ read r h' = firstn (Z.to_nat max_sessions) ranked
    /\ Permutation ranked
         (filter (long_enough min_duration) (read (sessions self) h))
    /\ StronglySorted (rank_ge prioritize_errors) ranked
    /\ (forall s0,
           filter (same_rank prioritize_errors s0) ranked
           = filter (same_rank prioritize_errors s0)
               (filter (long_enough min_duration)
                       (read (sessions self) h))).
Proof.
  intros Hwt Hmax.
  pose proof (select_run self max_sessions prioritize_errors min_duration
                h Hwt) as Hrun.
  cbv zeta in Hrun.
  set (filtered := filter (long_enough min_duration) (read (sessions self) h))
    in *.
  set (ranked := if prioritize_errors
                 then sorted_by pair_key lex_ltb filtered
                 else sorted_by dur Z.ltb filtered) in *.
  exists (S (List.length h)),
         (h ++ [ranked] ++ [slice_to max_sessions ranked]), ranked.
  split; [exact Hrun|]. split.
  - rewrite app_assoc.
    replace (S (List.length h)) with (List.length (h ++ [ranked]))
      by (rewrite length_app; simpl; lia).
    rewrite read_app_last. now apply slice_to_nonneg.
  - apply ranking_spec.
Qed.

Lemma select_sessions_ranked_witness :
  exists r h' ranked,
    select_sessions_for_testing (mkReplayAnalyzer 0%nat) 2 true 1000
                                [tie_break_sessions] = (Ok r, h')
    /\ read r h' = firstn (Z.to_nat 2) ranked
    /\ Permutation ranked
         (filter (long_enough 1000)
                 (read (sessions (mkReplayAnalyzer 0%nat))
                       [tie_break_sessions]))
    /\ StronglySorted (rank_ge true) ranked
    /\ (forall s0,
           filter (same_rank true s0) ranked
           = filter (same_rank true s0)
               (filter (long_enough 1000)
                       (read (sessions (mkReplayAnalyzer 0%nat))
                             [tie_break_sessions]))).
Proof.
  apply (select_sessions_ranked (mkReplayAnalyzer 0%nat) 2 true 1000
           [tie_break_sessions]).
  - reflexivity.
  - lia.
Defined.

(** The tie-break example: the session of duration 500 is dropped; of the
    two sessions of duration 2000 the one met first stays first, and both
    stand before the session of duration 1500. *)
Example select_tie_break :
  let out := select_sessions_for_testing (mkReplayAnalyzer 0%nat) 10 true 1000
               [tie_break_sessions] in
  fst out = Ok 2%nat
  /\ read 2%nat (snd out)
     = [session_with "s1" 2000 2; session_with "s3" 2000 2;
        session_with "s2" 1500 2].
Proof. split; reflexivity. Qed.

(** C9. A call of the selector leaves every list object that was in the
    store as it was, whatever the outcome; the accumulated collection of the
    analyzer is one of them, so it holds the same sessions, unchanged, in
    the same order.  The list returned is a new object. *)
Theorem select_preserves_accumulated (self : ReplayAnalyzer)
    (max_sessions : Z) (prioritize_errors : bool) (min_duration : Z)
    (h : heap) :
  valid (sessions self) h ->
  read (sessions self)
       (snd (select_sessions_for_testing self max_sessions prioritize_errors
                                         min_duration h))
  = read (sessions self) h
  /\ (forall l,
         valid l h ->
         read l (snd (select_sessions_for_testing self max_sessions
                        prioritize_errors min_duration h))
         = read l h)
  /\ (forall r,
         fst (select_sessions_for_testing self max_sessions
                prioritize_errors min_duration h) = Ok r ->
         r <> sessions self).
Proof.
  intros Hv.
  destruct (select_extends self max_sessions prioritize_errors min_duration h)
    as [ext [Hext Hr]].
  rewrite Hext. split; [now apply read_app_valid|].
  split; [intros l Hl; now apply read_app_valid|].
  intros r Hok. rewrite (Hr r Hok). unfold valid in Hv. lia.
Qed.

Lemma select_preserves_accumulated_witness :
  read 0%nat (snd (select_sessions_for_testing (mkReplayAnalyzer 0%nat) 10 true
                 1000 [tie_break_sessions]))
  = tie_break_sessions.
Proof.
  apply (proj1 (select_preserves_accumulated (mkReplayAnalyzer 0%nat) 10 true
                  1000 [tie_break_sessions] (Nat.lt_0_succ 0))).
Defined.

(** ** The script synthesizer: facts *)

Lemma append_action_app (ls : list string) (a : UserAction) :
  append_action ls a = ls ++ action_lines a.
Proof.
  unfold action_lines, append_action.
  repeat match goal with
         | |- context [if ?c then _ else _] => destruct c
         end; simpl; now rewrite <- ?app_assoc.
Qed.

Lemma fold_append_action (acts : list UserAction) (ls : list string) :
  fold_left append_action acts ls = ls ++ flat_map action_lines acts.
Proof.
  revert ls. induction acts as [|a acts IH]; intros ls; simpl.
  - now rewrite app_nil_r.
  - now rewrite IH, append_action_app, <- app_assoc.
Qed.

Lemma script_lines_ok (s : ReplaySession) (id8 : pyval) :
  slice8 (replay_id s) = Ok id8 ->
  script_lines s
  = Ok (header (py_str id8) (py_str (duration s)) (py_str (url s))
        ++ flat_map action_lines (actions s) ++ footer (py_str id8)).
Proof.
  intros H. unfold script_lines. rewrite H. simpl bind.
  now rewrite fold_append_action, <- app_assoc.
Qed.

Lemma click_not_wait (sel : string) : click_stmt sel <> wait_stmt.
Proof. discriminate. Qed.

Lemma fill_not_wait (sel val : string) : fill_stmt sel val <> wait_stmt.
Proof. discriminate. Qed.

Lemma goto_not_wait (tgt : string) : goto_stmt tgt <> wait_stmt.
Proof. discriminate. Qed.

(** Every action adds at most one statement, then the wait statement and an
    empty line; a statement is added only for an action of the matching
    type that has the fields the statement prints. *)
Lemma action_lines_shape (a : UserAction) :
  exists stmt,
    action_lines a = stmt ++ [wait_stmt; ""]
    /\ (stmt = []
        \/ (exists sel,
               stmt = [click_stmt sel]
               /\ action_type a = "click" /\ selector a = Some sel)
        \/ (exists sel val,
               stmt = [fill_stmt sel val]
               /\ action_type a = "input"
               /\ selector a = Some sel /\ value a = Some val)
        \/ (exists tgt,
               stmt = [goto_stmt tgt]
               /\ action_type a = "navigation" /\ target a = Some tgt)).
Proof.
  split_action a;
    first
      [ exists []; split; [reflexivity|]; left; reflexivity
      | match goal with
        | |- exists _, [?x; _; _] = _ /\ _ =>
            exists [x]; split; [reflexivity|]
        end;
        first [ right; left; eexists; repeat split; eassumption
              | right; right; left; do 2 eexists; repeat split; eassumption
              | right; right; right; eexists; repeat split; eassumption ] ].
Qed.

Lemma action_lines_count (a : UserAction) :
  count_occ string_dec (action_lines a) wait_stmt = 1%nat.
Proof.
  destruct (action_lines_shape a) as [stmt [-> Hs]].
  rewrite count_occ_app.
  destruct Hs as [-> | [[sel [-> _]] | [[sel [val [-> _]]] | [tgt [-> _]]]]];
    reflexivity.
Qed.

Lemma actions_wait_count (acts : list UserAction) :
  count_occ string_dec (flat_map action_lines acts) wait_stmt
  = List.length acts.
Proof.
  induction acts as [|a acts IH]; [reflexivity|].
  simpl. now rewrite count_occ_app, action_lines_count, IH.
Qed.

Lemma header_no_wait (id8 d u : string) : ~ In wait_stmt (header id8 d u).
Proof.
  unfold header. simpl.
  intros [H|[H|[H|[H|[H|[H|[H|[H|[]]]]]]]]]; discriminate H.
Qed.

Lemma footer_no_wait (id8 : string) : ~ In wait_stmt (footer id8).
Proof.
  unfold footer. simpl. intros [H|[H|[H|[]]]]; discriminate H.
Qed.

Lemma script_wait_count (id8 d u : string) (acts : list UserAction) :
  count_occ string_dec
            (header id8 d u ++ flat_map action_lines acts ++ footer id8)
            wait_stmt
  = List.length acts.
Proof.
  rewrite !count_occ_app, actions_wait_count.
  rewrite (proj1 (count_occ_not_In string_dec _ _) (header_no_wait id8 d u)).
  rewrite (proj1 (count_occ_not_In string_dec _ _) (footer_no_wait id8)).
  lia.
Qed.

Lemma header_no_click (id8 d u sel : string) :
  ~ In (click_stmt sel) (header id8 d u).
Proof.
  unfold header. simpl.
  intros [H|[H|[H|[H|[H|[H|[H|[H|[]]]]]]]]]; discriminate H.
Qed.

Lemma footer_no_click (id8 sel : string) : ~ In (click_stmt sel) (footer id8).
Proof.
  unfold footer. simpl. intros [H|[H|[H|[]]]]; discriminate H.
Qed.

Lemma click_without_selector_lines (a : UserAction) :
  action_type a = "click" -> selector a = None ->
  action_lines a = [wait_stmt; ""].
Proof.
  intros Ht Hs. unfold action_lines, append_action.
  rewrite Ht, Hs. reflexivity.
Qed.

Lemma action_lines_fields (a b : UserAction) :
  rendered_fields a = rendered_fields b -> action_lines a = action_lines b.
Proof.
  unfold rendered_fields, action_lines, append_action.
  now intros [= -> -> -> ->].
Qed.

Lemma flat_map_action_lines_fields (l1 l2 : list UserAction) :
  map rendered_fields l1 = map rendered_fields l2 ->
  flat_map action_lines l1 = flat_map action_lines l2.
Proof.
  revert l2. induction l1 as [|a l1 IH]; intros [|b l2] H;
    try discriminate H; [reflexivity|].
  cbn [map] in H.
  assert (Hab : rendered_fields a = rendered_fields b) by congruence.
  assert (Hl : map rendered_fields l1 = map rendered_fields l2)
    by congruence.
  simpl. now rewrite (action_lines_fields a b Hab), (IH l2 Hl).
Qed.

(** The script is a function of the fields the synthesizer reads. *)
Lemma to_test_script_reads (s1 s2 : ReplaySession) :
  same_rendered_fields s1 s2 -> to_test_script s1 = to_test_script s2.
Proof.
  intros (Hid & Hd & Hu & Ha).
  unfold to_test_script, script_lines. rewrite Hid, Hd, Hu.
  destruct (slice8 (replay_id s2)) as [id8|e]; [|reflexivity].
  cbn [bind]. rewrite !fold_append_action.
  now rewrite (flat_map_action_lines_fields _ _ Ha).
Qed.

(** The script of the session whose only action is a click without
    selector, as text. *)
Example render_click_without_selector :
  to_test_script click_without_selector
  = Ok "import { test, expect } from '@playwright/test';

test('replay-abc123de', async ({ page }) => {
  // Original session duration: 45000ms
  // URL: https://example.com/app

  await page.goto('https://example.com/app');

  await page.waitForTimeout(100);

  // Take final screenshot for comparison
  await page.screenshot({ path: 'screenshots/replay-abc123de.png' });
});".
Proof. reflexivity. Qed.

(** ** The coverage aggregator: facts *)

Lemma py_eqb_sym (a b : pyval) : py_eqb a b = py_eqb b a.
Proof.
  destruct a as [|x|x|x|x|x], b as [|y|y|y|y|y]; simpl; try reflexivity.
  - now destruct x, y.
  - apply Z.eqb_sym.
  - apply Z.eqb_sym.
  - apply Z.eqb_sym.
  - apply String.eqb_sym.
Qed.

Lemma py_eqb_trans (a b c : pyval) :
  py_eqb a b = true -> py_eqb b c = true -> py_eqb a c = true.
Proof.
  destruct a, b, c; simpl; try discriminate;
    rewrite ?Z.eqb_eq, ?Bool.eqb_true_iff, ?String.eqb_eq;
    try congruence; intros; subst; try reflexivity;
    repeat match goal with b : bool |- _ => destruct b end;
    simpl in *; congruence.
Qed.

Lemma py_eqb_str (x y : string) : py_eqb (VStr x) (VStr y) = String.eqb x y.
Proof. reflexivity. Qed.

Lemma py_eqb_false_l (a b c : pyval) :
  py_eqb a b = true -> py_eqb a c = false -> py_eqb b c = false.
Proof.
  intros Hab Hac. destruct (py_eqb b c) eqn:Hbc; [|reflexivity].
  now rewrite (py_eqb_trans a b c Hab Hbc) in Hac.
Qed.

Lemma counter_add_count (k v : pyval) (c : list (pyval * nat)) :
  count_of k (counter_add v c)
  = if py_eqb v k then S (count_of k c) else count_of k c.
Proof.
  induction c as [|[k' n] c IH]; [reflexivity|].
  cbn [counter_add]. destruct (py_eqb k' v) eqn:Hv; cbn [count_of].
  - destruct (py_eqb k' k) eqn:Hk.
    + rewrite py_eqb_sym in Hv. now rewrite (py_eqb_trans v k' k Hv Hk).
    + now rewrite (py_eqb_false_l k' v k Hv Hk).
  - destruct (py_eqb k' k) eqn:Hk; [|exact IH].
    now rewrite (py_eqb_sym v k), (py_eqb_false_l k' k v Hk Hv).
Qed.

Lemma occurrences_cons (k v : pyval) (xs : list pyval) :
  occurrences k (v :: xs)
  = if py_eqb v k then S (occurrences k xs) else occurrences k xs.
Proof. unfold occurrences. simpl. now destruct (py_eqb v k). Qed.

Lemma Counter_fold (xs : list pyval) (c : list (pyval * nat)) :
  forallb hashable xs = true ->
  exists c',
    fold_left
      (fun acc v =>
         c0 <- acc ;;
         if hashable v then Ok (counter_add v c0) else Raise TypeError)
      xs (Ok c) = Ok c'
    /\ forall k, count_of k c' = (count_of k c + occurrences k xs)%nat.
Proof.
  revert c. induction xs as [|v xs IH]; intros c Hh.
  - exists c. split; [reflexivity|]. intros k. unfold occurrences. simpl. lia.
  - simpl in Hh. apply andb_true_iff in Hh as [Hv Hh].
    cbn [fold_left bind]. rewrite Hv.
    destruct (IH (counter_add v c) Hh) as [c' [Hc' Hcount]].
    exists c'. split; [exact Hc'|].
    intros k. rewrite Hcount, counter_add_count, occurrences_cons.
    destruct (py_eqb v k); lia.
Qed.

Lemma Counter_counts (xs : list pyval) :
  forallb hashable xs = true ->
  exists c, Counter xs = Ok c /\ forall k, count_of k c = occurrences k xs.
Proof.
  intros Hh. destruct (Counter_fold xs [] Hh) as [c [Hc Hk]].
  exists c. split; [exact Hc|]. intros k. now rewrite Hk.
Qed.

Lemma set_add_str (x : string) (acc : list string) :
  exists acc',
    set_add (VStr x) (map VStr acc) = map VStr acc'
    /\ (NoDup acc -> NoDup acc')
    /\ (forall y, In y acc' <-> In y acc \/ y = x).
Proof.
  induction acc as [|z acc (acc' & Hadd & Hnd & Hin)].
  - exists [x]. split; [reflexivity|]. split; [repeat constructor; auto|].
    intros y. simpl. intuition.
  - cbn [map set_add]. rewrite py_eqb_str.
    destruct (String.eqb_spec z x) as [->|Hzx].
    + exists (x :: acc). split; [reflexivity|]. split; [auto|].
      intros y. simpl. intuition.
    + exists (z :: acc'). split; [now rewrite Hadd|]. split.
      * intros Hn. inversion Hn as [|? ? Hz Hacc]; subst.
        constructor; [|auto]. rewrite Hin. intros [H|H]; congruence.
      * intros y. simpl. rewrite Hin. intuition.
Qed.

Lemma py_set_fold_str (strs acc : list string) :
  NoDup acc ->
  exists s,
    fold_left
      (fun a v =>
         s0 <- a ;;
         if hashable v then Ok (set_add v s0) else Raise TypeError)
      (map VStr strs) (Ok (map VStr acc)) = Ok (map VStr s)
    /\ NoDup s
    /\ (forall y, In y s <-> In y acc \/ In y strs).
Proof.
  revert acc. induction strs as [|x strs IH]; intros acc Hnd.
  - exists acc. split; [reflexivity|]. split; [exact Hnd|].
    intros y. simpl. tauto.
  - cbn [map fold_left bind hashable].
    destruct (set_add_str x acc) as (acc' & -> & Hnd' & Hin').
    destruct (IH acc' (Hnd' Hnd)) as (s & Hs & Hnds & Hins).
    exists s. split; [exact Hs|]. split; [exact Hnds|].
    intros y. rewrite Hins, Hin'. simpl. intuition.
Qed.

Lemma py_set_strings (strs : list string) :
  exists s,
    py_set (map VStr strs) = Ok (map VStr s)
    /\ List.length s = cardinality strs.
Proof.
  destruct (py_set_fold_str strs [] (NoDup_nil _)) as (s & Hs & Hnd & Hin).
  exists s. split; [exact Hs|].
  unfold cardinality. apply Permutation_length.
  apply NoDup_Permutation; [exact Hnd|apply NoDup_nodup|].
  intros y. rewrite Hin, nodup_In. simpl. tauto.
Qed.

Lemma browser_ok_name (s : ReplaySession) :
  browser_ok s = true ->
  method_get (get_default "browser" (VDict []) (metadata s)) "name" VNone
  = Ok (browser_name s)
  /\ hashable (browser_name s) = true.
Proof.
  unfold browser_ok, browser_name, get_default.
  destruct (dict_get "browser" (metadata s)) as [b|]; [|now split].
  destruct b; try discriminate. now split.
Qed.

Lemma collect_ok (ss : list ReplaySession) (us : list pyval)
    (sels : list string) (bs : list pyval) :
  forallb browser_ok ss = true ->
  collect ss (us, sels, bs)
  = Ok (us ++ map url ss,
        sels ++ flat_map (fun s => session_selectors (actions s)) ss,
        bs ++ map browser_name ss).
Proof.
  revert us sels bs. induction ss as [|s ss IH]; intros us sels bs Hb.
  - simpl. now rewrite !app_nil_r.
  - simpl in Hb. apply andb_true_iff in Hb as [Hs Hb].
    cbn [collect collect_step].
    rewrite (proj1 (browser_ok_name s Hs)). cbn [bind].
    rewrite (IH _ _ _ Hb). cbn [map flat_map].
    now rewrite <- !app_assoc.
Qed.

Lemma session_selectors_spec (acts : list UserAction) :
  session_selectors acts = non_empty (non_null (map selector acts)).
Proof.
  induction acts as [|a acts IH]; [reflexivity|].
  cbn [session_selectors map]. unfold non_empty, non_null in *.
  cbn [flat_map]. rewrite filter_app, <- IH.
  destruct (selector a) as [x|]; [|reflexivity].
  simpl. now destruct (String.eqb x "").
Qed.

Lemma all_selectors_spec (ss : list ReplaySession) :
  flat_map (fun s => session_selectors (actions s)) ss
  = non_empty (non_null (selectors_of ss)).
Proof.
  induction ss as [|s ss IH]; [reflexivity|].
  unfold selectors_of, non_empty, non_null in *. cbn [flat_map].
  rewrite flat_map_app, filter_app, <- IH.
  now rewrite session_selectors_spec.
Qed.

Lemma well_typed_url (s : ReplaySession) :
  well_typed s = true -> url s = VStr (url_text s).
Proof.
  unfold well_typed, url_text. intros H.
  apply andb_true_iff in H as [H _]. apply andb_true_iff in H as [_ H].
  now destruct (url s).
Qed.

Lemma well_typed_urls (ss : list ReplaySession) :
  forallb well_typed ss = true -> map url ss = map VStr (map url_text ss).
Proof.
  induction ss as [|s ss IH]; intros H; [reflexivity|].
  simpl in H. apply andb_true_iff in H as [Hs H].
  simpl. now rewrite <- (well_typed_url s Hs), IH.
Qed.

Lemma strings_hashable (l : list string) :
  forallb hashable (map VStr l) = true.
Proof. induction l; simpl; auto. Qed.

Lemma browser_names_hashable (ss : list ReplaySession) :
  forallb browser_ok ss = true ->
  forallb hashable (map browser_name ss) = true.
Proof.
  induction ss as [|s ss IH]; intros H; [reflexivity|].
  simpl in H. apply andb_true_iff in H as [Hs H].
  simpl. now rewrite (proj2 (browser_ok_name s Hs)), IH.
Qed.

Lemma sum_lens_ok (f : ReplaySession -> result nat)
    (g : ReplaySession -> nat) (ss : list ReplaySession) :
  (forall s, In s ss -> f s = Ok (g s)) ->
  sum_lens f ss = Ok (list_sum (map g ss)).
Proof.
  induction ss as [|s ss IH]; intros H; [reflexivity|].
  simpl. rewrite (H s (or_introl eq_refl)), IH; [reflexivity|].
  intros s' Hs'. apply H. now right.
Qed.

(** The report over a collection of well-typed sessions whose browser
    entries are absent or mappings. *)
Lemma coverage_ok (ss : list ReplaySession) :
  forallb well_typed ss = true ->
  forallb browser_ok ss = true ->
  exists r,
    coverage ss = Ok r
    /\ total_sessions r = List.length ss
    /\ unique_urls r = cardinality (map url_text ss)
    /\ unique_selectors r
       = cardinality (non_empty (non_null (selectors_of ss)))
    /\ (forall k,
           count_of k (url_distribution r) = occurrences k (map url ss))
    /\ (forall k,
           count_of k (browser_distribution r)
           = occurrences k (map browser_name ss))
    /\ total_actions r
       = list_sum (map (fun s => List.length (actions s)) ss)
    /\ total_errors r = list_sum (map error_count ss).
Proof.
  intros Hwt Hb. unfold coverage.
  rewrite (collect_ok ss [] [] [] Hb). cbn [bind app].
  rewrite all_selectors_spec, (well_typed_urls ss Hwt).
  destruct (py_set_strings (map url_text ss)) as (us & -> & Hus).
  destruct (py_set_strings (non_empty (non_null (selectors_of ss))))
    as (sels & -> & Hsels).
  destruct (Counter_counts (map VStr (map url_text ss))
              (strings_hashable _)) as (ud & -> & Hud).
  destruct (Counter_counts (map browser_name ss)
              (browser_names_hashable ss Hb)) as (bd & -> & Hbd).
  rewrite (sum_lens_ok _ (fun s => List.length (actions s)) ss)
    by reflexivity.
  rewrite (sum_lens_ok _ error_count ss).
  - cbn [bind]. eexists. split; [reflexivity|]. cbn.
    rewrite !length_map. repeat split; assumption.
  - intros s Hs. apply well_typed_py_len.
    rewrite forallb_forall in Hwt. now apply Hwt.
Qed.

(** C4, as stated, fails: a selector that is the empty string is not null,
    yet the aggregator does not count it. *)
Lemma coverage_empty_selector_not_counted :
  exists r,
    analyze_coverage (mkReplayAnalyzer 0%nat) [[empty_selector_session]]
    = (Ok r, [[empty_selector_session]])
    /\ unique_selectors r = 0%nat
    /\ cardinality (non_null (selectors_of [empty_selector_session]))
       = 1%nat.
Proof. eexists. repeat split. Qed.

(** C4, amended. For every collection of well-typed sessions whose metadata
    has no browser entry or a mapping for it, the aggregator returns
    [total_sessions] equal to the length of the collection, [unique_urls]
    equal to the cardinality of the set of urls, [unique_selectors] equal to
    the cardinality of the set of selectors that are neither null nor empty,
    [total_actions] and [total_errors] equal to the sums of the per-session
    counts, and distributions that give every key the number of its
    occurrences.  For urls X, X, Y and selectors [a], [a, b], [] the report
    has 2 urls, 2 selectors and 3 actions. *)
Theorem coverage_report (self : ReplayAnalyzer) (h : heap) :
  forallb well_typed (read (sessions self) h) = true ->
  forallb browser_ok (read (sessions self) h) = true ->
  (exists r,
      analyze_coverage self h = (Ok r, h)
      /\ total_sessions r = List.length (read (sessions self) h)
      /\ unique_urls r = cardinality (map url_text (read (sessions self) h))
      /\ unique_selectors r
         = cardinality
             (non_empty (non_null (selectors_of (read (sessions self) h))))
      /\ (forall k,
             count_of k (url_distribution r)
             = occurrences k (map url (read (sessions self) h)))
      /\ (forall k,
             count_of k (browser_distribution r)
             = occurrences k (map browser_name (read (sessions self) h)))
      /\ total_actions r
         = list_sum (map (fun s => List.length (actions s))
                         (read (sessions self) h))
      /\ total_errors r
         = list_sum (map error_count (read (sessions self) h)))
  /\ (exists r,
         fst (analyze_coverage (mkReplayAnalyzer 0%nat) [coverage_example])
         = Ok r
         /\ unique_urls r = 2%nat
         /\ unique_selectors r = 2%nat
         /\ total_actions r = 3%nat).
Proof.
  intros Hwt Hb. split.
  - destruct (coverage_ok _ Hwt Hb) as (r & Hr & Hrest).
    exists r. split; [|exact Hrest].
    unfold analyze_coverage, mbind, load, lift. now rewrite Hr.
  - eexists. repeat split.
Qed.

Lemma coverage_report_witness :
  exists r,
    analyze_coverage (mkReplayAnalyzer 0%nat) [coverage_example]
    = (Ok r, [coverage_example])
    /\ total_sessions r = 3%nat
    /\ unique_urls r = 2%nat
    /\ unique_selectors r = 2%nat
    /\ total_actions r = 3%nat
    /\ total_errors r = 0%nat.
Proof.
  destruct (proj1 (coverage_report (mkReplayAnalyzer 0%nat)
                     [coverage_example] eq_refl eq_refl))
    as (r & Hr & Hn & Hu & Hs & _ & _ & Ha & He).
  exists r. repeat split; assumption.
Defined.

(** ** The sample run of [main] *)

Example main_run_result :
  exists session report h,
    main_run [] = (Ok (session, report, 2%nat), h)
    /\ replay_id session = VStr "abc123def456"
    /\ url session = VStr "https://example.com/app"
    /\ error_count session = 2%nat
    /\ total_sessions report = 1%nat
    /\ unique_urls report = 1%nat
    /\ browser_distribution report = [(VStr "Chrome", 1%nat)]
    /\ total_errors report = 2%nat
    /\ read 0%nat h = [session]
    /\ read 2%nat h = [session].
Proof. do 3 eexists. repeat split. Qed.

(** ** Further facts: the accumulated collection *)

Lemma length_write (l : loc) (xs : list ReplaySession) (h : heap) :
  List.length (write l xs h) = List.length h.
Proof.
  revert l. induction h as [|ys h IH]; intros [|l]; simpl; auto.
Qed.

Lemma read_write_same (l : loc) (xs : list ReplaySession) (h : heap) :
  valid l h -> read l (write l xs h) = xs.
Proof.
  unfold valid, read. revert l.
  induction h as [|ys h IH]; intros [|l] Hl; simpl in *; try lia;
    [reflexivity|]. apply IH. lia.
Qed.

Lemma read_write_other (l l' : loc) (xs : list ReplaySession) (h : heap) :
  l' <> l -> read l' (write l xs h) = read l' h.
Proof.
  unfold read. revert l l'.
  induction h as [|ys h IH]; intros [|l] [|l'] Hne; simpl;
    try reflexivity; try congruence.
  apply IH. congruence.
Qed.

Lemma analyze_replay_append_step (self : ReplayAnalyzer) (raw : dict)
    (h h' : heap) (s : ReplaySession) :
  valid (sessions self) h ->
  analyze_replay self raw h = (Ok s, h') ->
  read (sessions self) h' = read (sessions self) h ++ [s]
  /\ (forall l, l <> sessions self -> read l h' = read l h)
  /\ List.length h' = List.length h.
Proof.
  intros Hv. rewrite analyze_replay_unfold.
  destruct (_extract_url raw) as [u|e]; [|discriminate].
  destruct (_extract_errors raw) as [er|e]; [|discriminate].
  intros [= <- <-]. split; [now apply read_write_same|].
  split; [intros l Hl; now apply read_write_other|apply length_write].
Qed.

(** A successful call of [analyze_replay] adds the session it returns at
    the end of the accumulated collection: the sessions collected before
    keep their places, no other list object changes and none is created. *)
Theorem analyze_replay_appends (self : ReplayAnalyzer) (raw : dict)
    (h h' : heap) (s : ReplaySession) :
  valid (sessions self) h ->
  analyze_replay self raw h = (Ok s, h') ->
  read (sessions self) h' = read (sessions self) h ++ [s]
  /\ (forall l, l <> sessions self -> read l h' = read l h)
  /\ List.length h' = List.length h.
Proof. apply analyze_replay_append_step. Qed.

Lemma analyze_replay_appends_witness :
  read 0%nat
       (snd (analyze_replay (mkReplayAnalyzer 0%nat) sample_replay
               [tie_break_sessions]))
  = tie_break_sessions
    ++ [session_of sample_replay (VStr "https://example.com/app")
          (get_default "errors" VNone sample_replay)].
Proof.
  apply (proj1 (analyze_replay_appends (mkReplayAnalyzer 0%nat) sample_replay
                  [tie_break_sessions] _ _ (Nat.lt_0_succ 0) eq_refl)).
Defined.

(** When [analyze_replay] raises, it does so before it touches the
    accumulated collection: the store is left exactly as it was, with no
    half-built session in it. *)
Theorem analyze_replay_failure_keeps_store (self : ReplayAnalyzer)
    (raw : dict) (h : heap) (e : exn) :
  fst (analyze_replay self raw h) = Raise e ->
  snd (analyze_replay self raw h) = h.
Proof.
  rewrite analyze_replay_unfold.
  destruct (_extract_url raw) as [u|e1]; [|reflexivity].
  destruct (_extract_errors raw) as [er|e2]; [discriminate|reflexivity].
Qed.

Lemma analyze_replay_failure_keeps_store_witness :
  snd (analyze_replay (mkReplayAnalyzer 0%nat) raw_error_ids_number
         [tie_break_sessions])
  = [tie_break_sessions].
Proof.
  apply (analyze_replay_failure_keeps_store (mkReplayAnalyzer 0%nat)
           raw_error_ids_number [tie_break_sessions] TypeError).
  reflexivity.
Defined.

(** ** Further facts: the selector *)

Lemma int_duration_as_int (s : ReplaySession) :
  int_duration s = true -> as_int (duration s) = Ok (dur s).
Proof. unfold int_duration, dur. now destruct (duration s). Qed.

Lemma not_int_duration_raises (s : ReplaySession) :
  int_duration s = false -> as_int (duration s) = Raise TypeError.
Proof. unfold int_duration. now destruct (duration s). Qed.

Lemma filter_by_duration_int (m : Z) (l : list ReplaySession) :
  forallb int_duration l = true ->
  filter_by_duration m l = Ok (filter (long_enough m) l).
Proof.
  induction l as [|s l IH]; intros Hl; [reflexivity|].
  simpl in Hl. apply andb_true_iff in Hl as [Hs Hl].
  simpl. rewrite (int_duration_as_int s Hs), (IH Hl). reflexivity.
Qed.

Lemma filter_by_duration_raises (m : Z) (l : list ReplaySession)
    (s : ReplaySession) :
  In s l -> int_duration s = false ->
  filter_by_duration m l = Raise TypeError.
Proof.
  intros Hin Hs. induction l as [|x l IH]; [destruct Hin|].
  simpl. destruct (int_duration x) eqn:Hx.
  - rewrite (int_duration_as_int x Hx). simpl.
    destruct Hin as [->|Hin]; [congruence|]. now rewrite (IH Hin).
  - now rewrite (not_int_duration_raises x Hx).
Qed.

Lemma select_bad_duration_raises (self : ReplayAnalyzer)
    (max_sessions : Z) (prioritize_errors : bool) (min_duration : Z)
    (h : heap) (s : ReplaySession) :
  In s (read (sessions self) h) ->
  int_duration s = false ->
  select_sessions_for_testing self max_sessions prioritize_errors
                              min_duration h = (Raise TypeError, h).
Proof.
  intros Hin Hs. rewrite select_unfold.
  now rewrite (filter_by_duration_raises _ _ s Hin Hs).
Qed.

(** A session whose duration is null, a string, a list or a mapping makes
    every selection raise [TypeError], whatever the parameters, even if the
    other sessions are fine; the store is left as it was. *)
Theorem select_rejects_bad_duration (self : ReplayAnalyzer)
    (max_sessions : Z) (prioritize_errors : bool) (min_duration : Z)
    (h : heap) (s : ReplaySession) :
  In s (read (sessions self) h) ->
  int_duration s = false ->
  select_sessions_for_testing self max_sessions prioritize_errors
                              min_duration h = (Raise TypeError, h).
Proof. apply select_bad_duration_raises. Qed.

Lemma select_rejects_bad_duration_witness :
  select_sessions_for_testing (mkReplayAnalyzer 0%nat) 10 true 1000
    [tie_break_sessions
     ++ [session_of [("duration", VStr "5s")] placeholder_url (VList [])]]
  = (Raise TypeError,
     [tie_break_sessions
      ++ [session_of [("duration", VStr "5s")] placeholder_url (VList [])]]).
Proof.
  apply (select_rejects_bad_duration (mkReplayAnalyzer 0%nat) 10 true 1000 _
           (session_of [("duration", VStr "5s")] placeholder_url (VList []))).
  - simpl. tauto.
  - reflexivity.
Defined.

(** The content of the list a selection returns, in terms of the ranking. *)
Lemma select_content (self : ReplayAnalyzer) (max_sessions : Z)
    (prioritize_errors : bool) (min_duration : Z) (h : heap) :
  forallb well_typed (read (sessions self) h) = true ->
  exists h',
    select_sessions_for_testing self max_sessions prioritize_errors
                                min_duration h
    = (Ok (S (List.length h)), h')
    /\ read (S (List.length h)) h'
       = slice_to max_sessions
           (ranking prioritize_errors min_duration (read (sessions self) h))
    /\ (forall l, valid l h -> read l h' = read l h).
Proof.
  intros Hwt.
  pose proof (select_run self max_sessions prioritize_errors min_duration
                h Hwt) as Hrun.
  cbv zeta in Hrun. fold (ranking prioritize_errors min_duration
                            (read (sessions self) h)) in Hrun.
  eexists. split; [exact Hrun|]. split.
  - rewrite app_assoc.
    set (rk := ranking prioritize_errors min_duration
                       (read (sessions self) h)).
    replace (S (List.length h)) with (List.length (h ++ [rk]))
      by (rewrite length_app; simpl; lia).
    apply read_app_last.
  - intros l Hl. now apply read_app_valid.
Qed.

Lemma ranking_perm (prioritize_errors : bool) (min_duration : Z)
    (ss : list ReplaySession) :
  Permutation (ranking prioritize_errors min_duration ss)
              (filter (long_enough min_duration) ss).
Proof.
  unfold ranking.
  destruct prioritize_errors; apply sorted_by_perm.
Qed.

Lemma In_firstn {A : Type} (n : nat) (l : list A) (x : A) :
  In x (firstn n l) -> In x l.
Proof.
  intros H. rewrite <- (firstn_skipn n l). apply in_or_app. now left.
Qed.

Lemma filter_none_long_enough (m : Z) (l : list ReplaySession) :
  (forall s, In s l -> dur s < m) -> filter (long_enough m) l = [].
Proof.
  induction l as [|x l IH]; intros Hall; [reflexivity|].
  simpl. unfold long_enough at 1.
  destruct (m <=? dur x) eqn:Hx.
  - apply Z.leb_le in Hx. specialize (Hall x (or_introl eq_refl)). lia.
  - apply IH. intros s Hs. apply Hall. now right.
Qed.

(** For [max_sessions >= 0] a selection returns as many sessions as qualify,
    capped at [max_sessions]; each of them belongs to the accumulated
    collection and lasts at least [min_duration]; when no session qualifies
    the result is the empty list, not an error. *)
Theorem select_size_and_members (self : ReplayAnalyzer) (max_sessions : Z)
    (prioritize_errors : bool) (min_duration : Z) (h : heap) :
  forallb well_typed (read (sessions self) h) = true ->
  0 <= max_sessions ->
  exists r h',
    select_sessions_for_testing self max_sessions prioritize_errors
                                min_duration h = (Ok r, h')
    /\ List.length (read r h')
       = Nat.min (Z.to_nat max_sessions)
                 (List.length (filter (long_enough min_duration)
                                      (read (sessions self) h)))
    /\ (forall s,
           In s (read r h') ->
           In s (read (sessions self) h) /\ min_duration <= dur s)
    /\ ((forall s, In s (read (sessions self) h) -> dur s < min_duration) ->
        read r h' = []).
Proof.
  intros Hwt Hmax.
  destruct (select_content self max_sessions prioritize_errors min_duration
              h Hwt) as (h' & Hrun & Hread & _).
  exists (S (List.length h)), h'. split; [exact Hrun|].
  rewrite Hread, (slice_to_nonneg _ _ Hmax).
  pose proof (ranking_perm prioritize_errors min_duration
                (read (sessions self) h)) as Hperm.
  split; [|split].
  - now rewrite length_firstn, (Permutation_length Hperm).
  - intros s Hs. apply In_firstn in Hs.
    apply (Permutation_in _ Hperm) in Hs.
    apply filter_In in Hs as [Hin Hlong]. split; [exact Hin|].
    unfold long_enough in Hlong. now apply Z.leb_le.
  - intros Hall.
    rewrite (filter_none_long_enough _ _ Hall) in Hperm. apply Permutation_sym, Permutation_nil in Hperm.
    rewrite Hperm. now destruct (Z.to_nat max_sessions).
Qed.

Lemma select_size_and_members_witness :
  exists r h',
    select_sessions_for_testing (mkReplayAnalyzer 0%nat) 2 true 1000
                                [tie_break_sessions] = (Ok r, h')
    /\ List.length (read r h') = 2%nat.
Proof.
  destruct (select_size_and_members (mkReplayAnalyzer 0%nat) 2 true 1000
              [tie_break_sessions] eq_refl ltac:(lia))
    as (r & h' & Hrun & Hlen & _).
  exists r, h'. split; [exact Hrun|exact Hlen].
Defined.

(** Asking for fewer sessions gives a prefix of what asking for more gives:
    for [0 <= m <= m'] the selection of [m] sessions is the first [m]
    entries of the selection of [m'] sessions. *)
Theorem select_prefix_monotone (self : ReplayAnalyzer) (m m' : Z)
    (prioritize_errors : bool) (min_duration : Z) (h : heap) :
  forallb well_typed (read (sessions self) h) = true ->
  0 <= m -> m <= m' ->
  exists r h1 r' h2,
    select_sessions_for_testing self m prioritize_errors min_duration h
    = (Ok r, h1)
    /\ select_sessions_for_testing self m' prioritize_errors min_duration h
       = (Ok r', h2)
    /\ read r h1 = firstn (Z.to_nat m) (read r' h2).
Proof.
  intros Hwt Hm Hmm'.
  destruct (select_content self m prioritize_errors min_duration h Hwt)
    as (h1 & Hrun1 & Hread1 & _).
  destruct (select_content self m' prioritize_errors min_duration h Hwt)
    as (h2 & Hrun2 & Hread2 & _).
  exists (S (List.length h)), h1, (S (List.length h)), h2.
  split; [exact Hrun1|]. split; [exact Hrun2|].
  rewrite Hread1, Hread2, !slice_to_nonneg by lia.
  rewrite firstn_firstn. f_equal. lia.
Qed.

Lemma select_prefix_monotone_witness :
  exists r h1 r' h2,
    select_sessions_for_testing (mkReplayAnalyzer 0%nat) 1 true 1000
                                [tie_break_sessions] = (Ok r, h1)
    /\ select_sessions_for_testing (mkReplayAnalyzer 0%nat) 3 true 1000
                                   [tie_break_sessions] = (Ok r', h2)
    /\ read r h1 = firstn (Z.to_nat 1) (read r' h2).
Proof.
  apply (select_prefix_monotone (mkReplayAnalyzer 0%nat) 1 3 true 1000
           [tie_break_sessions]).
  - reflexivity.
  - lia.
  - lia.
Defined.

(** A negative [max_sessions] does not give an empty selection: the list
    returned is the ranking without its last [-max_sessions] entries (empty
    only when the ranking is no longer than that). *)
Theorem select_negative_max (self : ReplayAnalyzer) (max_sessions : Z)
    (prioritize_errors : bool) (min_duration : Z) (h : heap) :
  forallb well_typed (read (sessions self) h) = true ->
  max_sessions < 0 ->
  exists r h' dropped,
    select_sessions_for_testing self max_sessions prioritize_errors
                                min_duration h = (Ok r, h')
    /\ ranking prioritize_errors min_duration (read (sessions self) h)
       = read r h' ++ dropped
    /\ List.length dropped
       = Nat.min (Z.to_nat (- max_sessions))
                 (List.length
                    (ranking prioritize_errors min_duration
                             (read (sessions self) h))).
Proof.
  intros Hwt Hmax.
  destruct (select_content self max_sessions prioritize_errors min_duration
              h Hwt) as (h' & Hrun & Hread & _).
  set (rk := ranking prioritize_errors min_duration
                     (read (sessions self) h)) in *.
  set (n := Z.to_nat (Z.of_nat (List.length rk) + max_sessions)).
  exists (S (List.length h)), h', (skipn n rk).
  split; [exact Hrun|]. rewrite Hread. unfold slice_to.
  destruct (max_sessions <? 0) eqn:Hlt; [|apply Z.ltb_ge in Hlt; lia].
  fold n. split; [now rewrite firstn_skipn|].
  rewrite length_skipn. subst n. lia.
Qed.

Lemma select_negative_max_witness :
  exists r h' dropped,
    select_sessions_for_testing (mkReplayAnalyzer 0%nat) (-1) true 1000
                                [tie_break_sessions] = (Ok r, h')
    /\ ranking true 1000
               (read (sessions (mkReplayAnalyzer 0%nat)) [tie_break_sessions])
       = read r h' ++ dropped
    /\ List.length dropped
       = Nat.min (Z.to_nat (- (-1)))
                 (List.length
                    (ranking true 1000
                       (read (sessions (mkReplayAnalyzer 0%nat))
                             [tie_break_sessions]))).
Proof.
  apply (select_negative_max (mkReplayAnalyzer 0%nat) (-1) true 1000
           [tie_break_sessions]).
  - reflexivity.
  - lia.
Defined.

Lemma keyed_of_consistent {K : Type} (key : ReplaySession -> K)
    (L : list (K * ReplaySession)) :
  Forall (fun y => fst y = key (snd y)) L -> L = keyed key (map snd L).
Proof.
  induction 1 as [|[k s] L Hy HL IH]; [reflexivity|].
  simpl in *. subst k. unfold keyed in *. simpl. now rewrite <- IH.
Qed.

Lemma sort_desc_keyed {K : Type} (key : ReplaySession -> K)
    (ltb : K -> K -> bool) (l : list ReplaySession) :
  sort_desc ltb (keyed key l) = keyed key (sorted_by key ltb l).
Proof.
  unfold sorted_by. apply keyed_of_consistent.
  eapply Permutation_Forall; [apply Permutation_sym, sort_desc_perm|].
  unfold keyed. apply Forall_forall. intros y Hy.
  apply in_map_iff in Hy as [s [<- _]]. reflexivity.
Qed.

(** Two orders that agree on the keys of the sessions at hand insert, and
    therefore sort, in the same way. *)
Lemma insert_desc_agree {K1 K2 : Type} (k1 : ReplaySession -> K1)
    (k2 : ReplaySession -> K2) (lt1 : K1 -> K1 -> bool)
    (lt2 : K2 -> K2 -> bool) (x : ReplaySession) (l : list ReplaySession) :
  (forall y, In y l -> lt1 (k1 x) (k1 y) = lt2 (k2 x) (k2 y)) ->
  map snd (insert_desc lt1 (k1 x, x) (keyed k1 l))
  = map snd (insert_desc lt2 (k2 x, x) (keyed k2 l)).
Proof.
  induction l as [|y l IH]; intros Hagree; [reflexivity|].
  unfold keyed in *. cbn [map insert_desc fst].
  rewrite (Hagree y (or_introl eq_refl)).
  destruct (lt2 (k2 x) (k2 y)).
  - cbn [map snd]. f_equal. apply IH. intros z Hz. apply Hagree. now right.
  - cbn [map snd]. now rewrite !map_map.
Qed.

Lemma sorted_by_agree {K1 K2 : Type} (k1 : ReplaySession -> K1)
    (k2 : ReplaySession -> K2) (lt1 : K1 -> K1 -> bool)
    (lt2 : K2 -> K2 -> bool) (l : list ReplaySession) :
  (forall x y, In x l -> In y l -> lt1 (k1 x) (k1 y) = lt2 (k2 x) (k2 y)) ->
  sorted_by k1 lt1 l = sorted_by k2 lt2 l.
Proof.
  induction l as [|x l IH]; intros Hagree; [reflexivity|].
  assert (Hl : sorted_by k1 lt1 l = sorted_by k2 lt2 l).
  { apply IH. intros a b Ha Hb. apply Hagree; now right. }
  unfold sorted_by at 1 2. unfold keyed at 1 2.
  cbn [map sort_desc fold_right].
  fold (keyed k1 l). fold (keyed k2 l).
  fold (sort_desc lt1 (keyed k1 l)). fold (sort_desc lt2 (keyed k2 l)).
  rewrite !sort_desc_keyed, <- Hl.
  apply insert_desc_agree. intros y Hy. apply Hagree; [now left|right].
  eapply Permutation_in; [apply (sorted_by_perm k1 lt1 l)|exact Hy].
Qed.

(** When all the sessions that qualify have the same number of errors,
    [prioritize_errors] makes no difference: both settings return the same
    sessions in the same order.  This is the case of sessions normalized
    from records that carry neither [errors] nor [error_ids]. *)
Theorem prioritize_errors_without_effect (self : ReplayAnalyzer)
    (max_sessions min_duration : Z) (h : heap) :
  forallb well_typed (read (sessions self) h) = true ->
  (forall a b,
      In a (read (sessions self) h) -> In b (read (sessions self) h) ->
      error_count a = error_count b) ->
  exists r h1 r' h2,
    select_sessions_for_testing self max_sessions true min_duration h
    = (Ok r, h1)
    /\ select_sessions_for_testing self max_sessions false min_duration h
       = (Ok r', h2)
    /\ read r h1 = read r' h2.
Proof.
  intros Hwt Hsame.
  destruct (select_content self max_sessions true min_duration h Hwt)
    as (h1 & Hrun1 & Hread1 & _).
  destruct (select_content self max_sessions false min_duration h Hwt)
    as (h2 & Hrun2 & Hread2 & _).
  exists (S (List.length h)), h1, (S (List.length h)), h2.
  split; [exact Hrun1|]. split; [exact Hrun2|].
  rewrite Hread1, Hread2. f_equal. unfold ranking.
  apply sorted_by_agree. intros x y Hx Hy.
  apply filter_In in Hx as [Hx _]. apply filter_In in Hy as [Hy _].
  unfold lex_ltb, pair_key. cbn [fst snd].
  rewrite (Hsame x y Hx Hy), Z.ltb_irrefl, Z.eqb_refl. reflexivity.
Qed.

Lemma prioritize_errors_without_effect_witness :
  exists r h1 r' h2,
    select_sessions_for_testing (mkReplayAnalyzer 0%nat) 5 true 1000
      [[session_with "a" 1500 0; session_with "b" 3000 0]] = (Ok r, h1)
    /\ select_sessions_for_testing (mkReplayAnalyzer 0%nat) 5 false 1000
         [[session_with "a" 1500 0; session_with "b" 3000 0]] = (Ok r', h2)
    /\ read r h1 = read r' h2.
Proof.
  apply (prioritize_errors_without_effect (mkReplayAnalyzer 0%nat) 5 1000
           [[session_with "a" 1500 0; session_with "b" 3000 0]]).
  - reflexivity.
  - simpl. intros a b [<-|[<-|[]]] [<-|[<-|[]]]; reflexivity.
Defined.

(** Selecting again with the same parameters returns a list with the same
    content, held in a new list object: the first call has consumed
    nothing. *)
Theorem select_twice_same_content (self : ReplayAnalyzer) (max_sessions : Z)
    (prioritize_errors : bool) (min_duration : Z) (h : heap) :
  valid (sessions self) h ->
  forallb well_typed (read (sessions self) h) = true ->
  exists r1 h1 r2 h2,
    select_sessions_for_testing self max_sessions prioritize_errors
                                min_duration h = (Ok r1, h1)
    /\ select_sessions_for_testing self max_sessions prioritize_errors
                                   min_duration h1 = (Ok r2, h2)
    /\ read r2 h2 = read r1 h1
    /\ read r1 h2 = read r1 h1
    /\ r1 <> r2.
Proof.
  intros Hv Hwt.
  destruct (select_content self max_sessions prioritize_errors min_duration
              h Hwt) as (h1 & Hrun1 & Hread1 & Hframe1).
  assert (Hsame : read (sessions self) h1 = read (sessions self) h)
    by now apply Hframe1.
  assert (Hwt1 : forallb well_typed (read (sessions self) h1) = true)
    by now rewrite Hsame.
  destruct (select_content self max_sessions prioritize_errors min_duration
              h1 Hwt1) as (h2 & Hrun2 & Hread2 & Hframe2).
  assert (Hlen : List.length h1 = S (S (List.length h))).
  { pose proof (select_run self max_sessions prioritize_errors min_duration
                  h Hwt) as Hrun. cbv zeta in Hrun.
    rewrite Hrun in Hrun1. injection Hrun1 as <-.
    rewrite !length_app. simpl. lia. }
  exists (S (List.length h)), h1, (S (List.length h1)), h2.
  split; [exact Hrun1|]. split; [exact Hrun2|].
  split; [now rewrite Hread2, Hread1, Hsame|].
  split; [apply Hframe2; unfold valid; lia|lia].
Qed.

Lemma select_twice_same_content_witness :
  exists r1 h1 r2 h2,
    select_sessions_for_testing (mkReplayAnalyzer 0%nat) 10 true 1000
                                [tie_break_sessions] = (Ok r1, h1)
    /\ select_sessions_for_testing (mkReplayAnalyzer 0%nat) 10 true 1000 h1
       = (Ok r2, h2)
    /\ read r2 h2 = read r1 h1
    /\ read r1 h2 = read r1 h1
    /\ r1 <> r2.
Proof.
  apply (select_twice_same_content (mkReplayAnalyzer 0%nat) 10 true 1000
           [tie_break_sessions]).
  - apply Nat.lt_0_succ.
  - reflexivity.
Defined.

Lemma decorate_raises {K : Type} (key : ReplaySession -> result K)
    (l : list ReplaySession) (s : ReplaySession) :
  (forall x, In x l -> key x = Raise TypeError \/ exists k, key x = Ok k) ->
  In s l -> key s = Raise TypeError ->
  decorate key l = Raise TypeError.
Proof.
  intros Hall Hin Hs. induction l as [|x l IH]; [destruct Hin|].
  simpl. destruct (Hall x (or_introl eq_refl)) as [Hx|[k Hx]]; rewrite Hx;
    [reflexivity|]. simpl.
  destruct Hin as [->|Hin]; [congruence|].
  rewrite IH; [reflexivity| |exact Hin].
  intros y Hy. apply Hall. now right.
Qed.

Lemma sized_errors_py_len (s : ReplaySession) :
  sized_errors s = true -> py_len (errors s) = Ok (error_count s).
Proof.
  unfold sized_errors, error_count. now destruct (py_len (errors s)).
Qed.

Lemma unsized_errors_raises (s : ReplaySession) :
  sized_errors s = false -> py_len (errors s) = Raise TypeError.
Proof.
  unfold sized_errors, py_len. now destruct (errors s).
Qed.

(** When errors are not prioritized the selector never looks at the
    [errors] of a session: integer durations are all it needs, and its
    result is the ranking by duration whatever the [errors] fields hold. *)
Theorem select_by_duration_ignores_errors (self : ReplayAnalyzer)
    (max_sessions min_duration : Z) (h : heap) :
  forallb int_duration (read (sessions self) h) = true ->
  exists r h',
    select_sessions_for_testing self max_sessions false min_duration h
    = (Ok r, h')
    /\ read r h'
       = slice_to max_sessions
           (sorted_by dur Z.ltb
              (filter (long_enough min_duration) (read (sessions self) h))).
Proof.
  intros Hint. rewrite select_unfold, (filter_by_duration_int _ _ Hint).
  set (flt := filter (long_enough min_duration) (read (sessions self) h)).
  assert (Hf : forall s, In s flt -> int_duration s = true).
  { apply forallb_forall. now apply forallb_filter. }
  rewrite (decorate_ok key_duration dur)
    by (intros s Hs; now apply int_duration_as_int, Hf).
  cbn [bind]. fold (keyed dur flt). fold (sorted_by dur Z.ltb flt).
  do 2 eexists. split; [reflexivity|].
  rewrite app_assoc.
  replace (S (List.length h))
    with (List.length (h ++ [sorted_by dur Z.ltb flt]))
    by (rewrite length_app; simpl; lia).
  apply read_app_last.
Qed.

Lemma select_by_duration_ignores_errors_witness :
  exists r h',
    select_sessions_for_testing (mkReplayAnalyzer 0%nat) 10 false 1000
      [[session_of [("duration", VInt 2000); ("errors", VInt 3)]
                   placeholder_url (VInt 3)]]
    = (Ok r, h')
    /\ read r h'
       = slice_to 10
           (sorted_by dur Z.ltb
              (filter (long_enough 1000)
                 (read (sessions (mkReplayAnalyzer 0%nat))
                    [[session_of [("duration", VInt 2000); ("errors", VInt 3)]
                                 placeholder_url (VInt 3)]]))).
Proof.
  apply (select_by_duration_ignores_errors (mkReplayAnalyzer 0%nat) 10 1000
           [[session_of [("duration", VInt 2000); ("errors", VInt 3)]
                        placeholder_url (VInt 3)]]).
  reflexivity.
Defined.

(** When errors are prioritized, the selector takes the length of [errors]
    for the sessions that pass the duration filter and for no other: it
    raises [TypeError] if one of them holds errors without a length, and
    sessions that are filtered out may hold anything. *)
Theorem select_sizes_candidates_only (self : ReplayAnalyzer)
    (max_sessions min_duration : Z) (h : heap) :
  forallb int_duration (read (sessions self) h) = true ->
  (forallb sized_errors
           (filter (long_enough min_duration) (read (sessions self) h))
   = true ->
   exists r h',
     select_sessions_for_testing self max_sessions true min_duration h
     = (Ok r, h')
     /\ read r h'
        = slice_to max_sessions
            (sorted_by pair_key lex_ltb
               (filter (long_enough min_duration)
                       (read (sessions self) h))))
  /\ (forallb sized_errors
              (filter (long_enough min_duration) (read (sessions self) h))
      = false ->
      select_sessions_for_testing self max_sessions true min_duration h
      = (Raise TypeError,
         h ++ [filter (long_enough min_duration) (read (sessions self) h)])).
Proof.
  intros Hint. rewrite select_unfold, (filter_by_duration_int _ _ Hint).
  set (flt := filter (long_enough min_duration) (read (sessions self) h)).
  assert (Hf : forall s, In s flt -> int_duration s = true).
  { apply forallb_forall. now apply forallb_filter. }
  split; intros Hsz.
  - rewrite forallb_forall in Hsz.
    rewrite (decorate_ok key_errors_duration pair_key).
    + cbn [bind]. fold (keyed pair_key flt).
      fold (sorted_by pair_key lex_ltb flt).
      do 2 eexists. split; [reflexivity|].
      rewrite app_assoc.
      replace (S (List.length h))
        with (List.length (h ++ [sorted_by pair_key lex_ltb flt]))
        by (rewrite length_app; simpl; lia).
      apply read_app_last.
    + intros s Hs. unfold key_errors_duration, pair_key.
      now rewrite (sized_errors_py_len s (Hsz s Hs)),
                  (int_duration_as_int s (Hf s Hs)).
  - assert (Hex : exists s, In s flt /\ sized_errors s = false).
    { clear Hf. induction flt as [|x l IH]; [discriminate|].
      simpl in Hsz. destruct (sized_errors x) eqn:Hx.
      - destruct (IH Hsz) as (s & Hs & Hb). exists s. split; [now right|auto].
      - exists x. split; [now left|exact Hx]. }
    destruct Hex as (s & Hs & Hb).
    rewrite (decorate_raises key_errors_duration flt s); [reflexivity| |auto|].
    + intros x Hx. unfold key_errors_duration.
      rewrite (int_duration_as_int x (Hf x Hx)).
      destruct (sized_errors x) eqn:Hsx.
      * right. rewrite (sized_errors_py_len x Hsx). simpl. eauto.
      * left. now rewrite (unsized_errors_raises x Hsx).
    + unfold key_errors_duration. now rewrite (unsized_errors_raises s Hb).
Qed.

Lemma select_sizes_candidates_only_witness :
  exists r h',
    select_sessions_for_testing (mkReplayAnalyzer 0%nat) 10 true 1000
      [[session_with "a" 2000 1;
        session_of [("duration", VInt 10)] placeholder_url VNone]]
    = (Ok r, h')
    /\ read r h'
       = slice_to 10
           (sorted_by pair_key lex_ltb
              (filter (long_enough 1000)
                 (read (sessions (mkReplayAnalyzer 0%nat))
                    [[session_with "a" 2000 1;
                      session_of [("duration", VInt 10)] placeholder_url
                                 VNone]]))).
Proof.
  apply (proj1 (select_sizes_candidates_only (mkReplayAnalyzer 0%nat) 10 1000
                  [[session_with "a" 2000 1;
                    session_of [("duration", VInt 10)] placeholder_url VNone]]
                  eq_refl)).
  reflexivity.
Defined.

(** ** Further facts: the script synthesizer *)

Lemma truthy_opt_spec (o : option string) :
  truthy_opt o = true <-> exists x, o = Some x /\ x <> "".
Proof.
  destruct o as [x|]; simpl.
  - rewrite negb_true_iff. split.
    + intros H. exists x. split; [reflexivity|].
      intros ->. discriminate H.
    + intros (y & [= <-] & Hy). now apply String.eqb_neq.
  - split; [discriminate|]. now intros (y & Hy & _).
Qed.

(** An action puts a statement in the script exactly when it is a click
    with a non-empty selector, an input with a non-empty selector and a
    non-empty value, or a navigation with a non-empty target.  Every other
    action, such as an input whose value is the empty string, leaves only
    the wait statement and the empty line. *)
Theorem action_rendered_iff (a : UserAction) :
  ((exists stmt, action_lines a = [stmt; wait_stmt; ""]) <->
   (action_type a = "click"
    /\ exists sel, selector a = Some sel /\ sel <> "")
   \/ (action_type a = "input"
       /\ (exists sel, selector a = Some sel /\ sel <> "")
       /\ exists val, value a = Some val /\ val <> "")
   \/ (action_type a = "navigation"
       /\ exists tgt, target a = Some tgt /\ tgt <> ""))
  /\ ((forall stmt, action_lines a <> [stmt; wait_stmt; ""]) ->
      action_lines a = [wait_stmt; ""]).
Proof.
  rewrite <- !truthy_opt_spec.
  unfold action_lines, append_action.
  destruct (String.eqb_spec (action_type a) "click") as [Hc|Hc];
    destruct (String.eqb_spec (action_type a) "input") as [Hi|Hi];
    destruct (String.eqb_spec (action_type a) "navigation") as [Hn|Hn];
    try congruence;
    destruct (truthy_opt (selector a));
    destruct (truthy_opt (value a));
    destruct (truthy_opt (target a));
    cbn [andb app];
    (split;
     [ split;
       [ intros [stmt Hs]; try discriminate Hs; tauto
       | intros [[? ?]|[[? [? ?]]|[? ?]]]; try congruence;
         try discriminate; eexists; reflexivity ]
     | intros Hno; first [reflexivity | exfalso; eapply Hno; reflexivity] ]).
Qed.

Lemma action_rendered_iff_witness :
  action_lines (mkUserAction 0 "input" (Some "#name") (Some "") None None)
  = [wait_stmt; ""].
Proof.
  apply (proj2 (action_rendered_iff
                  (mkUserAction 0 "input" (Some "#name") (Some "") None
                                None))).
  intros stmt H. discriminate H.
Defined.

(** Rendering fails only on the identifier: [to_test_script] returns a
    script when [replay_id] is a string or a list, whatever the other fields
    hold, and raises [TypeError] when it is [None], a boolean or an integer.
    (A mapping as identifier is left out of the second part: the exception
    it raises depends on the version of Python.) *)
Theorem to_test_script_fails_on_id_only (s : ReplaySession) :
  (is_string (replay_id s) || is_list (replay_id s) = true ->
   exists script, to_test_script s = Ok script)
  /\ (is_string (replay_id s) || is_list (replay_id s)
      || is_mapping (replay_id s) = false ->
      to_test_script s = Raise TypeError).
Proof.
  unfold to_test_script, script_lines.
  destruct (replay_id s); simpl; split; intros H; try discriminate H;
    eauto.
Qed.

Lemma to_test_script_fails_on_id_only_witness :
  to_test_script (session_of [("id", VInt 42)] placeholder_url (VList []))
  = Raise TypeError.
Proof.
  apply (proj2 (to_test_script_fails_on_id_only
                  (session_of [("id", VInt 42)] placeholder_url (VList [])))).
  reflexivity.
Defined.

(** ** Further facts: the normalizer *)

Lemma analyze_replay_inv (self : ReplayAnalyzer) (raw : dict) (h h' : heap)
    (s : ReplaySession) :
  analyze_replay self raw h = (Ok s, h') ->
  exists u e,
    _extract_url raw = Ok u /\ _extract_errors raw = Ok e
    /\ s = session_of raw u e
    /\ h' = write (sessions self) (read (sessions self) h ++ [s]) h.
Proof.
  rewrite analyze_replay_unfold.
  destruct (_extract_url raw) as [u|e1]; [|discriminate].
  destruct (_extract_errors raw) as [e|e2]; [|discriminate].
  intros [= <- <-]. now exists u, e.
Qed.

(** The defaults of the normalizer stand in for missing keys only.  A
    record whose [id] is present but null yields a session whose script
    cannot be rendered; a record whose [duration] is present but null yields
    a session that makes every later selection raise [TypeError]. *)
Theorem null_fields_pass_through (self : ReplayAnalyzer) (raw : dict)
    (h h' : heap) (s : ReplaySession) :
  valid (sessions self) h ->
  analyze_replay self raw h = (Ok s, h') ->
  (dict_get "id" raw = Some VNone ->
   replay_id s = VNone /\ to_test_script s = Raise TypeError)
  /\ (dict_get "duration" raw = Some VNone ->
      duration s = VNone
      /\ forall max_sessions prioritize_errors min_duration,
           select_sessions_for_testing self max_sessions prioritize_errors
                                       min_duration h'
           = (Raise TypeError, h')).
Proof.
  intros Hv Hrun.
  destruct (analyze_replay_append_step self raw h h' s Hv Hrun) as (Happ & _).
  destruct (analyze_replay_inv self raw h h' s Hrun) as (u & e & _ & _ & -> & _).
  split.
  - intros Hid. unfold session_of, get_default. cbn [replay_id].
    rewrite Hid. split; reflexivity.
  - intros Hd.
    assert (Hdur : duration (session_of raw u e) = VNone).
    { unfold session_of, get_default. cbn [duration]. now rewrite Hd. }
    split; [exact Hdur|]. intros mx pe md.
    apply (select_bad_duration_raises self mx pe md h' (session_of raw u e)).
    + rewrite Happ. apply in_or_app. right. now left.
    + unfold int_duration. now rewrite Hdur.
Qed.

Lemma null_fields_pass_through_witness :
  to_test_script (session_of [("id", VNone)] placeholder_url (VList []))
  = Raise TypeError.
Proof.
  apply (proj1 (null_fields_pass_through (mkReplayAnalyzer 0%nat)
                  [("id", VNone)] [[]] _ _ (Nat.lt_0_succ 0) eq_refl)).
  reflexivity.
Defined.

(** Error extraction.  An [errors] field is taken as it is, whatever its
    type, and [error_ids] is then not even looked at.  Without an [errors]
    field, [error_ids] gives one record per element it iterates to (per
    character if it is a string), each holding that element under ["id"]
    and nothing else.  With neither field there are no errors, whatever the
    [error_count] field of the record says. *)
Theorem error_extraction (raw : dict) :
  (forall e, dict_get "errors" raw = Some e -> _extract_errors raw = Ok e)
  /\ (forall ids l,
         dict_get "errors" raw = None ->
         dict_get "error_ids" raw = Some ids ->
         iterate ids = Ok l ->
         exists records,
           _extract_errors raw = Ok (VList records)
           /\ List.length records = List.length l
           /\ forall i eid,
                nth_error l i = Some eid ->
                nth_error records i = Some (VDict [("id", eid)]))
  /\ (dict_get "errors" raw = None -> dict_get "error_ids" raw = None ->
      _extract_errors raw = Ok (VList [])
      /\ forall self h s,
           fst (analyze_replay self raw h) = Ok s ->
           error_count s = 0%nat
           /\ dict_get "error_count" (metadata s)
              = Some (get_default "error_count" (VInt 0) raw)).
Proof.
  unfold _extract_errors. split; [|split].
  - now intros e ->.
  - intros ids l -> -> ->. cbn [bind]. eexists. split; [reflexivity|].
    split; [apply length_map|].
    intros i eid Hi. now rewrite nth_error_map, Hi.
  - intros He Hi. rewrite He, Hi. split; [reflexivity|].
    intros self h s. rewrite analyze_replay_unfold.
    destruct (_extract_url raw) as [u|e1]; [|discriminate].
    unfold _extract_errors. rewrite He, Hi. cbn [fst].
    intros [= <-]. split; reflexivity.
Qed.

Lemma error_extraction_witness :
  exists records,
    _extract_errors [("error_ids", VStr "ab")] = Ok (VList records)
    /\ List.length records = 2%nat.
Proof.
  destruct (proj1 (proj2 (error_extraction [("error_ids", VStr "ab")]))
              (VStr "ab") [VStr "a"; VStr "b"] eq_refl eq_refl eq_refl)
    as (records & Hr & Hlen & _).
  exists records. split; [exact Hr|exact Hlen].
Defined.

(** ** Further facts: the coverage aggregator *)

Lemma collect_bad_browser (ss : list ReplaySession) (s : ReplaySession)
    (acc : list pyval * list string * list pyval) :
  In s ss -> bad_browser s = true -> collect ss acc = Raise AttributeError.
Proof.
  intros Hin Hbad. revert acc.
  induction ss as [|x ss IH]; intros [[us sl] bs]; [destruct Hin|].
  cbn [collect collect_step].
  destruct (method_get (get_default "browser" (VDict []) (metadata x))
                       "name" VNone) as [name|e] eqn:Hx.
  - cbn [bind]. destruct Hin as [->|Hin]; [|now apply IH].
    exfalso. unfold bad_browser, get_default in *.
    destruct (dict_get "browser" (metadata s)) as [b|]; [|discriminate].
    destruct b; discriminate.
  - unfold method_get in Hx.
    destruct (get_default "browser" (VDict []) (metadata x));
      inversion Hx; reflexivity.
Qed.

(** A record whose [browser] field is present but is not a mapping (null,
    or a plain name) is normalized without complaint, and from then on the
    coverage analysis of the analyzer raises [AttributeError]. *)
Theorem non_mapping_browser_breaks_coverage (self : ReplayAnalyzer)
    (raw : dict) (h h' : heap) (s : ReplaySession) (b : pyval) :
  valid (sessions self) h ->
  analyze_replay self raw h = (Ok s, h') ->
  dict_get "browser" raw = Some b -> is_mapping b = false ->
  analyze_coverage self h' = (Raise AttributeError, h').
Proof.
  intros Hv Hrun Hb Hm.
  destruct (analyze_replay_append_step self raw h h' s Hv Hrun) as (Happ & _).
  destruct (analyze_replay_inv self raw h h' s Hrun) as (u & e & _ & _ & Hs & _).
  unfold analyze_coverage, mbind, load, lift, coverage.
  rewrite (collect_bad_browser _ s); [reflexivity| |].
  - rewrite Happ. apply in_or_app. right. now left.
  - subst s. unfold bad_browser, session_of, build_metadata, get_default.
    cbn. rewrite Hb. now destruct b.
Qed.

Lemma non_mapping_browser_breaks_coverage_witness :
  analyze_coverage (mkReplayAnalyzer 0%nat)
    (snd (analyze_replay (mkReplayAnalyzer 0%nat) [("browser", VNone)] [[]]))
  = (Raise AttributeError,
     snd (analyze_replay (mkReplayAnalyzer 0%nat) [("browser", VNone)] [[]])).
Proof.
  apply (non_mapping_browser_breaks_coverage (mkReplayAnalyzer 0%nat)
           [("browser", VNone)] [[]] _ _ VNone (Nat.lt_0_succ 0) eq_refl
           eq_refl eq_refl).
Defined.

Lemma set_step_raise (xs : list pyval) (e : exn) :
  fold_left set_step xs (Raise e) = Raise e.
Proof. induction xs; simpl; auto. Qed.

Lemma counter_step_raise (xs : list pyval) (e : exn) :
  fold_left counter_step xs (Raise e) = Raise e.
Proof. induction xs; simpl; auto. Qed.

Lemma set_add_length (v : pyval) (s : list pyval) :
  (List.length s <= List.length (set_add v s) <= S (List.length s))%nat
  /\ (1 <= List.length (set_add v s))%nat.
Proof.
  induction s as [|k s IH]; simpl; [lia|].
  destruct (py_eqb k v); simpl; lia.
Qed.

Lemma set_fold_length (xs acc s : list pyval) :
  fold_left set_step xs (Ok acc) = Ok s ->
  (List.length acc <= List.length s <= List.length acc + List.length xs)%nat
  /\ (xs <> [] -> 1 <= List.length s)%nat.
Proof.
  revert acc. induction xs as [|v xs IH]; intros acc H.
  - simpl in H. injection H as <-. split; [lia|congruence].
  - cbn [fold_left set_step bind] in H. destruct (hashable v).
    + destruct (IH _ H) as [Hlen _].
      pose proof (set_add_length v acc). simpl. split; [lia|]. intros _. lia.
    + now rewrite set_step_raise in H.
Qed.

Lemma counter_add_keys (v : pyval) (c : list (pyval * nat)) :
  map fst (counter_add v c) = set_add v (map fst c).
Proof.
  induction c as [|[k n] c IH]; [reflexivity|].
  simpl. destruct (py_eqb k v); simpl; now rewrite ?IH.
Qed.

Lemma counter_add_sum (v : pyval) (c : list (pyval * nat)) :
  list_sum (map snd (counter_add v c)) = S (list_sum (map snd c)).
Proof.
  induction c as [|[k n] c IH]; [reflexivity|].
  simpl. destruct (py_eqb k v); simpl; [lia|]. rewrite IH. lia.
Qed.

Lemma counter_fold_sum (xs : list pyval) (c c' : list (pyval * nat)) :
  fold_left counter_step xs (Ok c) = Ok c' ->
  list_sum (map snd c') = (list_sum (map snd c) + List.length xs)%nat
  /\ fold_left set_step xs (Ok (map fst c)) = Ok (map fst c').
Proof.
  revert c. induction xs as [|v xs IH]; intros c H.
  - simpl in H. injection H as <-. simpl. split; [lia|reflexivity].
  - cbn [fold_left counter_step set_step bind] in *. destruct (hashable v).
    + destruct (IH _ H) as [Hsum Hkeys].
      rewrite counter_add_sum in Hsum. rewrite counter_add_keys in Hkeys.
      simpl. split; [lia|exact Hkeys].
    + now rewrite counter_step_raise in H.
Qed.

Lemma collect_inv (ss : list ReplaySession) (us us' : list pyval)
    (sl sl' : list string) (bs bs' : list pyval) :
  collect ss (us, sl, bs) = Ok (us', sl', bs') ->
  us' = us ++ map url ss
  /\ sl' = sl ++ flat_map (fun s => session_selectors (actions s)) ss
  /\ List.length bs' = (List.length bs + List.length ss)%nat.
Proof.
  revert us sl bs. induction ss as [|s ss IH]; intros us sl bs H.
  - simpl in H. injection H as <- <- <-. simpl.
    rewrite !app_nil_r. repeat split. lia.
  - cbn [collect collect_step] in H.
    destruct (method_get (get_default "browser" (VDict []) (metadata s))
                         "name" VNone) as [name|e]; [|discriminate].
    cbn [bind] in H. destruct (IH _ _ _ H) as (-> & -> & Hlen).
    rewrite length_app in Hlen. simpl in *.
    rewrite <- !app_assoc. repeat split. lia.
Qed.

Lemma session_selectors_length (acts : list UserAction) :
  (List.length (session_selectors acts) <= List.length acts)%nat.
Proof.
  induction acts as [|a acts IH]; simpl; [lia|].
  destruct (selector a) as [x|]; [|lia].
  destruct (negb (String.eqb x "")); simpl; lia.
Qed.

Lemma all_selectors_length (ss : list ReplaySession) :
  (List.length (flat_map (fun s => session_selectors (actions s)) ss)
   <= list_sum (map (fun s => List.length (actions s)) ss))%nat.
Proof.
  induction ss as [|s ss IH]; simpl; [lia|].
  rewrite length_app. pose proof (session_selectors_length (actions s)). lia.
Qed.

Lemma sum_lens_actions (ss : list ReplaySession) :
  sum_lens (fun s => Ok (List.length (actions s))) ss
  = Ok (list_sum (map (fun s => List.length (actions s)) ss)).
Proof. now apply sum_lens_ok. Qed.

(** Every report the aggregator returns is consistent with itself: there are
    no more distinct urls than sessions and at least one if there is a
    session, the url distribution has one key per distinct url, the counts
    of each distribution add up to the number of sessions, and there are no
    more distinct selectors than actions.  The store is not touched. *)
Theorem coverage_report_consistent (self : ReplayAnalyzer) (h h' : heap)
    (r : CoverageReport) :
  analyze_coverage self h = (Ok r, h') ->
  h' = h
  /\ total_sessions r = List.length (read (sessions self) h)
  /\ (unique_urls r <= total_sessions r)%nat
  /\ (read (sessions self) h <> [] -> 1 <= unique_urls r)%nat
  /\ List.length (url_distribution r) = unique_urls r
  /\ list_sum (map snd (url_distribution r)) = total_sessions r
  /\ list_sum (map snd (browser_distribution r)) = total_sessions r
  /\ (unique_selectors r <= total_actions r)%nat.
Proof.
  unfold analyze_coverage, mbind, load, lift, coverage.
  set (ss := read (sessions self) h).
  destruct (collect ss ([], [], [])) as [[[us sl] bs]|e] eqn:Hc;
    [|discriminate].
  destruct (collect_inv ss [] us [] sl [] bs Hc) as (Hus & Hsl & Hbs).
  cbn [bind app] in *. simpl in Hbs.
  destruct (py_set us) as [uset|e] eqn:Hu; [|discriminate]. cbn [bind].
  destruct (py_set (map VStr sl)) as [sset|e] eqn:Hs; [|discriminate].
  cbn [bind].
  destruct (Counter us) as [ud|e] eqn:Hud; [|discriminate]. cbn [bind].
  destruct (Counter bs) as [bd|e] eqn:Hbd; [|discriminate]. cbn [bind].
  rewrite sum_lens_actions. cbn [bind].
  destruct (sum_lens (fun s => py_len (errors s)) ss) as [ne|e];
    [|discriminate].
  cbn [bind]. intros [= <- <-].
  cbn [total_sessions unique_urls unique_selectors url_distribution
       browser_distribution total_actions total_errors].
  destruct (set_fold_length us [] uset Hu) as [Hulen Hupos].
  destruct (set_fold_length _ [] sset Hs) as [Hslen _].
  destruct (counter_fold_sum us [] ud Hud) as [Hudsum Hudkeys].
  destruct (counter_fold_sum bs [] bd Hbd) as [Hbdsum _].
  assert (Hlen_us : List.length us = List.length ss)
    by (rewrite Hus; apply length_map).
  simpl in *. rewrite length_map in Hslen.
  split; [reflexivity|]. split; [reflexivity|]. split; [lia|].
  split.
  { intros Hne. apply Hupos. rewrite Hus. destruct ss; [congruence|].
    discriminate. }
  split.
  { assert (Heq : Ok uset = Ok (map fst ud))
      by exact (eq_trans (eq_sym Hu) Hudkeys).
    injection Heq as ->. symmetry. apply length_map. }
  split; [lia|]. split; [lia|].
  pose proof (all_selectors_length ss). rewrite Hsl in Hslen. lia.
Qed.

Lemma coverage_report_consistent_witness :
  exists r,
    analyze_coverage (mkReplayAnalyzer 0%nat) [coverage_example]
    = (Ok r, [coverage_example])
    /\ (unique_urls r <= total_sessions r)%nat.
Proof.
  eexists. split; [reflexivity|].
  apply (coverage_report_consistent (mkReplayAnalyzer 0%nat)
           [coverage_example] [coverage_example] _ eq_refl).
Defined.

(** ** Further facts: the export *)

Lemma grows_refl (w : world) : grows w w.
Proof. split; exists []; now rewrite app_nil_r. Qed.

Lemma grows_trans (w1 w2 w3 : world) :
  grows w1 w2 -> grows w2 w3 -> grows w1 w3.
Proof.
  intros [[e1 H1] [t1 T1]] [[e2 H2] [t2 T2]]. split.
  - exists (e1 ++ e2). now rewrite H2, H1, app_assoc.
  - exists (t1 ++ t2). now rewrite T2, T1, app_assoc.
Qed.

Lemma growing_bind {A B : Type} (m : IO A) (k : A -> IO B) :
  growing m -> (forall a, growing (k a)) -> growing (io_bind m k).
Proof.
  intros Hm Hk w. unfold io_bind. specialize (Hm w).
  destruct (m w) as [[a|e|] w']; simpl in *; [|exact Hm|exact Hm].
  eapply grows_trans; [exact Hm|apply Hk].
Qed.

Lemma growing_ret {A : Type} (a : A) : growing (io_ret a).
Proof. intros w. apply grows_refl. Qed.

Lemma growing_perform (sink_ok : list event -> event -> bool) (ev : event) :
  growing (perform sink_ok ev).
Proof.
  intros w. unfold perform. destruct (sink_ok (trace w) ev); simpl.
  - split; [exists []; now rewrite app_nil_r|now exists [ev]].
  - apply grows_refl.
Qed.

Lemma growing_run {A : Type} (m : M A) :
  (forall h, exists ext, snd (m h) = h ++ ext) -> growing (run m).
Proof.
  intros Hm w. unfold run. destruct (Hm (heap_of w)) as [ext Hext].
  destruct (m (heap_of w)) as [[a|e] h']; simpl in *; subst h';
    (split; [now exists ext|exists []; now rewrite app_nil_r]).
Qed.

Lemma growing_run_lift {A : Type} (r : result A) : growing (run (lift r)).
Proof.
  apply growing_run. intros h. exists []. unfold lift. simpl.
  now rewrite app_nil_r.
Qed.

Lemma growing_export_each (sink_ok : list event -> event -> bool)
    (output_dir : string) (selected : list ReplaySession) :
  growing (export_each sink_ok output_dir selected).
Proof.
  induction selected as [|s rest IH]; [apply growing_ret|].
  cbn [export_each]. apply growing_bind; [|intros _; exact IH].
  unfold export_one.
  apply growing_bind; [apply growing_run_lift|intros t].
  apply growing_bind; [apply growing_run_lift|intros v].
  apply growing_bind; [apply growing_perform|intros _].
  apply growing_perform.
Qed.

Lemma growing_export (sink_ok : list event -> event -> bool) (now : string)
    (self : ReplayAnalyzer) (output_dir : string) :
  growing (export_for_testing sink_ok now self output_dir).
Proof.
  unfold export_for_testing.
  apply growing_bind; [apply growing_perform|intros _].
  apply growing_bind.
  { apply growing_run. intros h.
    destruct (select_extends self default_max_sessions
                default_prioritize_errors default_min_duration h)
      as [ext [Hext _]]. now exists ext. }
  intros at_.
  apply growing_bind.
  { apply growing_run. intros h. exists []. unfold load. simpl.
    now rewrite app_nil_r. }
  intros selected.
  apply growing_bind; [apply growing_export_each|intros _].
  apply growing_bind.
  { apply growing_run. intros h. exists [].
    unfold analyze_coverage, mbind, load, lift. simpl.
    now rewrite app_nil_r. }
  intros report.
  apply growing_bind; [apply growing_run_lift|intros digs].
  apply growing_bind; [apply growing_perform|intros _].
  apply growing_bind; [apply growing_perform|intros _].
  apply growing_perform.
Qed.

(** Whatever the environment accepts or refuses and however the export
    ends, it only adds to the world: the events performed before stay in
    the history, followed by the new ones (nothing written is taken back),
    and every list object of the store, the accumulated collection among
    them, is as it was. *)
Theorem export_only_adds (sink_ok : list event -> event -> bool)
    (now : string) (self : ReplayAnalyzer) (output_dir : string)
    (w : world) :
  valid (sessions self) (heap_of w) ->
  (exists evs,
      trace (snd (export_for_testing sink_ok now self output_dir w))
      = trace w ++ evs)
  /\ (forall l,
         valid l (heap_of w) ->
         read l (heap_of (snd (export_for_testing sink_ok now self
                                 output_dir w)))
         = read l (heap_of w))
  /\ read (sessions self)
          (heap_of (snd (export_for_testing sink_ok now self output_dir w)))
     = read (sessions self) (heap_of w).
Proof.
  intros Hv.
  destruct (growing_export sink_ok now self output_dir w)
    as [[ext Hext] Hevs].
  split; [exact Hevs|]. rewrite Hext.
  split; [intros l Hl; now apply read_app_valid|now apply read_app_valid].
Qed.

Lemma export_only_adds_witness :
  read 0%nat
       (heap_of (snd (export_for_testing accepting "2024-01-01T00:00:00"
                        (mkReplayAnalyzer 0%nat) "./tests"
                        (mkWorld [tie_break_sessions] []))))
  = tie_break_sessions.
Proof.
  apply (proj2 (proj2 (export_only_adds accepting "2024-01-01T00:00:00"
                         (mkReplayAnalyzer 0%nat) "./tests"
                         (mkWorld [tie_break_sessions] [])
                         (Nat.lt_0_succ 0)))).
Defined.

Lemma select_prioritized_run (self : ReplayAnalyzer)
    (max_sessions min_duration : Z) (h : heap) :
  forallb int_duration (read (sessions self) h) = true ->
  forallb sized_errors
          (filter (long_enough min_duration) (read (sessions self) h))
  = true ->
  select_sessions_for_testing self max_sessions true min_duration h
  = (Ok (S (List.length h)),
     h ++ [ranking true min_duration (read (sessions self) h)]
       ++ [slice_to max_sessions
             (ranking true min_duration (read (sessions self) h))]).
Proof.
  intros Hint Hsz. rewrite select_unfold, (filter_by_duration_int _ _ Hint).
  unfold ranking.
  set (flt := filter (long_enough min_duration) (read (sessions self) h))
    in *.
  assert (Hf : forall s, In s flt -> int_duration s = true).
  { apply forallb_forall. now apply forallb_filter. }
  rewrite forallb_forall in Hsz.
  rewrite (decorate_ok key_errors_duration pair_key); [reflexivity|].
  intros s Hs. unfold key_errors_duration, pair_key.
  now rewrite (sized_errors_py_len s (Hsz s Hs)),
              (int_duration_as_int s (Hf s Hs)).
Qed.

Lemma sliceable_to_test_script (s : ReplaySession) :
  sliceable_id s = true ->
  to_test_script s = Ok (script_text s)
  /\ exists v, slice8 (replay_id s) = Ok v /\ py_str v = id8_text s.
Proof.
  unfold sliceable_id, script_text, id8_text, to_test_script, script_lines.
  destruct (replay_id s); simpl; try discriminate; intros _;
    (split; [reflexivity|eexists; split; reflexivity]).
Qed.

Lemma export_one_ok (output_dir : string) (s : ReplaySession) (h : heap)
    (tr : list event) :
  sliceable_id s = true ->
  export_one accepting output_dir s (mkWorld h tr)
  = (Done tt, mkWorld h (tr ++ script_events output_dir s)).
Proof.
  intros Hs. destruct (sliceable_to_test_script s Hs) as (Ht & v & Hv & Hid).
  unfold export_one, io_bind, run, lift, perform, accepting, script_events.
  cbn [heap_of trace]. rewrite Ht, Hv. cbn [heap_of trace].
  now rewrite Hid, <- app_assoc.
Qed.

Lemma export_one_fail (sink_ok : list event -> event -> bool)
    (output_dir : string) (s : ReplaySession) (h : heap) (tr : list event) :
  sliceable_id s = false ->
  export_one sink_ok output_dir s (mkWorld h tr)
  = (Failed TypeError, mkWorld h tr).
Proof.
  intros Hs. unfold export_one, io_bind, run, lift.
  unfold sliceable_id in Hs. unfold to_test_script, script_lines.
  cbn [heap_of trace]. now destruct (replay_id s).
Qed.

Lemma export_each_ok (output_dir : string) (l : list ReplaySession)
    (h : heap) (tr : list event) :
  forallb sliceable_id l = true ->
  export_each accepting output_dir l (mkWorld h tr)
  = (Done tt, mkWorld h (tr ++ flat_map (script_events output_dir) l)).
Proof.
  revert tr. induction l as [|s l IH]; intros tr Hl.
  - simpl. unfold io_ret. now rewrite app_nil_r.
  - simpl in Hl. apply andb_true_iff in Hl as [Hs Hl].
    cbn [export_each flat_map]. unfold io_bind at 1.
    rewrite (export_one_ok _ _ _ _ Hs), (IH _ Hl).
    now rewrite <- app_assoc.
Qed.

Lemma export_each_stops (output_dir : string)
    (pre post : list ReplaySession) (bad : ReplaySession) (h : heap)
    (tr : list event) :
  forallb sliceable_id pre = true -> sliceable_id bad = false ->
  export_each accepting output_dir (pre ++ bad :: post) (mkWorld h tr)
  = (Failed TypeError,
     mkWorld h (tr ++ flat_map (script_events output_dir) pre)).
Proof.
  revert tr. induction pre as [|s pre IH]; intros tr Hpre Hbad.
  - cbn [app export_each flat_map]. unfold io_bind.
    rewrite (export_one_fail _ _ _ _ _ Hbad). now rewrite app_nil_r.
  - simpl in Hpre. apply andb_true_iff in Hpre as [Hs Hpre].
    cbn [app export_each flat_map]. unfold io_bind at 1.
    rewrite (export_one_ok _ _ _ _ Hs), (IH _ Hpre Hbad).
    now rewrite <- app_assoc.
Qed.

Lemma digests_ok (l : list ReplaySession) :
  forallb sized_errors l = true -> digests l = Ok (map digest_of l).
Proof.
  induction l as [|s l IH]; intros Hl; [reflexivity|].
  simpl in Hl. apply andb_true_iff in Hl as [Hs Hl].
  cbn [digests map]. unfold digest at 1.
  rewrite (sized_errors_py_len s Hs), (IH Hl). reflexivity.
Qed.

Lemma well_typed_int_duration (s : ReplaySession) :
  well_typed s = true -> int_duration s = true.
Proof.
  unfold well_typed, int_duration. intros H.
  apply andb_true_iff in H as [H _]. apply andb_true_iff in H as [H _].
  now apply andb_true_iff in H as [_ H].
Qed.

Lemma well_typed_sized_errors (s : ReplaySession) :
  well_typed s = true -> sized_errors s = true.
Proof.
  intros H. unfold sized_errors. now rewrite (well_typed_py_len s H).
Qed.

Lemma well_typed_sliceable (s : ReplaySession) :
  well_typed s = true -> sliceable_id s = true.
Proof.
  unfold well_typed, sliceable_id. intros H.
  apply andb_true_iff in H as [H _]. apply andb_true_iff in H as [H _].
  apply andb_true_iff in H as [H _]. now rewrite H.
Qed.

Lemma forallb_impl {A : Type} (p q : A -> bool) (l : list A) :
  (forall x, p x = true -> q x = true) ->
  forallb p l = true -> forallb q l = true.
Proof.
  intros Hpq. rewrite !forallb_forall. auto.
Qed.

Lemma default_selection_in (ss : list ReplaySession) (s : ReplaySession) :
  In s (default_selection ss) -> In s ss.
Proof.
  unfold default_selection. rewrite slice_to_nonneg by (cbv; discriminate).
  intros Hs. apply In_firstn in Hs.
  apply (Permutation_in _ (ranking_perm _ _ ss)) in Hs.
  now apply filter_In in Hs as [Hs _].
Qed.

Lemma forallb_default_selection (p : ReplaySession -> bool)
    (ss : list ReplaySession) :
  forallb p ss = true -> forallb p (default_selection ss) = true.
Proof.
  rewrite !forallb_forall. intros H s Hs.
  now apply H, default_selection_in.
Qed.

Lemma export_for_testing_parts (sink_ok : list event -> event -> bool)
    (now : string) (self : ReplayAnalyzer) (output_dir : string) :
  export_for_testing sink_ok now self output_dir
  = (_ <! perform sink_ok (MakeDirs output_dir) ;;
     selected_at <! run (select_sessions_for_testing self
                           default_max_sessions default_prioritize_errors
                           default_min_duration) ;;
     selected <! run (load selected_at) ;;
     _ <! export_each sink_ok output_dir selected ;;
     write_summary sink_ok now self output_dir selected).
Proof. reflexivity. Qed.

(** The export up to the loop over the selected sessions, in an accepting
    environment. *)
Lemma export_until_loop (now : string) (self : ReplayAnalyzer)
    (output_dir : string) (h : heap) (tr : list event) :
  forallb int_duration (read (sessions self) h) = true ->
  forallb sized_errors
          (filter (long_enough default_min_duration) (read (sessions self) h))
  = true ->
  export_for_testing accepting now self output_dir (mkWorld h tr)
  = io_bind (export_each accepting output_dir
               (default_selection (read (sessions self) h)))
            (fun _ => write_summary accepting now self output_dir
                        (default_selection (read (sessions self) h)))
            (mkWorld
               (h ++ [ranking true default_min_duration
                              (read (sessions self) h)]
                  ++ [default_selection (read (sessions self) h)])
               (tr ++ [MakeDirs output_dir])).
Proof.
  intros Hint Hsz. rewrite export_for_testing_parts.
  unfold io_bind at 1. unfold perform at 1, accepting at 1.
  cbn [heap_of trace].
  unfold io_bind at 1. unfold run at 1. cbn [heap_of trace].
  unfold default_prioritize_errors at 1.
  rewrite (select_prioritized_run self default_max_sessions
             default_min_duration h Hint Hsz).
  unfold io_bind at 1. unfold run at 1, load at 1. cbn [heap_of trace].
  set (rk := ranking true default_min_duration (read (sessions self) h)).
  assert (Hsel : slice_to default_max_sessions rk
                 = default_selection (read (sessions self) h))
    by reflexivity.
  rewrite Hsel.
  set (sel := default_selection (read (sessions self) h)).
  assert (Hread : read (S (List.length h)) (h ++ [rk] ++ [sel]) = sel).
  { rewrite app_assoc.
    replace (S (List.length h)) with (List.length (h ++ [rk]))
      by (rewrite length_app; simpl; lia).
    apply read_app_last. }
  now rewrite Hread.
Qed.

Lemma write_summary_ok (now : string) (self : ReplayAnalyzer)
    (output_dir : string) (selected : list ReplaySession) (h : heap)
    (tr : list event) (report : CoverageReport) :
  coverage (read (sessions self) h) = Ok report ->
  forallb sized_errors selected = true ->
  write_summary accepting now self output_dir selected (mkWorld h tr)
  = (Done tt,
     mkWorld h
       (tr ++ summary_events output_dir
                (mkSummary now (List.length selected) report
                           (map digest_of selected)))).
Proof.
  intros Hc Hsz.
  unfold write_summary, io_bind, run, analyze_coverage, mbind, load, lift,
    perform, accepting, summary_events.
  cbn [heap_of trace]. rewrite Hc. cbn [heap_of trace].
  rewrite (digests_ok selected Hsz). cbn [heap_of trace total_tests].
  now rewrite <- !app_assoc.
Qed.

Lemma append_length (a b : string) :
  String.length (a ++ b)%string = (String.length a + String.length b)%nat.
Proof. induction a as [|c a IH]; simpl; [reflexivity|now rewrite IH]. Qed.

Lemma append_inj_l (a b c : string) : (a ++ b = a ++ c)%string -> b = c.
Proof.
  induction a as [|x a IH]; simpl; [auto|]. intros [= H]. auto.
Qed.

Lemma append_inj_r (a b c : string) : (a ++ c = b ++ c)%string -> a = b.
Proof.
  revert b. induction a as [|x a IH]; intros [|y b] H; simpl in H.
  - reflexivity.
  - apply (f_equal String.length) in H. simpl in H.
    rewrite append_length in H. lia.
  - apply (f_equal String.length) in H. simpl in H.
    rewrite append_length in H. lia.
  - injection H as -> H. f_equal. now apply IH.
Qed.

Lemma test_path_inj (output_dir a b : string) :
  test_path output_dir a = test_path output_dir b -> a = b.
Proof.
  unfold test_path. intros H. apply append_inj_l in H.
  simpl in H. injection H as H. now apply append_inj_r in H.
Qed.

Lemma test_path_not_summary (output_dir a : string) :
  test_path output_dir a <> summary_path output_dir.
Proof.
  unfold test_path, summary_path. intros H. apply append_inj_l in H.
  discriminate H.
Qed.

Lemma file_at_app (path : string) (t1 t2 : list event) :
  file_at path (t1 ++ t2)
  = match file_at path t2 with
    | Some c => Some c
    | None => file_at path t1
    end.
Proof.
  induction t1 as [|ev t1 IH]; simpl.
  - now destruct (file_at path t2).
  - rewrite IH. now destruct (file_at path t2).
Qed.

Lemma file_at_script_events (output_dir path : string) (s : ReplaySession) :
  file_at path (script_events output_dir s)
  = if String.eqb (test_path output_dir (id8_text s)) path
    then Some (ScriptText (script_text s))
    else None.
Proof. reflexivity. Qed.

Lemma file_at_other_scripts (output_dir : string) (s : ReplaySession)
    (l : list ReplaySession) :
  (forall s', In s' l -> id8_text s' <> id8_text s) ->
  file_at (test_path output_dir (id8_text s))
          (flat_map (script_events output_dir) l) = None.
Proof.
  induction l as [|x l IH]; intros Hne; [reflexivity|].
  cbn [flat_map]. rewrite file_at_app, IH by (intros s' Hs'; apply Hne; now right).
  rewrite file_at_script_events.
  destruct (String.eqb_spec (test_path output_dir (id8_text x))
                            (test_path output_dir (id8_text s))) as [H|H];
    [|reflexivity].
  apply test_path_inj in H. exfalso. apply (Hne x); [now left|exact H].
Qed.

Lemma file_at_summary_events (output_dir path : string) (doc : Summary) :
  file_at path (summary_events output_dir doc)
  = if String.eqb (summary_path output_dir) path
    then Some (SummaryJson doc)
    else None.
Proof. reflexivity. Qed.

Lemma no_summary_in_scripts (output_dir : string) (l : list ReplaySession) :
  file_at (summary_path output_dir) (flat_map (script_events output_dir) l)
  = None.
Proof.
  induction l as [|x l IH]; [reflexivity|].
  cbn [flat_map]. rewrite file_at_app, IH, file_at_script_events.
  destruct (String.eqb_spec (test_path output_dir (id8_text x))
                            (summary_path output_dir)) as [H|H];
    [|reflexivity].
  now apply test_path_not_summary in H.
Qed.

(** The complete export of well-typed sessions in an accepting
    environment. *)
Lemma export_run_ok (now : string) (self : ReplayAnalyzer)
    (output_dir : string) (h : heap) (tr : list event) :
  valid (sessions self) h ->
  forallb well_typed (read (sessions self) h) = true ->
  forallb browser_ok (read (sessions self) h) = true ->
  exists report,
    coverage (read (sessions self) h) = Ok report
    /\ export_for_testing accepting now self output_dir (mkWorld h tr)
       = (Done tt,
          mkWorld
            (h ++ [ranking true default_min_duration (read (sessions self) h)]
               ++ [default_selection (read (sessions self) h)])
            (tr ++ [MakeDirs output_dir]
                ++ flat_map (script_events output_dir)
                            (default_selection (read (sessions self) h))
                ++ summary_events output_dir
                     (mkSummary now
                        (List.length
                           (default_selection (read (sessions self) h)))
                        report
                        (map digest_of
                             (default_selection (read (sessions self) h)))))).
Proof.
  intros Hv Hwt Hb.
  destruct (coverage_ok _ Hwt Hb) as (report & Hc & _).
  exists report. split; [exact Hc|].
  rewrite export_until_loop.
  - unfold io_bind.
    rewrite export_each_ok
      by (apply forallb_default_selection;
          exact (forallb_impl _ _ _ well_typed_sliceable Hwt)).
    rewrite (write_summary_ok now self output_dir _ _ _ report).
    + now rewrite <- !app_assoc.
    + rewrite read_app_valid by exact Hv. exact Hc.
    + apply forallb_default_selection.
      exact (forallb_impl _ _ _ well_typed_sized_errors Hwt).
  - exact (forallb_impl _ _ _ well_typed_int_duration Hwt).
  - apply forallb_filter.
    exact (forallb_impl _ _ _ well_typed_sized_errors Hwt).
Qed.

Lemma default_selection_length (ss : list ReplaySession) :
  (List.length (default_selection ss) <= 10)%nat.
Proof.
  unfold default_selection. rewrite slice_to_nonneg by (cbv; discriminate).
  rewrite length_firstn. change (Z.to_nat default_max_sessions) with 10%nat.
  lia.
Qed.

(** In an environment that accepts every operation, the export of
    well-typed sessions whose [browser] entry, if any, is a mapping with a
    hashable or absent name performs, in this order: the creation of the
    directory; for each session of the default selection (10 sessions at
    most, errors first, at least one second long), in ranking order, the
    write of its script to [<dir>/replay-<first 8 characters of the
    id>.spec.ts] and a progress line; the write of the summary, which counts
    the selected sessions and holds the coverage report of the whole
    collection and one digest per selected session; two closing lines.
    Parameters given to other selections play no part. *)
Theorem export_complete (now : string) (self : ReplayAnalyzer)
    (output_dir : string) (h : heap) (tr : list event) :
  valid (sessions self) h ->
  forallb well_typed (read (sessions self) h) = true ->
  forallb browser_ok (read (sessions self) h) = true ->
  exists report h',
    fst (analyze_coverage self h) = Ok report
    /\ export_for_testing accepting now self output_dir (mkWorld h tr)
       = (Done tt,
          mkWorld h'
            (tr ++ [MakeDirs output_dir]
                ++ flat_map (script_events output_dir)
                            (default_selection (read (sessions self) h))
                ++ summary_events output_dir
                     (mkSummary now
                        (List.length
                           (default_selection (read (sessions self) h)))
                        report
                        (map digest_of
                             (default_selection (read (sessions self) h))))))
    /\ (List.length (default_selection (read (sessions self) h)) <= 10)%nat
    /\ default_selection (read (sessions self) h)
       = firstn 10 (ranking true 1000 (read (sessions self) h)).
Proof.
  intros Hv Hwt Hb.
  destruct (export_run_ok now self output_dir h tr Hv Hwt Hb)
    as (report & Hc & Hrun).
  exists report. eexists. split.
  { unfold analyze_coverage, mbind, load, lift. now rewrite Hc. }
  split; [exact Hrun|]. split; [apply default_selection_length|].
  unfold default_selection. now rewrite slice_to_nonneg by (cbv; discriminate).
Qed.

Lemma export_complete_witness :
  exists report h',
    fst (analyze_coverage (mkReplayAnalyzer 0%nat) [tie_break_sessions])
    = Ok report
    /\ export_for_testing accepting "2024-01-01T00:00:00"
         (mkReplayAnalyzer 0%nat) "./tests" (mkWorld [tie_break_sessions] [])
       = (Done tt,
          mkWorld h'
            ([] ++ [MakeDirs "./tests"]
                ++ flat_map (script_events "./tests")
                     (default_selection
                        (read (sessions (mkReplayAnalyzer 0%nat))
                              [tie_break_sessions]))
                ++ summary_events "./tests"
                     (mkSummary "2024-01-01T00:00:00"
                        (List.length
                           (default_selection
                              (read (sessions (mkReplayAnalyzer 0%nat))
                                    [tie_break_sessions])))
                        report
                        (map digest_of
                           (default_selection
                              (read (sessions (mkReplayAnalyzer 0%nat))
                                    [tie_break_sessions]))))))
    /\ (List.length
          (default_selection
             (read (sessions (mkReplayAnalyzer 0%nat)) [tie_break_sessions]))
        <= 10)%nat
    /\ default_selection
         (read (sessions (mkReplayAnalyzer 0%nat)) [tie_break_sessions])
       = firstn 10
           (ranking true 1000
              (read (sessions (mkReplayAnalyzer 0%nat))
                    [tie_break_sessions])).
Proof.
  apply (export_complete "2024-01-01T00:00:00" (mkReplayAnalyzer 0%nat)
           "./tests" [tie_break_sessions] []).
  - apply Nat.lt_0_succ.
  - reflexivity.
  - reflexivity.
Defined.

(** After a complete export the file of a selected session holds the script
    of the last selected session whose identifier starts with the same 8
    characters: sessions that share this prefix share the file name, and
    each overwrites the one before.  The summary file holds the summary. *)
Theorem export_last_writer_wins (now : string) (self : ReplayAnalyzer)
    (output_dir : string) (h : heap) (tr : list event)
    (pre post : list ReplaySession) (s : ReplaySession) :
  valid (sessions self) h ->
  forallb well_typed (read (sessions self) h) = true ->
  forallb browser_ok (read (sessions self) h) = true ->
  default_selection (read (sessions self) h) = pre ++ s :: post ->
  (forall s', In s' post -> id8_text s' <> id8_text s) ->
  file_at (test_path output_dir (id8_text s))
          (trace (snd (export_for_testing accepting now self output_dir
                         (mkWorld h tr))))
  = Some (ScriptText (script_text s))
  /\ exists doc,
       file_at (summary_path output_dir)
               (trace (snd (export_for_testing accepting now self output_dir
                              (mkWorld h tr))))
       = Some (SummaryJson doc)
       /\ total_tests doc = List.length (pre ++ s :: post).
Proof.
  intros Hv Hwt Hb Hsel Hlast.
  destruct (export_run_ok now self output_dir h tr Hv Hwt Hb)
    as (report & _ & Hrun).
  rewrite Hrun. cbn [snd trace]. rewrite Hsel.
  set (doc := mkSummary now (List.length (pre ++ s :: post)) report
                        (map digest_of (pre ++ s :: post))).
  rewrite !(file_at_app _ tr), !(file_at_app _ [MakeDirs output_dir]).
  rewrite !(file_at_app _ (flat_map (script_events output_dir)
                                    (pre ++ s :: post))).
  rewrite !file_at_summary_events. split.
  - destruct (String.eqb_spec (summary_path output_dir)
                              (test_path output_dir (id8_text s))) as [H|_];
      [symmetry in H; now apply test_path_not_summary in H|].
    rewrite flat_map_app. cbn [flat_map].
    rewrite (file_at_app _ (flat_map (script_events output_dir) pre)).
    rewrite (file_at_app _ (script_events output_dir s)).
    rewrite (file_at_other_scripts output_dir s post Hlast).
    rewrite file_at_script_events. now rewrite String.eqb_refl.
  - exists doc. split; [|reflexivity]. now rewrite String.eqb_refl.
Qed.

Lemma export_last_writer_wins_witness :
  file_at (test_path "./tests" "abcdefgh")
          (trace (snd (export_for_testing accepting "2024-01-01T00:00:00"
                         (mkReplayAnalyzer 0%nat) "./tests"
                         (mkWorld [[session_with "abcdefgh-1" 3000 0;
                                    session_with "abcdefgh-2" 2000 0]] []))))
  = Some (ScriptText (script_text (session_with "abcdefgh-2" 2000 0))).
Proof.
  apply (proj1 (export_last_writer_wins "2024-01-01T00:00:00"
                  (mkReplayAnalyzer 0%nat) "./tests"
                  [[session_with "abcdefgh-1" 3000 0;
                    session_with "abcdefgh-2" 2000 0]] []
                  [session_with "abcdefgh-1" 3000 0] []
                  (session_with "abcdefgh-2" 2000 0)
                  (Nat.lt_0_succ 0) eq_refl eq_refl eq_refl
                  (fun s' (H : In s' []) => match H with end))).
Defined.

(** The export has no recovery.  If a selected session cannot be rendered
    (its identifier is [None], a boolean or an integer), the export raises
    [TypeError] at that session: the scripts of the sessions ranked before
    it have been written and stay, those ranked after it are not written,
    and no summary is written. *)
Theorem export_stops_at_unrenderable (now : string) (self : ReplayAnalyzer)
    (output_dir : string) (h : heap) (tr : list event)
    (pre post : list ReplaySession) (bad : ReplaySession) :
  forallb int_duration (read (sessions self) h) = true ->
  forallb sized_errors
          (filter (long_enough default_min_duration) (read (sessions self) h))
  = true ->
  default_selection (read (sessions self) h) = pre ++ bad :: post ->
  forallb sliceable_id pre = true ->
  sliceable_id bad = false ->
  is_mapping (replay_id bad) = false ->
  exists h',
    export_for_testing accepting now self output_dir (mkWorld h tr)
    = (Failed TypeError,
       mkWorld h'
         (tr ++ [MakeDirs output_dir]
             ++ flat_map (script_events output_dir) pre))
    /\ file_at (summary_path output_dir)
               (tr ++ [MakeDirs output_dir]
                   ++ flat_map (script_events output_dir) pre)
       = file_at (summary_path output_dir) tr.
Proof.
  intros Hint Hsz Hsel Hpre Hbad _. eexists. split.
  - rewrite (export_until_loop now self output_dir h tr Hint Hsz).
    unfold io_bind. rewrite Hsel.
    rewrite (export_each_stops output_dir pre post bad _ _ Hpre Hbad).
    now rewrite <- app_assoc.
  - rewrite (file_at_app _ tr), (file_at_app _ [MakeDirs output_dir]).
    now rewrite no_summary_in_scripts.
Qed.

Lemma export_stops_at_unrenderable_witness :
  exists h',
    export_for_testing accepting "2024-01-01T00:00:00"
      (mkReplayAnalyzer 0%nat) "./tests"
      (mkWorld [[session_with "first" 3000 0;
                 session_of [("id", VNone); ("duration", VInt 2000)]
                            placeholder_url (VList []);
                 session_with "third" 1500 0]] [])
    = (Failed TypeError,
       mkWorld h'
         ([] ++ [MakeDirs "./tests"]
             ++ flat_map (script_events "./tests")
                         [session_with "first" 3000 0]))
    /\ file_at (summary_path "./tests")
               ([] ++ [MakeDirs "./tests"]
                   ++ flat_map (script_events "./tests")
                               [session_with "first" 3000 0])
       = file_at (summary_path "./tests") [].
Proof.
  apply (export_stops_at_unrenderable "2024-01-01T00:00:00"
           (mkReplayAnalyzer 0%nat) "./tests"
           [[session_with "first" 3000 0;
             session_of [("id", VNone); ("duration", VInt 2000)]
                        placeholder_url (VList []);
             session_with "third" 1500 0]] []
           [session_with "first" 3000 0] [session_with "third" 1500 0]
           (session_of [("id", VNone); ("duration", VInt 2000)]
                       placeholder_url (VList []))).
  - reflexivity.
  - reflexivity.
  - reflexivity.
  - reflexivity.
  - reflexivity.
  - reflexivity.
Defined.

Lemma write_summary_coverage_fails (now : string) (self : ReplayAnalyzer)
    (output_dir : string) (selected : list ReplaySession) (h : heap)
    (tr : list event) (e : exn) :
  coverage (read (sessions self) h) = Raise e ->
  write_summary accepting now self output_dir selected (mkWorld h tr)
  = (Failed e, mkWorld h tr).
Proof.
  intros Hc.
  unfold write_summary, io_bind, run, analyze_coverage, mbind, load, lift.
  cbn [heap_of trace]. now rewrite Hc.
Qed.

(** The scripts are written before the coverage is computed.  If the
    coverage analysis raises (for example on a session whose browser entry
    is not a mapping), the export raises the same exception after all the
    scripts of the selection have been written, and writes no summary. *)
Theorem export_scripts_before_coverage (now : string)
    (self : ReplayAnalyzer) (output_dir : string) (h : heap)
    (tr : list event) (e : exn) :
  valid (sessions self) h ->
  forallb int_duration (read (sessions self) h) = true ->
  forallb sized_errors
          (filter (long_enough default_min_duration) (read (sessions self) h))
  = true ->
  forallb sliceable_id (default_selection (read (sessions self) h)) = true ->
  fst (analyze_coverage self h) = Raise e ->
  exists h',
    export_for_testing accepting now self output_dir (mkWorld h tr)
    = (Failed e,
       mkWorld h'
         (tr ++ [MakeDirs output_dir]
             ++ flat_map (script_events output_dir)
                         (default_selection (read (sessions self) h))))
    /\ file_at (summary_path output_dir)
               (tr ++ [MakeDirs output_dir]
                   ++ flat_map (script_events output_dir)
                               (default_selection (read (sessions self) h)))
       = file_at (summary_path output_dir) tr.
Proof.
  intros Hv Hint Hsz Hsl Hcov. eexists. split.
  - rewrite (export_until_loop now self output_dir h tr Hint Hsz).
    unfold io_bind. rewrite (export_each_ok output_dir _ _ _ Hsl).
    rewrite (write_summary_coverage_fails now self output_dir _ _ _ e).
    + now rewrite <- app_assoc.
    + rewrite read_app_valid by exact Hv.
      unfold analyze_coverage, mbind, load, lift in Hcov. exact Hcov.
  - rewrite (file_at_app _ tr), (file_at_app _ [MakeDirs output_dir]).
    now rewrite no_summary_in_scripts.
Qed.

Lemma export_scripts_before_coverage_witness :
  exists h',
    export_for_testing accepting "2024-01-01T00:00:00"
      (mkReplayAnalyzer 0%nat) "./tests"
      (mkWorld [[session_of [("id", VStr "abc"); ("duration", VInt 2000);
                             ("browser", VNone)]
                            placeholder_url (VList [])]] [])
    = (Failed AttributeError,
       mkWorld h'
         ([] ++ [MakeDirs "./tests"]
             ++ flat_map (script_events "./tests")
                  (default_selection
                     (read (sessions (mkReplayAnalyzer 0%nat))
                        [[session_of [("id", VStr "abc");
                                      ("duration", VInt 2000);
                                      ("browser", VNone)]
                                     placeholder_url (VList [])]]))))
    /\ file_at (summary_path "./tests")
               ([] ++ [MakeDirs "./tests"]
                   ++ flat_map (script_events "./tests")
                        (default_selection
                           (read (sessions (mkReplayAnalyzer 0%nat))
                              [[session_of [("id", VStr "abc");
                                            ("duration", VInt 2000);
                                            ("browser", VNone)]
                                           placeholder_url (VList [])]])))
       = file_at (summary_path "./tests") [].
Proof.
  apply (export_scripts_before_coverage "2024-01-01T00:00:00"
           (mkReplayAnalyzer 0%nat) "./tests"
           [[session_of [("id", VStr "abc"); ("duration", VInt 2000);
                         ("browser", VNone)]
                        placeholder_url (VList [])]] [] AttributeError).
  - apply Nat.lt_0_succ.
  - reflexivity.
  - reflexivity.
  - reflexivity.
  - reflexivity.
Defined.

(** ** Further facts: successive calls of the normalizer *)

Lemma valid_write (l l' : loc) (xs : list ReplaySession) (h : heap) :
  valid l' h -> valid l' (write l xs h).
Proof. unfold valid. now rewrite length_write. Qed.

Lemma analyze_each_run (self : ReplayAnalyzer) (raws : list dict) (h : heap) :
  valid (sessions self) h ->
  forallb well_shaped raws = true ->
  exists ss h',
    analyze_each self raws h = (Ok ss, h')
    /\ read (sessions self) h' = read (sessions self) h ++ ss
    /\ List.length ss = List.length raws
    /\ valid (sessions self) h'
    /\ (forall l, l <> sessions self -> read l h' = read l h).
Proof.
  revert h. induction raws as [|raw raws IH]; intros h Hv Hw.
  - exists [], h. simpl. rewrite app_nil_r. repeat split; auto.
  - simpl in Hw. apply andb_true_iff in Hw as [Hraw Hw].
    destruct (extract_url_shaped raw Hraw) as [u Hu].
    destruct (extract_errors_shaped raw Hraw) as [e He].
    pose proof (analyze_replay_unfold self raw h) as Hs.
    rewrite Hu, He in Hs. set (s := session_of raw u e) in *.
    assert (Hv1 : valid (sessions self)
                        (write (sessions self)
                               (read (sessions self) h ++ [s]) h))
      by now apply valid_write.
    destruct (IH _ Hv1 Hw) as (ss & h' & Hrun & Hread & Hlen & Hv' & Hfr).
    exists (s :: ss), h'.
    cbn [analyze_each]. unfold mbind at 1. rewrite Hs.
    unfold mbind at 1. rewrite Hrun. unfold ret.
    split; [reflexivity|]. split.
    { rewrite Hread, read_write_same by exact Hv.
      now rewrite <- app_assoc. }
    split; [simpl; now rewrite Hlen|]. split; [exact Hv'|].
    intros l Hl. rewrite (Hfr l Hl). now apply read_write_other.
Qed.

Lemma coverage_total (ss : list ReplaySession) (r : CoverageReport) :
  coverage ss = Ok r -> total_sessions r = List.length ss.
Proof.
  unfold coverage.
  destruct (collect ss ([], [], [])) as [[[us sl] bs]|e]; [|discriminate].
  cbn [bind].
  destruct (py_set us) as [uset|e]; [|discriminate]. cbn [bind].
  destruct (py_set (map VStr sl)) as [sset|e]; [|discriminate]. cbn [bind].
  destruct (Counter us) as [ud|e]; [|discriminate]. cbn [bind].
  destruct (Counter bs) as [bd|e]; [|discriminate]. cbn [bind].
  destruct (sum_lens (fun s => Ok (List.length (actions s))) ss) as [na|e];
    [|discriminate]. cbn [bind].
  destruct (sum_lens (fun s => py_len (errors s)) ss) as [ne|e];
    [|discriminate]. cbn [bind].
  now intros [= <-].
Qed.

(** Successive calls of [analyze_replay] on well-shaped records all succeed
    and add their sessions to the accumulated collection one after the
    other, in call order and after the sessions that were there; no other
    list object changes.  A coverage report computed afterwards counts the
    old sessions and one session per record. *)
Theorem analyze_each_accumulates (self : ReplayAnalyzer) (raws : list dict)
    (h : heap) :
  valid (sessions self) h ->
  forallb well_shaped raws = true ->
  exists ss h',
    analyze_each self raws h = (Ok ss, h')
    /\ read (sessions self) h' = read (sessions self) h ++ ss
    /\ List.length ss = List.length raws
    /\ (forall l, l <> sessions self -> read l h' = read l h)
    /\ (forall report,
           fst (analyze_coverage self h') = Ok report ->
           total_sessions report
           = (List.length (read (sessions self) h) + List.length raws)%nat).
Proof.
  intros Hv Hw.
  destruct (analyze_each_run self raws h Hv Hw)
    as (ss & h' & Hrun & Hread & Hlen & _ & Hfr).
  exists ss, h'. split; [exact Hrun|]. split; [exact Hread|].
  split; [exact Hlen|]. split; [exact Hfr|].
  intros report Hrep.
  unfold analyze_coverage, mbind, load, lift in Hrep. cbn [fst] in Hrep.
  rewrite (coverage_total _ _ Hrep), Hread, length_app. lia.
Qed.

Lemma analyze_each_accumulates_witness :
  exists ss h',
    analyze_each (mkReplayAnalyzer 0%nat) [sample_replay; raw_url_and_tag]
                 [tie_break_sessions] = (Ok ss, h')
    /\ read 0%nat h' = tie_break_sessions ++ ss
    /\ List.length ss = 2%nat.
Proof.
  destruct (analyze_each_accumulates (mkReplayAnalyzer 0%nat)
              [sample_replay; raw_url_and_tag] [tie_break_sessions]
              (Nat.lt_0_succ 0) eq_refl)
    as (ss & h' & Hrun & Hread & Hlen & _).
  exists ss, h'. split; [exact Hrun|]. split; [exact Hread|exact Hlen].
Defined.

(** The accumulation has no rollback: if the record after a run of
    well-shaped records makes the normalizer raise, the sessions of the
    records before it are in the accumulated collection and the records
    after it are not looked at. *)
Theorem analyze_each_stops_at_failure (self : ReplayAnalyzer)
    (pre post : list dict) (bad : dict) (h : heap) (e : exn) :
  valid (sessions self) h ->
  forallb well_shaped pre = true ->
  (forall h0, fst (analyze_replay self bad h0) = Raise e) ->
  exists ss h',
    analyze_each self (pre ++ bad :: post) h = (Raise e, h')
    /\ read (sessions self) h' = read (sessions self) h ++ ss
    /\ List.length ss = List.length pre.
Proof.
  revert h. induction pre as [|raw pre IH]; intros h Hv Hw Hbad.
  - exists [], h. cbn [app analyze_each]. unfold mbind at 1.
    pose proof (Hbad h) as Hb.
    pose proof (analyze_replay_unfold self bad h) as Hu.
    destruct (analyze_replay self bad h) as [[s|e'] h1]; cbn [fst] in Hb;
      [discriminate|]. injection Hb as ->.
    destruct (_extract_url bad) as [u|e1].
    + destruct (_extract_errors bad) as [er|e2]; [discriminate|].
      injection Hu as _ ->. split; [reflexivity|].
      now rewrite app_nil_r.
    + injection Hu as _ ->. split; [reflexivity|]. now rewrite app_nil_r.
  - simpl in Hw. apply andb_true_iff in Hw as [Hraw Hw].
    destruct (extract_url_shaped raw Hraw) as [u Hu].
    destruct (extract_errors_shaped raw Hraw) as [er He].
    pose proof (analyze_replay_unfold self raw h) as Hs.
    rewrite Hu, He in Hs. set (s := session_of raw u er) in *.
    assert (Hv1 : valid (sessions self)
                        (write (sessions self)
                               (read (sessions self) h ++ [s]) h))
      by now apply valid_write.
    destruct (IH _ Hv1 Hw Hbad) as (ss & h' & Hrun & Hread & Hlen).
    exists (s :: ss), h'.
    cbn [app analyze_each]. unfold mbind at 1. rewrite Hs.
    unfold mbind at 1. rewrite Hrun.
    split; [reflexivity|]. split.
    + rewrite Hread, read_write_same by exact Hv. now rewrite <- app_assoc.
    + simpl. now rewrite Hlen.
Qed.

Lemma analyze_each_stops_at_failure_witness :
  exists ss h',
    analyze_each (mkReplayAnalyzer 0%nat)
                 ([sample_replay] ++ raw_urls_number :: [raw_url_and_tag])
                 [[]] = (Raise TypeError, h')
    /\ read 0%nat h' = read 0%nat [[]] ++ ss
    /\ List.length ss = 1%nat.
Proof.
  apply (analyze_each_stops_at_failure (mkReplayAnalyzer 0%nat)
           [sample_replay] [raw_url_and_tag] raw_urls_number [[]] TypeError).
  - apply Nat.lt_0_succ.
  - reflexivity.
  - intros h0. reflexivity.
Defined.

(** ** Further facts: the pagination cursors *)

Lemma prefix_nil (s : string) : prefix "" s = true.
Proof. now destruct s. Qed.

Lemma prefix_char (c x : ascii) (s : string) :
  prefix (String c "") (String x s) = Ascii.eqb x c.
Proof.
  cbn [prefix]. destruct (ascii_dec c x) as [->|H].
  - now rewrite prefix_nil, Ascii.eqb_refl.
  - symmetry. apply Ascii.eqb_neq. congruence.
Qed.

Lemma split_go_char_length (c : ascii) (s cur : string) :
  List.length (split_go (String c "") s 0 cur) = S (count_char c s).
Proof.
  revert cur. induction s as [|x s IH]; intros cur; [reflexivity|].
  cbn [split_go count_char]. rewrite prefix_char.
  destruct (Ascii.eqb x c); cbn [String.length Nat.sub List.length];
    now rewrite IH.
Qed.

Lemma split_char_length (c : ascii) (s : string) :
  List.length (split (String c "") s) = S (count_char c s).
Proof. apply split_go_char_length. Qed.

Lemma parse_link_skips (pg : Pagination) (link : string) :
  count_char ";" link <> 1%nat -> parse_link pg link = pg.
Proof.
  intros H. unfold parse_link. rewrite split_char_length.
  destruct (Nat.eqb_spec (S (count_char ";" link)) 2) as [E|E];
    [lia|reflexivity].
Qed.



Lemma append_assoc (a b c : string) :
  ((a ++ b) ++ c = a ++ (b ++ c))%string.
Proof. induction a as [|x a IH]; simpl; [reflexivity|now rewrite IH]. Qed.

Lemma append_nil_r (a : string) : (a ++ "")%string = a.
Proof. induction a as [|x a IH]; simpl; [reflexivity|now rewrite IH]. Qed.

Lemma chars_app (a b : string) :
  list_ascii_of_string (a ++ b)
  = list_ascii_of_string a ++ list_ascii_of_string b.
Proof. induction a as [|x a IH]; simpl; [reflexivity|now rewrite IH]. Qed.

Lemma contains_app (c : ascii) (a b : string) :
  contains c (a ++ b) = contains c a || contains c b.
Proof. unfold contains. now rewrite chars_app, existsb_app. Qed.

Lemma contains_cons (c x : ascii) (s : string) :
  contains c (String x s) = Ascii.eqb c x || contains c s.
Proof. reflexivity. Qed.

Lemma plain_cons (x : ascii) (s : string) :
  plain (String x s) = plain_char x && plain s.
Proof. reflexivity. Qed.

(** A plain string holds none of the punctuation characters. *)
Lemma plain_not_contains (c : ascii) (s : string) :
  plain s = true -> contains c ",;&<>=" = true -> contains c s = false.
Proof.
  intros Hs Hc. induction s as [|x s IH]; [reflexivity|].
  rewrite plain_cons in Hs. apply andb_true_iff in Hs as [Hx Hs].
  rewrite contains_cons, (IH Hs), orb_false_r.
  destruct (Ascii.eqb_spec c x) as [->|]; [|reflexivity].
  unfold plain_char in Hx. apply andb_true_iff in Hx as [_ Hx].
  now rewrite Hc in Hx.
Qed.

Lemma split_go_char_none (c : ascii) (s cur : string) :
  contains c s = false ->
  split_go (String c "") s 0 cur = [(cur ++ s)%string].
Proof.
  revert cur. induction s as [|x s IH]; intros cur H.
  - simpl. now rewrite append_nil_r.
  - rewrite contains_cons in H. apply orb_false_iff in H as [Hx Hs].
    cbn [split_go]. rewrite prefix_char, Ascii.eqb_sym, Hx.
    rewrite (IH _ Hs), append_assoc. reflexivity.
Qed.

Lemma split_go_char_app (c : ascii) (a b cur : string) :
  contains c a = false ->
  split_go (String c "") (a ++ String c b) 0 cur
  = (cur ++ a)%string :: split_go (String c "") b 0 "".
Proof.
  revert cur. induction a as [|x a IH]; intros cur H.
  - cbn [append split_go]. rewrite prefix_char, Ascii.eqb_refl.
    now rewrite append_nil_r.
  - rewrite contains_cons in H. apply orb_false_iff in H as [Hx Ha].
    cbn [append split_go]. rewrite prefix_char, Ascii.eqb_sym, Hx.
    rewrite (IH _ Ha), append_assoc. reflexivity.
Qed.

Lemma split_char_none (c : ascii) (s : string) :
  contains c s = false -> split (String c "") s = [s].
Proof. intros H. unfold split. now rewrite split_go_char_none. Qed.

Lemma split_char_app (c : ascii) (a b : string) :
  contains c a = false ->
  split (String c "") (a ++ String c b) = a :: split (String c "") b.
Proof. intros H. unfold split. now rewrite split_go_char_app. Qed.

Lemma prefix_cursor_none (s : string) :
  contains "=" s = false -> prefix "cursor=" s = false.
Proof.
  intros H.
  next_char s x1. next_char s x2. next_char s x3. next_char s x4.
  next_char s x5. next_char s x6. next_char s x7.
  discriminate H.
Qed.

Lemma prefix_cursor_false (a b : string) :
  a <> "" -> contains "=" a = false ->
  prefix "cursor=" (a ++ "cursor=" ++ b) = false.
Proof.
  intros Hne H. destruct a as [|x1 a]; [congruence|].
  cbn [append prefix].
  destruct (ascii_dec "c" x1) as [<-|]; [|reflexivity].
  next_char a x2. next_char a x3. next_char a x4. next_char a x5.
  next_char a x6. next_char a x7.
  discriminate H.
Qed.

Lemma prefix_cursor_true (b : string) : prefix "cursor=" ("cursor=" ++ b) = true.
Proof. cbn. apply prefix_nil. Qed.

Lemma split_go_cursor_none (s cur : string) :
  contains "=" s = false ->
  split_go "cursor=" s 0 cur = [(cur ++ s)%string].
Proof.
  revert cur. induction s as [|x s IH]; intros cur H.
  - simpl. now rewrite append_nil_r.
  - cbn [split_go]. rewrite (prefix_cursor_none _ H).
    rewrite contains_cons in H. apply orb_false_iff in H as [_ Hs].
    rewrite (IH _ Hs), append_assoc. reflexivity.
Qed.

Lemma split_go_cursor_app (a b cur : string) :
  contains "=" a = false ->
  split_go "cursor=" (a ++ "cursor=" ++ b) 0 cur
  = (cur ++ a)%string :: split_go "cursor=" b 0 "".
Proof.
  revert cur. induction a as [|x a IH]; intros cur H.
  - change ("" ++ "cursor=" ++ b)%string with ("cursor=" ++ b)%string.
    change ("cursor=" ++ b)%string
      with (String "c" ("ursor=" ++ b)%string) at 1.
    cbn [split_go].
    change (String "c" ("ursor=" ++ b)%string) with ("cursor=" ++ b)%string.
    rewrite prefix_cursor_true, append_nil_r. reflexivity.
  - change (String x a ++ "cursor=" ++ b)%string
      with (String x (a ++ "cursor=" ++ b)%string).
    cbn [split_go].
    change (String x (a ++ "cursor=" ++ b)%string)
      with (String x a ++ "cursor=" ++ b)%string.
    rewrite (prefix_cursor_false (String x a) b) by (congruence || exact H).
    rewrite contains_cons in H. apply orb_false_iff in H as [_ Ha].
    rewrite (IH _ Ha), append_assoc. reflexivity.
Qed.

Lemma split_cursor (a b : string) :
  contains "=" a = false -> contains "=" b = false ->
  split "cursor=" (a ++ "cursor=" ++ b) = [a; b].
Proof.
  intros Ha Hb. unfold split.
  now rewrite (split_go_cursor_app a b "" Ha), (split_go_cursor_none b "" Hb).
Qed.

Lemma string_of_chars_app (l1 l2 : list ascii) :
  string_of_list_ascii (l1 ++ l2)
  = (string_of_list_ascii l1 ++ string_of_list_ascii l2)%string.
Proof. induction l1 as [|x l1 IH]; simpl; [reflexivity|now rewrite IH]. Qed.

Lemma reverse_app (a b : string) :
  reverse (a ++ b) = (reverse b ++ reverse a)%string.
Proof.
  unfold reverse. now rewrite chars_app, rev_app_distr, string_of_chars_app.
Qed.

Lemma reverse_involutive (s : string) : reverse (reverse s) = s.
Proof.
  unfold reverse.
  now rewrite list_ascii_of_string_of_list_ascii, rev_involutive,
    string_of_list_ascii_of_string.
Qed.

Lemma rstrip_by_keep (p : ascii -> bool) (s : string) (c : ascii) :
  p c = false ->
  rstrip_by p (s ++ String c "") = (s ++ String c "")%string.
Proof.
  intros Hc. unfold rstrip_by. rewrite reverse_app.
  change (reverse (String c "")) with (String c "").
  cbn [append lstrip_by]. rewrite Hc.
  change (String c (reverse s)) with (reverse (String c "") ++ reverse s)%string.
  now rewrite <- reverse_app, reverse_involutive.
Qed.

Lemma rstrip_by_drop (p : ascii -> bool) (s : string) (c : ascii) :
  p c = true -> rstrip_by p (s ++ String c "") = rstrip_by p s.
Proof.
  intros Hc. unfold rstrip_by. rewrite reverse_app.
  change (reverse (String c "")) with (String c "").
  cbn [append lstrip_by]. now rewrite Hc.
Qed.

Lemma last_char (s : string) :
  s <> "" -> exists s' c, s = (s' ++ String c "")%string.
Proof.
  induction s as [|x s IH]; [congruence|]. intros _.
  destruct s as [|y s].
  - now exists "", x.
  - destruct IH as (s' & c & Hs); [discriminate|].
    exists (String x s'), c. simpl. now rewrite <- Hs.
Qed.

Lemma plain_app (a b : string) : plain (a ++ b) = plain a && plain b.
Proof. unfold plain. now rewrite chars_app, forallb_app. Qed.

Lemma plain_char_not_bracket (c : ascii) :
  plain_char c = true -> contains c "<>" = false.
Proof.
  unfold plain_char. intros H. apply andb_true_iff in H as [_ H].
  apply negb_true_iff in H. unfold contains in *. simpl in *.
  repeat (apply orb_false_iff in H as [? H]).
  repeat (apply orb_false_iff; split); auto.
Qed.

Lemma plain_char_not_space (c : ascii) :
  plain_char c = true -> is_space c = false.
Proof.
  unfold plain_char. intros H. apply andb_true_iff in H as [H _].
  now apply negb_true_iff in H.
Qed.

Lemma prefix_app_self (sub b : string) : prefix sub (sub ++ b) = true.
Proof.
  induction sub as [|x sub IH]; [apply prefix_nil|].
  cbn [append prefix]. destruct (ascii_dec x x); [exact IH|congruence].
Qed.

Lemma has_sub_app (sub a b : string) : has_sub sub (a ++ sub ++ b) = true.
Proof.
  induction a as [|x a IH].
  - cbn [append]. destruct (sub ++ b)%string eqn:E; cbn [has_sub];
      rewrite <- E, prefix_app_self; reflexivity.
  - cbn [append has_sub]. rewrite IH. apply orb_true_r.
Qed.

(** The address of a canonical link, between its brackets. *)
Lemma strip_address (base cur : string) :
  plain base = true -> plain cur = true ->
  strip_chars "<>" ("<" ++ base ++ "?cursor=" ++ cur ++ ">")
  = (base ++ "?cursor=" ++ cur)%string.
Proof.
  intros Hb Hc. unfold strip_chars, strip_by.
  assert (Hl : lstrip_by (fun c => contains c "<>")
                         ("<" ++ base ++ "?cursor=" ++ cur ++ ">")
               = (base ++ "?cursor=" ++ cur ++ ">")%string).
  { cbn [append lstrip_by]. change (contains "<" "<>") with true. cbv iota.
    destruct base as [|x base]; [reflexivity|].
    rewrite plain_cons in Hb. apply andb_true_iff in Hb as [Hx _].
    cbn [append lstrip_by]. now rewrite (plain_char_not_bracket x Hx). }
  rewrite Hl.
  replace (base ++ "?cursor=" ++ cur ++ ">")%string
    with ((base ++ "?cursor=" ++ cur) ++ ">")%string
    by (now rewrite !append_assoc).
  rewrite rstrip_by_drop by reflexivity.
  destruct (string_dec cur "") as [->|Hne].
  - replace (base ++ "?cursor=" ++ "")%string
      with ((base ++ "?cursor") ++ "=")%string
      by (now rewrite !append_assoc).
    now rewrite rstrip_by_keep.
  - destruct (last_char cur Hne) as (cur' & c & ->).
    rewrite plain_app in Hc. apply andb_true_iff in Hc as [_ Hc].
    rewrite plain_cons in Hc. apply andb_true_iff in Hc as [Hc _].
    replace (base ++ "?cursor=" ++ cur' ++ String c "")%string
      with ((base ++ "?cursor=" ++ cur') ++ String c "")%string
      by (now rewrite !append_assoc).
    rewrite rstrip_by_keep; [reflexivity|].
    now apply plain_char_not_bracket.
Qed.

Lemma strip_bracketed (lead : bool) (body : string) :
  strip ((if lead then " " else "") ++ "<" ++ body ++ ">")
  = ("<" ++ body ++ ">")%string.
Proof.
  unfold strip, strip_by.
  assert (Hl : lstrip_by is_space
                 ((if lead then " " else "") ++ "<" ++ body ++ ">")
               = ("<" ++ body ++ ">")%string) by now destruct lead.
  rewrite Hl.
  replace ("<" ++ body ++ ">")%string with (("<" ++ body) ++ ">")%string
    by (now rewrite !append_assoc).
  now rewrite rstrip_by_keep.
Qed.

Lemma cursor_of_address (base cur : string) :
  plain base = true -> plain cur = true ->
  has_sub "cursor=" (base ++ "?cursor=" ++ cur) = true
  /\ cursor_of (base ++ "?cursor=" ++ cur) = cur.
Proof.
  intros Hb Hc.
  assert (E : (base ++ "?cursor=" ++ cur)%string
              = ((base ++ "?") ++ "cursor=" ++ cur)%string)
    by (now rewrite !append_assoc).
  rewrite E. split; [apply has_sub_app|].
  unfold cursor_of. rewrite split_cursor.
  - cbn [nth]. rewrite split_char_none; [reflexivity|].
    now apply plain_not_contains.
  - rewrite contains_app, (plain_not_contains "=" base Hb) by reflexivity.
    reflexivity.
  - now apply plain_not_contains.
Qed.

(** What one canonical link does to the cursors read so far. *)
Lemma parse_canonical_link (pg : Pagination) (lead is_next : bool)
    (base cur : string) :
  plain base = true -> plain cur = true ->
  parse_link pg ((if lead then " " else "")
                 ++ link_text base cur
                      (if is_next then rel_next else rel_previous))
  = if is_next
    then mkPagination (Some cur) (previous pg)
    else mkPagination (next pg) (Some cur).
Proof.
  intros Hb Hc.
  set (rel := if is_next then rel_next else rel_previous).
  set (address := ((if lead then " " else "")
                   ++ "<" ++ (base ++ "?cursor=" ++ cur) ++ ">")%string).
  assert (E : ((if lead then " " else "") ++ link_text base cur rel)%string
              = (address ++ String ";" (" " ++ rel))%string).
  { unfold address, link_text. now rewrite !append_assoc. }
  assert (Hsemi : contains ";" address = false).
  { unfold address. rewrite !contains_app.
    rewrite (plain_not_contains ";" base Hb),
            (plain_not_contains ";" cur Hc) by reflexivity.
    now destruct lead. }
  unfold parse_link. rewrite E, (split_char_app ";" address _ Hsemi).
  assert (Hrel : split ";" (" " ++ rel) = [(" " ++ rel)%string])
    by (subst rel; now destruct is_next).
  rewrite Hrel. cbn [List.length Nat.eqb negb nth].
  unfold address. rewrite strip_bracketed.
  replace ("<" ++ (base ++ "?cursor=" ++ cur) ++ ">")%string
    with ("<" ++ base ++ "?cursor=" ++ cur ++ ">")%string
    by (now rewrite !append_assoc).
  rewrite (strip_address base cur Hb Hc).
  destruct (cursor_of_address base cur Hb Hc) as [-> ->].
  subst rel. now destruct is_next.
Qed.

Lemma link_text_no_comma (base cur : string) (is_next : bool) :
  plain base = true -> plain cur = true ->
  contains "," (link_text base cur
                          (if is_next then rel_next else rel_previous))
  = false.
Proof.
  intros Hb Hc. unfold link_text. rewrite !contains_app.
  rewrite (plain_not_contains "," base Hb),
          (plain_not_contains "," cur Hc) by reflexivity.
  now destruct is_next.
Qed.

(** Round trip.  From a header made of canonical links, each an address in
    angle brackets that carries [cursor=...] followed by [; rel="next"] or
    [; rel="previous"], the parser gives back the cursors, provided the
    address and the cursor hold no space and none of [,;&<>=]: for a next
    link alone, for a previous link alone, and for both joined by a comma
    and a space, in either order. *)
Theorem parse_link_header_round_trip (base cur base' cur' : string) :
  plain base = true -> plain cur = true ->
  plain base' = true -> plain cur' = true ->
  _parse_link_header (link_text base cur rel_next)
  = mkPagination (Some cur) None
  /\ _parse_link_header (link_text base cur rel_previous)
     = mkPagination None (Some cur)
  /\ _parse_link_header
       (link_text base' cur' rel_previous ++ ", "
        ++ link_text base cur rel_next)
     = mkPagination (Some cur) (Some cur')
  /\ _parse_link_header
       (link_text base cur rel_next ++ ", "
        ++ link_text base' cur' rel_previous)
     = mkPagination (Some cur) (Some cur').
Proof.
  intros Hb Hc Hb' Hc'.
  split; [|split; [|split]].
  - unfold _parse_link_header.
    assert (Hne : String.eqb (link_text base cur rel_next) "" = false)
      by reflexivity.
    rewrite Hne.
    rewrite (split_char_none "," _ (link_text_no_comma base cur true Hb Hc)).
    cbn [fold_left].
    exact (parse_canonical_link (mkPagination None None) false true
             base cur Hb Hc).
  - unfold _parse_link_header.
    assert (Hne : String.eqb (link_text base cur rel_previous) "" = false)
      by reflexivity.
    rewrite Hne.
    rewrite (split_char_none "," _ (link_text_no_comma base cur false Hb Hc)).
    cbn [fold_left].
    exact (parse_canonical_link (mkPagination None None) false false
             base cur Hb Hc).
  - unfold _parse_link_header.
    assert (Hne : String.eqb
                    (link_text base' cur' rel_previous ++ ", "
                     ++ link_text base cur rel_next) "" = false)
      by reflexivity.
    rewrite Hne.
    change (link_text base' cur' rel_previous ++ ", "
            ++ link_text base cur rel_next)%string
      with (link_text base' cur' rel_previous
            ++ String "," (" " ++ link_text base cur rel_next))%string.
    rewrite (split_char_app "," _ _
               (link_text_no_comma base' cur' false Hb' Hc')).
    rewrite split_char_none.
    + cbn [fold_left].
      assert (H1 : parse_link (mkPagination None None)
                              (link_text base' cur' rel_previous)
                   = mkPagination None (Some cur'))
        by exact (parse_canonical_link (mkPagination None None) false false
                    base' cur' Hb' Hc').
      rewrite H1.
      exact (parse_canonical_link (mkPagination None (Some cur')) true true
               base cur Hb Hc).
    + rewrite contains_app.
      now rewrite (link_text_no_comma base cur true Hb Hc).
  - unfold _parse_link_header.
    assert (Hne : String.eqb
                    (link_text base cur rel_next ++ ", "
                     ++ link_text base' cur' rel_previous) "" = false)
      by reflexivity.
    rewrite Hne.
    change (link_text base cur rel_next ++ ", "
            ++ link_text base' cur' rel_previous)%string
      with (link_text base cur rel_next
            ++ String "," (" " ++ link_text base' cur' rel_previous))%string.
    rewrite (split_char_app "," _ _
               (link_text_no_comma base cur true Hb Hc)).
    rewrite split_char_none.
    + cbn [fold_left].
      assert (H1 : parse_link (mkPagination None None)
                              (link_text base cur rel_next)
                   = mkPagination (Some cur) None)
        by exact (parse_canonical_link (mkPagination None None) false true
                    base cur Hb Hc).
      rewrite H1.
      exact (parse_canonical_link (mkPagination (Some cur) None) true false
               base' cur' Hb' Hc').
    + rewrite contains_app.
      now rewrite (link_text_no_comma base' cur' false Hb' Hc').
Qed.

Lemma parse_link_header_round_trip_witness :
  _parse_link_header
    (link_text "https://sentry.io/api/0/organizations/o/replays/" "0:100:0"
               rel_next)
  = mkPagination (Some "0:100:0") None.
Proof.
  apply (proj1 (parse_link_header_round_trip
                  "https://sentry.io/api/0/organizations/o/replays/"
                  "0:100:0"
                  "https://sentry.io/api/0/organizations/o/replays/"
                  "0:0:1" eq_refl eq_refl eq_refl eq_refl)).
Defined.

(** ** Further facts: fetching the pages of replays *)

Lemma parse_single_next (base cur : string) :
  plain base = true -> plain cur = true ->
  _parse_link_header (link_text base cur rel_next)
  = mkPagination (Some cur) None.
Proof.
  intros Hb Hc. unfold _parse_link_header.
  assert (Hne : String.eqb (link_text base cur rel_next) "" = false)
    by reflexivity.
  rewrite Hne.
  rewrite (split_char_none "," _ (link_text_no_comma base cur true Hb Hc)).
  cbn [fold_left].
  exact (parse_canonical_link (mkPagination None None) false true
           base cur Hb Hc).
Qed.

(** One call of [list_replays] against a scripted service whose next
    response is a success with a JSON body. *)
Lemma list_replays_scripted (self : SentryReplayClient) (args : ListArgs)
    (cursor : option string) (link : option string) (v : pyval)
    (rest : list Response) (sent : list Request) (out : list string) :
  list_replays (list Response) scripted self args cursor
    (mkCstate _ (mkResponse 200 link (Some v) :: rest) sent out)
  = (COk (v, _parse_link_header
               (match link with Some l => l | None => "" end)),
     mkCstate _ rest (sent ++ [page_request self args cursor]) out).
Proof. reflexivity. Qed.

(** A turn of the loop on a page that has replays and a next cursor. *)
Lemma fetch_pages_scripted_step (self : SentryReplayClient) (args : ListArgs)
    (base : string) (d : list pyval) (c : string) (rest : list Response)
    (n : nat) (page : Z) (cursor : option string) (acc : list pyval)
    (sent : list Request) (out : list string) :
  plain base = true -> full_page (d, c) = true ->
  fetch_pages (list Response) scripted self args (S n) page cursor acc
    (mkCstate _ (page_response base (d, c) :: rest) sent out)
  = fetch_pages (list Response) scripted self args n (page + 1) (Some c)
      (acc ++ d)
      (mkCstate _ rest (sent ++ [page_request self args cursor])
         (out ++ [("Fetched page " ++ str_of_Z (page + 1)
                   ++ ", total replays: "
                   ++ str_of_Z (Z.of_nat (List.length (acc ++ d))))%string])).
Proof.
  intros Hb Hp. unfold full_page in Hp. cbn [fst snd] in Hp.
  apply andb_true_iff in Hp. destruct Hp as [Hp Hne].
  apply andb_true_iff in Hp. destruct Hp as [Hd Hc].
  cbn [fetch_pages]. unfold c_bind at 1.
  unfold page_response at 1. cbn [fst snd].
  rewrite list_replays_scripted. cbn [fst snd].
  rewrite (parse_single_next base c Hb Hc). rewrite Hd.
  cbn [negb iterate c_lift]. unfold c_bind at 1. cbn [c_lift].
  cbn [next truthy_opt]. rewrite Hne. cbn [negb].
  reflexivity.
Qed.

(** The turn on the last page, which has no [Link] header. *)
Lemma fetch_pages_scripted_last (self : SentryReplayClient) (args : ListArgs)
    (final : list pyval) (n : nat) (page : Z) (cursor : option string)
    (acc : list pyval) (sent : list Request) (out : list string) :
  fetch_pages (list Response) scripted self args (S n) page cursor acc
    (mkCstate _ [last_response final] sent out)
  = (COk (acc ++ final),
     mkCstate _ [] (sent ++ [page_request self args cursor]) out).
Proof.
  cbn [fetch_pages]. unfold c_bind at 1.
  unfold last_response at 1. rewrite list_replays_scripted.
  cbn [fst snd]. destruct final as [|x final].
  - cbn. now rewrite app_nil_r.
  - reflexivity.
Qed.

Lemma fetch_pages_scripted (self : SentryReplayClient) (args : ListArgs)
    (base : string) (final : list pyval) :
  plain base = true ->
  forall pages, forallb full_page pages = true ->
  forall (n : nat) (page : Z) (cursor : option string) (acc : list pyval)
         (sent : list Request) (out : list string),
    let script := map (page_response base) pages ++ [last_response final] in
    let run := fetch_pages (list Response) scripted self args n page cursor
                 acc (mkCstate _ script sent out) in
    fetch_result run
    = COk (acc ++ List.concat (firstn n (map fst pages ++ [final])))
    /\ cs_srv _ (fetch_state run) = skipn n script
    /\ cs_sent _ (fetch_state run)
       = sent ++ firstn n (map (page_request self args)
                             (cursor :: map (fun p => Some (snd p)) pages))
    /\ exists lines, cs_out _ (fetch_state run) = out ++ lines
                     /\ List.length lines = Nat.min n (List.length pages).
Proof.
  intros Hb pages. induction pages as [|p pages IH]; intros Hfull n.
  - intros page cursor acc sent out. destruct n as [|n].
    + cbn. rewrite !app_nil_r. split; [reflexivity|].
      split; [reflexivity|]. split; [reflexivity|].
      exists []. now rewrite app_nil_r.
    + cbv zeta. cbn [map app]. rewrite fetch_pages_scripted_last.
      cbn. rewrite !firstn_nil, ?skipn_nil. cbn. rewrite !app_nil_r.
      split; [reflexivity|]. split; [reflexivity|].
      split; [reflexivity|]. exists []. now rewrite app_nil_r.
  - intros page cursor acc sent out. destruct n as [|n].
    + cbn. rewrite !app_nil_r. split; [reflexivity|].
      split; [reflexivity|]. split; [reflexivity|].
      exists []. now rewrite app_nil_r.
    + destruct p as [d c]. cbn [forallb] in Hfull.
      apply andb_true_iff in Hfull. destruct Hfull as [Hp Hfull].
      cbv zeta. cbn [map app].
      rewrite (fetch_pages_scripted_step self args base d c _ n page cursor
                 acc sent out Hb Hp).
      specialize (IH Hfull n (page + 1) (Some c) (acc ++ d)
                    (sent ++ [page_request self args cursor])
                    (out ++ [("Fetched page " ++ str_of_Z (page + 1)
                              ++ ", total replays: "
                              ++ str_of_Z (Z.of_nat (List.length (acc ++ d))))
                             %string])).
      cbv zeta in IH. destruct IH as (Hr & Hs & Hq & lines & Ho & Hl).
      split; [|split; [|split]].
      * rewrite Hr. cbn [firstn List.concat fst]. now rewrite <- app_assoc.
      * rewrite Hs. reflexivity.
      * rewrite Hq. cbn [firstn map snd]. now rewrite <- app_assoc.
      * eexists. split.
        -- rewrite Ho. rewrite <- app_assoc. reflexivity.
        -- cbn [List.length app Nat.min]. now rewrite Hl.
Qed.



Lemma build_params_no_cursor (args : ListArgs) :
  dict_get "cursor" (build_params args None) = None.
Proof.
  unfold build_params, set_if.
  destruct (truthy_opt (arg_start args) && truthy_opt (arg_end args));
    destruct (opt_list_truthy (arg_project args));
    destruct (truthy_opt (arg_environment args));
    destruct (truthy_opt (arg_query args));
    destruct (truthy_opt (arg_sort args));
    destruct (opt_list_truthy (arg_fields args)); reflexivity.
Qed.

Section AnyService.
Variable Srv : Type.
Variable http_get : Request -> Srv -> option Response * Srv.

Lemma fetch_pages_sent (self : SentryReplayClient) (args : ListArgs)
    (n : nat) :
  forall (page : Z) (cursor : option string) (acc : list pyval)
         (st : cstate Srv),
  exists reqs,
    cs_sent _ (fetch_state (fetch_pages Srv http_get self args n page cursor
                              acc st))
    = cs_sent _ st ++ reqs
    /\ (List.length reqs <= n)%nat
    /\ Forall (same_endpoint self) reqs
    /\ forall r, hd_error reqs = Some r
                 -> req_params r = build_params args cursor.
Proof.
  induction n as [|n IH]; intros page cursor acc st.
  - exists []. cbn. rewrite app_nil_r.
    split; [reflexivity|]. split; [lia|]. split; [constructor|].
    discriminate.
  - assert (Hone : forall (r : cresult (list pyval)) srv',
               exists reqs,
                 cs_sent _ (fetch_state
                   (r, mkCstate Srv srv'
                         (cs_sent _ st ++ [page_request self args cursor])
                         (cs_out _ st)))
                 = cs_sent _ st ++ reqs
                 /\ (List.length reqs <= S n)%nat
                 /\ Forall (same_endpoint self) reqs
                 /\ forall r, hd_error reqs = Some r
                              -> req_params r = build_params args cursor).
    { intros r srv'. exists [page_request self args cursor].
      split; [reflexivity|]. split; [cbn; lia|].
      split; [repeat constructor|].
      intros r0 H. cbn in H. now inversion H. }
    cbn [fetch_pages]. unfold c_bind at 1. unfold list_replays.
    unfold c_bind at 1. unfold send.
    fold (replays_url self). fold (page_request self args cursor).
    destruct (http_get (page_request self args cursor) (cs_srv _ st))
      as [[response|] srv']; [|apply Hone].
    unfold c_bind at 1. unfold c_lift at 1.
    destruct (raise_for_status response) as [[]|e]; [|apply Hone].
    unfold c_bind at 1. unfold c_lift at 1.
    destruct (resp_json response) as [data|]; [|apply Hone].
    unfold c_ret at 1. cbn [fst snd].
    destruct (truthy data); cbn [negb]; [|apply Hone].
    unfold c_bind at 1. unfold c_lift at 1.
    destruct (iterate data) as [items|e]; [|apply Hone].
    destruct (truthy_opt
                (next (_parse_link_header
                         match resp_link response with
                         | Some l => l
                         | None => ""
                         end))); cbn [negb]; [|apply Hone].
    unfold c_bind at 1. unfold c_print at 1.
    cbn [cs_srv cs_sent cs_out].
    match goal with
    | |- context [fetch_pages Srv http_get self args n ?p ?c ?a ?s] =>
        destruct (IH p c a s) as (reqs & Hs & Hl & Hf & _)
    end.
    exists (page_request self args cursor :: reqs).
    split; [|split; [|split]].
    + rewrite Hs. cbn [cs_sent]. now rewrite <- app_assoc.
    + cbn [List.length]. lia.
    + constructor; [split; reflexivity | exact Hf].
    + intros r H. cbn in H. now inversion H.
Qed.

End AnyService.

(** The requests of [fetch_all_replays].  Whatever the service answers, the
    call sends at most [max_pages] requests, none when [max_pages] is zero
    or negative, all to the replay list of the organization with the
    headers of the client, and the first of them carries no cursor. *)
Theorem fetch_all_requests_bounded (Srv : Type)
    (http_get : Request -> Srv -> option Response * Srv)
    (self : SentryReplayClient) (max_pages : Z) (args : ListArgs)
    (st : cstate Srv) :
  exists reqs,
    cs_sent _ (fetch_state
                 (fetch_all_replays Srv http_get self max_pages args st))
    = cs_sent _ st ++ reqs
    /\ Z.of_nat (List.length reqs) <= Z.max 0 max_pages
    /\ Forall (same_endpoint self) reqs
    /\ forall r, hd_error reqs = Some r
                 -> dict_get "cursor" (req_params r) = None.
Proof.
  unfold fetch_all_replays.
  destruct (fetch_pages_sent Srv http_get self args (Z.to_nat max_pages) 0
              None [] st) as (reqs & Hs & Hl & Hf & Hh).
  exists reqs. split; [exact Hs|]. split; [lia|]. split; [exact Hf|].
  intros r H. rewrite (Hh r H). apply build_params_no_cursor.
Qed.

(** The turn on a response with an error status. *)
Lemma fetch_pages_scripted_error (self : SentryReplayClient)
    (args : ListArgs) (bad : Response) (rest : list Response) (m : nat)
    (page : Z) (cursor : option string) (acc : list pyval)
    (sent : list Request) (out : list string) :
  400 <= resp_status bad < 600 ->
  fetch_pages (list Response) scripted self args (S m) page cursor acc
    (mkCstate _ (bad :: rest) sent out)
  = (CRaise (HTTPError (resp_status bad)),
     mkCstate _ rest (sent ++ [page_request self args cursor]) out).
Proof.
  intros Hbad.
  assert (E : (400 <=? resp_status bad) && (resp_status bad <? 600) = true).
  { apply andb_true_iff. split; [apply Z.leb_le | apply Z.ltb_lt]; lia. }
  cbn [fetch_pages]. unfold c_bind at 1. unfold list_replays.
  unfold c_bind at 1. unfold send. cbn [scripted cs_srv cs_sent cs_out].
  unfold c_bind at 1. unfold c_lift at 1. unfold raise_for_status.
  rewrite E. reflexivity.
Qed.

Lemma fetch_pages_error_page (self : SentryReplayClient) (args : ListArgs)
    (base : string) (bad : Response) (rest : list Response) :
  plain base = true ->
  400 <= resp_status bad < 600 ->
  forall pages, forallb full_page pages = true ->
  forall (m : nat) (page : Z) (cursor : option string) (acc : list pyval)
         (sent : list Request) (out : list string),
    let run := fetch_pages (list Response) scripted self args
                 (List.length pages + S m) page cursor acc
                 (mkCstate _ (map (page_response base) pages ++ bad :: rest)
                    sent out) in
    fetch_result run = CRaise (HTTPError (resp_status bad))
    /\ cs_srv _ (fetch_state run) = rest
    /\ List.length (cs_sent _ (fetch_state run))
       = (List.length sent + List.length pages + 1)%nat.
Proof.
  intros Hb Hbad pages.
  induction pages as [|p pages IH]; intros Hfull m page cursor acc sent out.
  - cbv zeta. cbn [map app List.length Nat.add].
    rewrite (fetch_pages_scripted_error self args bad rest m page cursor acc
               sent out Hbad).
    cbn [fetch_result fetch_state fst snd cs_srv cs_sent].
    split; [reflexivity|]. split; [reflexivity|].
    rewrite length_app. cbn [List.length]. lia.
  - destruct p as [d c]. cbn [forallb] in Hfull.
    apply andb_true_iff in Hfull. destruct Hfull as [Hp Hfull].
    cbv zeta. cbn [map app List.length Nat.add].
    rewrite (fetch_pages_scripted_step self args base d c _ _ page cursor
               acc sent out Hb Hp).
    specialize (IH Hfull m (page + 1) (Some c) (acc ++ d)
                  (sent ++ [page_request self args cursor])
                  (out ++ [("Fetched page " ++ str_of_Z (page + 1)
                            ++ ", total replays: "
                            ++ str_of_Z (Z.of_nat (List.length (acc ++ d))))
                           %string])).
    cbv zeta in IH. destruct IH as (Hr & Hs & Hq).
    split; [exact Hr|]. split; [exact Hs|].
    rewrite Hq, length_app. cbn [List.length]. lia.
Qed.

(** A failing page loses the pages before it.  When the service answers
    some pages with replays and a next cursor and then one response with an
    error status (400 to 599), and [max_pages] allows for one more page
    than those, [fetch_all_replays] raises the HTTP error of that status:
    the replays of the earlier pages are not returned.  The request of the
    failing page has been sent, and the responses after it are unread. *)
Theorem fetch_all_fails_on_error_page (self : SentryReplayClient)
    (args : ListArgs) (max_pages : Z) (base : string)
    (pages : list (list pyval * string)) (bad : Response)
    (rest : list Response) :
  plain base = true ->
  forallb full_page pages = true ->
  400 <= resp_status bad < 600 ->
  Z.of_nat (List.length pages) < max_pages ->
  let run := fetch_all_replays (list Response) scripted self max_pages args
               (mkCstate _ (map (page_response base) pages ++ bad :: rest)
                  [] []) in
  fetch_result run = CRaise (HTTPError (resp_status bad))
  /\ cs_srv _ (fetch_state run) = rest
  /\ List.length (cs_sent _ (fetch_state run))
     = S (List.length pages).
Proof.
  intros Hb Hfull Hbad Hmax. unfold fetch_all_replays.
  assert (E : Z.to_nat max_pages
              = (List.length pages
                 + S (Z.to_nat max_pages - List.length pages - 1))%nat)
    by lia.
  rewrite E.
  destruct (fetch_pages_error_page self args base bad rest Hb Hbad pages
              Hfull (Z.to_nat max_pages - List.length pages - 1)%nat 0 None
              [] [] []) as (Hr & Hs & Hq).
  cbv zeta. split; [exact Hr|]. split; [exact Hs|].
  rewrite Hq. cbn [List.length]. lia.
Qed.

Lemma fetch_all_fails_on_error_page_witness :
  fetch_result
    (fetch_all_replays (list Response) scripted
       (mkClient "token" "o" "https://sentry.io/api/0") 10
       (mkListArgs None None "7d" None None None None 50 None)
       (mkCstate _
          [ page_response "https://sentry.io/api/0/organizations/o/replays/"
              ([VInt 1; VInt 2], "0:100:0");
            mkResponse 500 None (Some (VList [VInt 3])) ] [] []))
  = CRaise (HTTPError 500).
Proof.
  apply (proj1 (fetch_all_fails_on_error_page
                  (mkClient "token" "o" "https://sentry.io/api/0")
                  (mkListArgs None None "7d" None None None None 50 None) 10
                  "https://sentry.io/api/0/organizations/o/replays/"
                  [([VInt 1; VInt 2], "0:100:0")]
                  (mkResponse 500 None (Some (VList [VInt 3]))) []
                  eq_refl eq_refl
                  ltac:(cbn; lia) eq_refl)).
Defined.

(** ** The script synthesizer: the lines of the rendered text *)

Lemma one_line_app (a b : string) :
  one_line (a ++ b) = one_line a && one_line b.
Proof. unfold one_line. now rewrite contains_app, negb_orb. Qed.

Lemma one_line_no_break (t : string) :
  one_line t = true -> contains "010"%char t = false.
Proof. unfold one_line. now rewrite negb_true_iff. Qed.

(** Splitting the joined lines gives the lines back, when none of them
    holds a line break. *)
Lemma text_lines_join (lines : list string) :
  lines <> [] -> forallb one_line lines = true ->
  text_lines (String.concat newline lines) = lines.
Proof.
  induction lines as [|x l IH]; [congruence|]. intros _ H.
  cbn [forallb] in H. apply andb_true_iff in H as [Hx Hl].
  destruct l as [|y l].
  - cbn [String.concat]. unfold text_lines, newline.
    now rewrite (split_char_none _ _ (one_line_no_break x Hx)).
  - change (String.concat newline (x :: y :: l))
      with (x ++ String "010"%char (String.concat newline (y :: l)))%string.
    unfold text_lines, newline.
    rewrite (split_char_app _ _ _ (one_line_no_break x Hx)).
    f_equal. apply IH; [discriminate | exact Hl].
Qed.

Lemma header_one_line (id8 d u : string) :
  one_line id8 = true -> one_line d = true -> one_line u = true ->
  forallb one_line (header id8 d u) = true.
Proof.
  intros Hi Hd Hu. unfold header, goto_stmt. cbn [forallb].
  rewrite !one_line_app, Hi, Hd, Hu. reflexivity.
Qed.

Lemma footer_one_line (id8 : string) :
  one_line id8 = true -> forallb one_line (footer id8) = true.
Proof.
  intros Hi. unfold footer, screenshot_stmt. cbn [forallb].
  rewrite !one_line_app, Hi. reflexivity.
Qed.

Lemma action_lines_one_line (a : UserAction) :
  forallb one_line (action_texts a) = true ->
  forallb one_line (action_lines a) = true.
Proof.
  unfold action_texts. cbn [forallb]. intros H.
  apply andb_true_iff in H as [Hs H]. apply andb_true_iff in H as [Hv H].
  apply andb_true_iff in H as [Ht _].
  unfold action_lines, append_action.
  repeat match goal with
         | |- context [if ?c then _ else _] => destruct c
         end;
    cbn [app forallb]; unfold click_stmt, fill_stmt, goto_stmt;
    rewrite ?one_line_app, ?Hs, ?Hv, ?Ht; reflexivity.
Qed.

Lemma actions_one_line (acts : list UserAction) :
  forallb one_line (flat_map action_texts acts) = true ->
  forallb one_line (flat_map action_lines acts) = true.
Proof.
  induction acts as [|a acts IH]; [reflexivity|].
  cbn [flat_map]. rewrite !forallb_app. intros H.
  apply andb_true_iff in H as [Ha Hr].
  now rewrite (action_lines_one_line a Ha), (IH Hr).
Qed.

Lemma script_one_line (s : ReplaySession) (id8 : pyval) :
  forallb one_line (printed_texts s id8) = true ->
  forallb one_line
    (header (py_str id8) (py_str (duration s)) (py_str (url s))
     ++ flat_map action_lines (actions s) ++ footer (py_str id8)) = true.
Proof.
  unfold printed_texts. cbn [forallb]. intros H.
  apply andb_true_iff in H as [Hi H]. apply andb_true_iff in H as [Hd H].
  apply andb_true_iff in H as [Hu Ha].
  rewrite !forallb_app, (header_one_line _ _ _ Hi Hd Hu),
          (actions_one_line _ Ha), (footer_one_line _ Hi).
  reflexivity.
Qed.

(** The text of the script and its lines. *)
Lemma script_text_lines (s : ReplaySession) (id8 : pyval) :
  slice8 (replay_id s) = Ok id8 ->
  forallb one_line (printed_texts s id8) = true ->
  exists text,
    to_test_script s = Ok text
    /\ text_lines text
       = header (py_str id8) (py_str (duration s)) (py_str (url s))
         ++ flat_map action_lines (actions s) ++ footer (py_str id8).
Proof.
  intros Hid Hone. eexists. split.
  - unfold to_test_script. rewrite (script_lines_ok s id8 Hid). reflexivity.
  - apply text_lines_join; [|exact (script_one_line s id8 Hone)].
    unfold header. discriminate.
Qed.

Lemma action_lines_click (a : UserAction) (sel : string) :
  click_shape a sel -> action_lines a = [click_stmt sel; wait_stmt; ""].
Proof.
  intros (Ht & Hs & Hne). unfold action_lines, append_action.
  rewrite Ht, Hs. cbn [String.eqb Ascii.eqb Bool.eqb truthy_opt andb].
  apply String.eqb_neq in Hne. now rewrite Hne.
Qed.

Lemma action_lines_fill (a : UserAction) (sel val : string) :
  fill_shape a sel val ->
  action_lines a = [fill_stmt sel val; wait_stmt; ""].
Proof.
  intros (Ht & Hs & Hne & Hv & Hnv). unfold action_lines, append_action.
  rewrite Ht, Hs, Hv. cbn [truthy_opt].
  apply String.eqb_neq in Hne. apply String.eqb_neq in Hnv.
  now rewrite Hne, Hnv.
Qed.

Lemma action_lines_goto (a : UserAction) (tgt : string) :
  goto_shape a tgt -> action_lines a = [goto_stmt tgt; wait_stmt; ""].
Proof.
  intros (Ht & Hs & Hne). unfold action_lines, append_action.
  rewrite Ht, Hs. cbn [truthy_opt].
  apply String.eqb_neq in Hne. now rewrite Hne.
Qed.

Lemma action_lines_skip (a : UserAction) :
  no_shape a -> action_lines a = [wait_stmt; ""].
Proof.
  intros (Hc & Hf & Hg). split_action a; try reflexivity; exfalso;
    first [ eapply Hc; repeat split; eassumption
          | eapply Hf; repeat split; eassumption
          | eapply Hg; repeat split; eassumption ].
Qed.

Lemma click_only_when (a : UserAction) (x : string) :
  In (click_stmt x) (action_lines a) -> exists sel, click_shape a sel.
Proof.
  split_action a; cbn [In]; intros H;
    repeat match goal with
           | H : _ \/ _ |- _ => destruct H as [H|H]
           end;
    try contradiction; try discriminate H;
    eexists; repeat split; eassumption.
Qed.

Lemma fill_only_when (a : UserAction) (x y : string) :
  In (fill_stmt x y) (action_lines a) -> exists sel val, fill_shape a sel val.
Proof.
  split_action a; cbn [In]; intros H;
    repeat match goal with
           | H : _ \/ _ |- _ => destruct H as [H|H]
           end;
    try contradiction; try discriminate H;
    do 2 eexists; repeat split; eassumption.
Qed.

Lemma goto_only_when (a : UserAction) (x : string) :
  In (goto_stmt x) (action_lines a) -> exists tgt, goto_shape a tgt.
Proof.
  split_action a; cbn [In]; intros H;
    repeat match goal with
           | H : _ \/ _ |- _ => destruct H as [H|H]
           end;
    try contradiction; try discriminate H;
    eexists; repeat split; eassumption.
Qed.

(** C2, as stated, fails on two counts.  A click whose selector is the
    empty string has a selector that is not null, and gets no click
    statement.  And a url that holds a line break followed by the text of
    the wait statement puts a wait statement line in the script of a session
    without actions. *)
Lemma script_statements_as_stated_fail :
  (exists a text,
      actions click_empty_selector = [a]
      /\ action_type a = "click" /\ selector a <> None
      /\ to_test_script click_empty_selector = Ok text
      /\ forall sel, ~ In (click_stmt sel) (text_lines text))
  /\ (exists text,
         actions url_with_line_break = []
         /\ to_test_script url_with_line_break = Ok text
         /\ count_occ string_dec (text_lines text) wait_stmt = 1%nat).
Proof.
  split.
  - eexists. eexists. split; [reflexivity|]. split; [reflexivity|].
    split; [discriminate|]. split; [reflexivity|].
    intros sel.
    assert (E : text_lines
                  (String.concat newline
                     (header "abc123de" "45000" "https://example.com/app"
                      ++ [wait_stmt; ""] ++ footer "abc123de"))
                = header "abc123de" "45000" "https://example.com/app"
                  ++ [wait_stmt; ""] ++ footer "abc123de")
      by reflexivity.
    change (~ In (click_stmt sel)
              (text_lines
                 (String.concat newline
                    (header "abc123de" "45000" "https://example.com/app"
                     ++ [wait_stmt; ""] ++ footer "abc123de")))).
    rewrite E. cbn [header footer app In].
    intros H.
    repeat match goal with
           | H : _ \/ _ |- _ => destruct H as [H|H]
           end;
      try contradiction; discriminate H.
  - eexists. split; [reflexivity|]. split; [reflexivity|].
    vm_compute. reflexivity.
Qed.

(** C2, amended. For a session whose identifier can be cut to 8 characters
    and whose printed texts hold no line break, the lines of the script are
    the header, the lines of each action in order, and the footer.  An
    action gets a click statement exactly when its type is ["click"] and its
    selector is neither null nor empty, a fill statement exactly when its
    type is ["input"] and its selector and value are neither null nor empty,
    a goto statement exactly when its type is ["navigation"] and its target
    is neither null nor empty, and no statement otherwise; the wait
    statement and an empty line follow in every case, so the script has one
    wait statement line per action.  The script of a session whose only
    action is a click without selector has the navigation and screenshot
    statements, no click statement and one wait statement. *)
Theorem script_statements (s : ReplaySession) (id8 : pyval) :
  slice8 (replay_id s) = Ok id8 ->
  forallb one_line (printed_texts s id8) = true ->
  exists text,
    to_test_script s = Ok text
    /\ text_lines text
       = header (py_str id8) (py_str (duration s)) (py_str (url s))
         ++ flat_map action_lines (actions s) ++ footer (py_str id8)
    /\ (forall a,
           (forall sel,
               click_shape a sel ->
               action_lines a = [click_stmt sel; wait_stmt; ""])
           /\ (forall sel val,
                  fill_shape a sel val ->
                  action_lines a = [fill_stmt sel val; wait_stmt; ""])
           /\ (forall tgt,
                  goto_shape a tgt ->
                  action_lines a = [goto_stmt tgt; wait_stmt; ""])
           /\ (no_shape a -> action_lines a = [wait_stmt; ""])
           /\ (forall x,
                  In (click_stmt x) (action_lines a) ->
                  exists sel, click_shape a sel)
           /\ (forall x y,
                  In (fill_stmt x y) (action_lines a) ->
                  exists sel val, fill_shape a sel val)
           /\ (forall x,
                  In (goto_stmt x) (action_lines a) ->
                  exists tgt, goto_shape a tgt))
    /\ count_occ string_dec (text_lines text) wait_stmt
       = List.length (actions s)
    /\ (forall a,
           actions s = [a] -> action_type a = "click" -> selector a = None ->
           text_lines text
           = header (py_str id8) (py_str (duration s)) (py_str (url s))
             ++ [wait_stmt; ""] ++ footer (py_str id8)
           /\ In (goto_stmt (py_str (url s))) (text_lines text)
           /\ In (screenshot_stmt (py_str id8)) (text_lines text)
           /\ (forall sel, ~ In (click_stmt sel) (text_lines text))
           /\ count_occ string_dec (text_lines text) wait_stmt = 1%nat).
Proof.
  intros Hid Hone.
  destruct (script_text_lines s id8 Hid Hone) as (text & Htext & Hlines).
  exists text. split; [exact Htext|]. split; [exact Hlines|].
  split.
  { intros a.
    split; [apply action_lines_click|].
    split; [apply action_lines_fill|].
    split; [apply action_lines_goto|].
    split; [apply action_lines_skip|].
    split; [apply click_only_when|].
    split; [apply fill_only_when | apply goto_only_when]. }
  split; [rewrite Hlines; apply script_wait_count|].
  intros a Ha Hty Hsel. rewrite Hlines, Ha.
  cbn [flat_map]. rewrite app_nil_r.
  rewrite (click_without_selector_lines a Hty Hsel).
  split; [reflexivity|]. split.
  { apply in_or_app. left. unfold header. simpl. tauto. }
  split.
  { apply in_or_app. right. apply in_or_app. right.
    unfold footer. simpl. tauto. }
  split.
  { intros sel Hin.
    apply in_app_or in Hin as [Hin|Hin];
      [exact (header_no_click _ _ _ _ Hin)|].
    apply in_app_or in Hin as [Hin|Hin];
      [|exact (footer_no_click _ _ Hin)].
    simpl in Hin. destruct Hin as [H|[H|[]]]; discriminate H. }
  rewrite <- (click_without_selector_lines a Hty Hsel).
  rewrite <- (app_nil_r (action_lines a)).
  change (action_lines a ++ []) with (flat_map action_lines [a]).
  apply script_wait_count.
Qed.

Lemma script_statements_witness :
  exists text,
    to_test_script click_without_selector = Ok text
    /\ text_lines text
       = header "abc123de" "45000" "https://example.com/app"
         ++ [wait_stmt; ""] ++ footer "abc123de"
    /\ count_occ string_dec (text_lines text) wait_stmt = 1%nat.
Proof.
  destruct (script_statements click_without_selector (VStr "abc123de")
              eq_refl eq_refl) as (text & Ht & Hl & _ & Hc & _).
  exists text. split; [exact Ht|]. split; [exact Hl | exact Hc].
Defined.

(** ** The script synthesizer: what it reads and what it writes *)

Lemma read_lines_last (sl : heap) (old : list (list string))
    (ls : list string) :
  SynthStore.read_lines (List.length old)
                        (SynthStore.mkObjects sl (old ++ [ls])) = ls.
Proof.
  unfold SynthStore.read_lines. cbn [SynthStore.line_lists].
  rewrite app_nth2 by lia. now rewrite Nat.sub_diag.
Qed.

Lemma read_lines_before (sl : heap) (old fresh : list (list string))
    (l : loc) :
  (l < List.length old)%nat ->
  SynthStore.read_lines l (SynthStore.mkObjects sl (old ++ fresh))
  = SynthStore.read_lines l (SynthStore.mkObjects sl old).
Proof.
  intros H. unfold SynthStore.read_lines. cbn [SynthStore.line_lists].
  now rewrite app_nth1.
Qed.

Lemma write_lines_last (old : list (list string)) (ls xs : list string) :
  SynthStore.write_lines (List.length old) xs (old ++ [ls]) = old ++ [xs].
Proof.
  induction old as [|y old IH]; [reflexivity|].
  cbn [List.length app SynthStore.write_lines]. now rewrite IH.
Qed.

Lemma append_last (sl : heap) (old : list (list string)) (ls : list string)
    (x : string) :
  SynthStore.append (List.length old) x
                    (SynthStore.mkObjects sl (old ++ [ls]))
  = (Ok tt, SynthStore.mkObjects sl (old ++ [ls ++ [x]])).
Proof.
  unfold SynthStore.append. rewrite read_lines_last.
  cbn [SynthStore.session_lists SynthStore.line_lists].
  now rewrite write_lines_last.
Qed.

(** A turn of the loop appends to the list object what [append_action]
    appends to the list. *)
Lemma append_action_last (sl : heap) (old : list (list string))
    (ls : list string) (a : UserAction) :
  SynthStore.append_action (List.length old) a
                           (SynthStore.mkObjects sl (old ++ [ls]))
  = (Ok tt, SynthStore.mkObjects sl (old ++ [append_action ls a])).
Proof.
  unfold SynthStore.append_action, append_action, SynthStore.bind_run.
  repeat match goal with
         | |- context [if ?c then _ else _] => destruct c
         end;
    unfold SynthStore.unit_run; rewrite !append_last; reflexivity.
Qed.

Lemma for_each_last (sl : heap) (old : list (list string))
    (acts : list UserAction) :
  forall ls,
    SynthStore.for_each (SynthStore.append_action (List.length old)) acts
                        (SynthStore.mkObjects sl (old ++ [ls]))
    = (Ok tt,
       SynthStore.mkObjects sl (old ++ [fold_left append_action acts ls])).
Proof.
  induction acts as [|a acts IH]; intros ls; [reflexivity|].
  cbn [SynthStore.for_each fold_left]. unfold SynthStore.bind_run.
  now rewrite append_action_last, IH.
Qed.

(** The run of the method: its result is the script, and the objects after
    it are the objects before it and the list of the lines; when the
    identifier cannot be cut, nothing is created. *)
Lemma to_test_script_run (s : ReplaySession) (o : SynthStore.objects) :
  SynthStore.to_test_script s o
  = match script_lines s with
    | Ok lines =>
        (Ok (String.concat newline lines),
         SynthStore.mkObjects (SynthStore.session_lists o)
                              (SynthStore.line_lists o ++ [lines]))
    | Raise e => (Raise e, o)
    end.
Proof.
  unfold SynthStore.to_test_script, script_lines.
  unfold SynthStore.bind_run at 1. unfold SynthStore.lift_run at 1.
  destruct (slice8 (replay_id s)) as [id8|e]; [|reflexivity].
  cbn [bind]. destruct o as [sl old].
  unfold SynthStore.bind_run at 1. unfold SynthStore.new_list.
  cbn [SynthStore.session_lists SynthStore.line_lists].
  unfold SynthStore.bind_run at 1. rewrite for_each_last.
  unfold SynthStore.bind_run at 1. rewrite append_last.
  unfold SynthStore.bind_run at 1. unfold SynthStore.lift_run.
  unfold SynthStore.bind_run at 1. rewrite append_last.
  unfold SynthStore.bind_run at 1. rewrite append_last.
  unfold SynthStore.join. rewrite read_lines_last.
  unfold footer. now rewrite <- !app_assoc.
Qed.


